(** * Rowing-GPX-Analysis: the track sampler, the tile space and the map

    A shallow embedding of [gpx_analysis/sporting.py], of
    [gpx_analysis/graph_handler.py] (the tile functions and the class
    [MapClass]) and of the ranking of [gpx_analysis/GUIs/gui_stats_menu.py].

    Conventions of the embedding.
    - A finite Python [float] is an exact rational ([Q]): comparisons,
      [+], [-], [*] are the rational ones and [/] raises
      [ZeroDivisionError] on a zero divisor, as Python's float division
      does.  Rounding error inside the range of doubles is outside the
      model.  Where the code itself produces them, in the pace of
      [convert_speed_units], the infinite floats and nan are values of
      [pyfloat], and a result beyond the range of doubles is infinite.
    - A Python [int] is a [Z].
    - A raised exception is the [Raise] branch of [result]; the exception
      classes are the constructors of [exn].  Where [KeyError] can be
      raised as well, the result is an [outcome].
    - A [dict] is a [gmap], or a list of pairs where its order matters; a
      method of [MapClass] is a function from the object's state to an
      outcome and the state it leaves behind.
    - The dict of an athlete, which the caller hands over and [MapClass]
      changes in place, is an address in a heap of dicts; the artists of
      [matplotlib] are known by the rank of their creation.
    - What the sources import from outside ([math], [PIL], [urllib],
      [matplotlib], the module [components]) is a parameter. *)

From Stdlib Require Import ZArith QArith Qabs Qround Qfield Lqa Ascii String DecimalString Lia.
From stdpp Require Import base functions option list sorting gmap.

Local Open Scope Z_scope.

(** ** Exceptions and results *)

Inductive exn : Set :=
| AttributeError
| IndexError
| TypeError
| ValueError
| ZeroDivisionError.

Inductive result (A : Type) : Type :=
| Ok (a : A)
| Raise (e : exn).
Arguments Ok {A} a.
Arguments Raise {A} e.

Definition result_bind {A B} (f : A → result B) (r : result A) : result B :=
  match r with
  | Ok a => f a
  | Raise e => Raise e
  end.

#[global] Instance result_ret : MRet result := λ A a, Ok a.
#[global] Instance result_mbind : MBind result := λ A B f r, result_bind f r.

Definition is_ok {A} (r : result A) : bool :=
  match r with Ok _ => true | Raise _ => false end.

(** Subscripting a dictionary also raises [KeyError]; an outcome is a
    result whose exception may be that one. *)
Inductive raised : Set :=
| KeyError
| Builtin (e : exn).

Inductive outcome (A : Type) : Type :=
| Returned (a : A)
| Raised (e : raised).
Arguments Returned {A} a.
Arguments Raised {A} e.

Definition outcome_bind {A B} (f : A → outcome B) (r : outcome A)
  : outcome B :=
  match r with
  | Returned a => f a
  | Raised e => Raised e
  end.

#[global] Instance outcome_ret : MRet outcome := λ A a, Returned a.
#[global] Instance outcome_mbind : MBind outcome :=
  λ A B f r, outcome_bind f r.

Definition of_result {A} (r : result A) : outcome A :=
  match r with
  | Ok a => Returned a
  | Raise e => Raised (Builtin e)
  end.

(** [d[key]] and [del d[key]] on a dictionary with string keys, kept in
    insertion order; the key [None] is never present. *)
Definition dict_getitem {A} (d : list (string * A)) (key : option string)
  : outcome A :=
  match key with
  | None => Raised KeyError
  | Some k =>
      match list_find (λ item, item.1 = k) d with
      | Some (_, item) => Returned item.2
      | None => Raised KeyError
      end
  end.

Definition dict_delitem {A} (d : list (string * A)) (key : option string)
  : outcome (list (string * A)) :=
  match key with
  | None => Raised KeyError
  | Some k =>
      match list_find (λ item, item.1 = k) d with
      | Some _ => Returned (filter (λ item, item.1 ≠ k) d)
      | None => Raised KeyError
      end
  end.

(** [d[key] = value]: the value of a key that is present is replaced where
    it stands, a new key goes to the end. *)
Fixpoint dict_setitem {A} (d : list (string * A)) (key : string) (value : A)
  : list (string * A) :=
  match d with
  | [] => [(key, value)]
  | item :: d' =>
      if decide (item.1 = key) then (key, value) :: d'
      else item :: dict_setitem d' key value
  end.

(** ** Python values and arithmetic *)

(** The dynamically typed values that the samplers return and the stats
    menu shows ([0] is an [int], a computed speed a [float]); their floats
    are finite. *)
Inductive pyval : Type :=
| VNone
| VBool (b : bool)
| VInt (z : Z)
| VFloat (q : Q)
| VStr (s : string).

(** [a > b] and [a >= b] on floats. *)
Definition py_gt (a b : Q) : bool := negb (Qle_bool a b).
Definition py_ge (a b : Q) : bool := Qle_bool b a.

(** [a / b] on floats. *)
Definition py_truediv (a b : Q) : result Q :=
  if Qeq_bool b 0 then Raise ZeroDivisionError else Ok (a / b)%Q.

(** [a // b] and [a % b] on floats (the quotient rounded towards minus
    infinity, the remainder with the sign of the divisor). *)
Definition py_floordiv (a b : Q) : result Q :=
  if Qeq_bool b 0 then Raise ZeroDivisionError
  else Ok (inject_Z (Qfloor (a / b)))%Q.

Definition py_mod (a b : Q) : result Q :=
  if Qeq_bool b 0 then Raise ZeroDivisionError
  else Ok (a - b * inject_Z (Qfloor (a / b)))%Q.

(** [int(x)] of a float: truncation towards zero. *)
Definition py_int (x : Q) : Z :=
  if Qle_bool 0 x then Qfloor x else Qceiling x.

(** Rounding to the nearest integer, ties to the even one. *)
Definition round_half_even (x : Q) : Z :=
  let f := Qfloor x in
  match ((x - inject_Z f) ?= (1 # 2))%Q with
  | Lt => f
  | Gt => f + 1
  | Eq => if Z.even f then f else f + 1
  end.

(** [round(x, ndigits)] for [ndigits >= 0]. *)
Definition py_round (x : Q) (ndigits : Z) : Q :=
  let scale := inject_Z (10 ^ ndigits) in
  (inject_Z (round_half_even (x * scale)) / scale)%Q.

(** The number a value stands for in arithmetic and comparisons: ints,
    bools and floats are numbers, [None] and strings are not. *)
Definition num_value (v : pyval) : option Q :=
  match v with
  | VInt z => Some (inject_Z z)
  | VBool b => Some (inject_Z (Z.b2z b))
  | VFloat q => Some q
  | _ => None
  end.

(** [total += x] with [x] a float: an int (or bool) total becomes a float;
    anything else is not a number. *)
Definition py_add_float (total : pyval) (x : Q) : result pyval :=
  match total with
  | VInt z => Ok (VFloat (inject_Z z + x)%Q)
  | VBool b => Ok (VFloat (inject_Z (Z.b2z b) + x)%Q)
  | VFloat q => Ok (VFloat (q + x)%Q)
  | _ => Raise TypeError
  end.

(** [round(v, ndigits)] of a value, for [ndigits >= 0]: an int stays the
    int it is, a float is rounded. *)
Definition py_round_val (v : pyval) (ndigits : Z) : result pyval :=
  match v with
  | VInt z => Ok (VInt z)
  | VBool b => Ok (VInt (Z.b2z b))
  | VFloat q => Ok (VFloat (py_round q ndigits))
  | _ => Raise TypeError
  end.

(** A float that may be infinite or not a number; a finite float is its
    exact value.  The floats of [pyval] are the finite ones. *)
Inductive pyfloat : Type :=
| Finite (q : Q)
| Infinite (negative : bool)
| NaN.

(** A value that may be any float: a value of [pyval], or one of the
    floats that are not finite. *)
Inductive pyarg : Type :=
| Plain (v : pyval)
| InfFloat (negative : bool)
| NanFloat.

(** The float a value is when [isinstance(v, float)] holds. *)
Definition float_value (v : pyarg) : option pyfloat :=
  match v with
  | Plain (VFloat q) => Some (Finite q)
  | Plain _ => None
  | InfFloat negative => Some (Infinite negative)
  | NanFloat => Some NaN
  end.

(** The least magnitude that rounds to infinity: [2^1024 - 2^970], half an
    ulp above the greatest double [2^1024 - 2^971]. *)
Definition overflow_bound : Q := inject_Z (2 ^ 1024 - 2 ^ 970).

(** The float an operation gives when its exact result is [q]: infinity
    when [q] is beyond the range of doubles. *)
Definition float_of_exact (q : Q) : pyfloat :=
  if Qle_bool overflow_bound (Qabs q) then Infinite (negb (Qle_bool 0 q))
  else Finite q.

(** [x * c] for a finite constant [c] above zero. *)
Definition float_mul (x : pyfloat) (c : Q) : pyfloat :=
  match x with
  | Finite q => float_of_exact (q * c)
  | Infinite negative => Infinite negative
  | NaN => NaN
  end.

(** [a / x] for a finite [a] that is not zero. *)
Definition float_rdiv (a : Q) (x : pyfloat) : result pyfloat :=
  match x with
  | Finite q => exact ← py_truediv a q; Ok (float_of_exact exact)
  | Infinite _ => Ok (Finite 0)
  | NaN => Ok NaN
  end.

(** [round(x, ndigits)]: an infinite float and nan round to themselves. *)
Definition float_round (x : pyfloat) (ndigits : Z) : pyfloat :=
  match x with
  | Finite q => Finite (py_round q ndigits)
  | _ => x
  end.

(** [x // b] and [x % b] for a finite [b]: a finite float, or nan ([None])
    when [x] is infinite or nan; never an infinite float. *)
Definition float_floordiv (x : pyfloat) (b : Q) : result (option Q) :=
  match x with
  | Finite q => whole ← py_floordiv q b; Ok (Some whole)
  | _ => if Qeq_bool b 0 then Raise ZeroDivisionError else Ok None
  end.

Definition float_mod (x : pyfloat) (b : Q) : result (option Q) :=
  match x with
  | Finite q => rest ← py_mod q b; Ok (Some rest)
  | _ => if Qeq_bool b 0 then Raise ZeroDivisionError else Ok None
  end.

(** [int(x)] of a float that is finite or nan: nan raises [ValueError]. *)
Definition int_of_float (x : option Q) : result Z :=
  match x with
  | Some q => Ok (py_int q)
  | None => Raise ValueError
  end.

(** [l[i]]: a negative index counts from the end, an index outside the
    list raises [IndexError]. *)
Definition py_getitem {A} (l : list A) (i : Z) : result A :=
  let n := Z.of_nat (length l) in
  let j := if i <? 0 then i + n else i in
  if (j <? 0) || (n <=? j) then Raise IndexError
  else match l !! Z.to_nat j with
       | Some x => Ok x
       | None => Raise IndexError
       end.

(** [enumerate(l)], counting from [start]. *)
Fixpoint enumerate_from {A} (start : Z) (l : list A) : list (Z * A) :=
  match l with
  | [] => []
  | x :: l' => (start, x) :: enumerate_from (start + 1) l'
  end.

Definition enumerate {A} (l : list A) : list (Z * A) := enumerate_from 0 l.

(** ** Tracks *)

(** Modelled from the spec: the classes [TrackPoint] and [Track] of
    [gpx_parser], which is not among the sources.  A track point is an
    immutable sample with a position in degrees (latitude, longitude), a
    relative time in seconds and a cadence; a track is the ordered sequence
    of its points. *)
Record TrackPoint : Type := mkTrackPoint {
  position_degrees : Q * Q;
  relative_time : Q;
  cadence : Q
}.

Record Track : Type := mkTrack { track_points : list TrackPoint }.

Definition get_track_points (track : Track) : list TrackPoint :=
  track_points track.

(** Method calls on a value that may be [None]: on [None] the attribute
    lookup raises [AttributeError]. *)
Definition get_relative_time (p : option TrackPoint) : result Q :=
  match p with
  | Some pt => Ok (relative_time pt)
  | None => Raise AttributeError
  end.

Definition get_position_degrees (p : option TrackPoint) : result (Q * Q) :=
  match p with
  | Some pt => Ok (position_degrees pt)
  | None => Raise AttributeError
  end.

Definition get_cadence (p : option TrackPoint) : result Q :=
  match p with
  | Some pt => Ok (cadence pt)
  | None => Raise AttributeError
  end.

(** ** sporting.py *)

Module Sporting.

Definition map_ranges (value in_min in_max out_min out_max : Q) : result Q :=
  q ← py_truediv ((value - in_min) * (out_max - out_min))%Q (in_max - in_min)%Q;
  Ok (q + out_min)%Q.

(** The [for point_id, point in enumerate(track_points)] loop of
    [get_surrounding_points_at_time]; [items] is what is left of the
    enumeration. *)
Fixpoint surrounding_loop (track_points : list TrackPoint)
    (items : list (Z * TrackPoint)) (time : Q)
  : result (option TrackPoint * option TrackPoint) :=
  match items with
  | [] => Ok (None, None)
  | (point_id, point) :: items' =>
      if py_gt (relative_time point) time then
        let point_id_above := point_id in
        let point_id_below := point_id - 1 in
        below ← py_getitem track_points point_id_below;
        above ← py_getitem track_points point_id_above;
        Ok (Some below, Some above)
      else surrounding_loop track_points items' time
  end.

Definition get_surrounding_points_at_time (track : Track) (time : Q)
  : result (option TrackPoint * option TrackPoint) :=
  let track_points := get_track_points track in
  surrounding_loop track_points (enumerate track_points) time.

Definition get_position_at_time (track : Track) (time : Q) : result (Q * Q) :=
  let track_points := get_track_points track in
  last_point ← py_getitem track_points (-1);
  if py_ge time (relative_time last_point) then
    Ok (position_degrees last_point)
  else
    '(point_below, point_above) ← get_surrounding_points_at_time track time;
    time_below ← get_relative_time point_below;
    time_above ← get_relative_time point_above;
    position_above ← get_position_degrees point_above;
    position_below ← get_position_degrees point_below;
    new_lat ← map_ranges time time_below time_above
                 (fst position_below) (fst position_above);
    new_lon ← map_ranges time time_below time_above
                 (snd position_below) (snd position_above);
    Ok (new_lat, new_lon).

Section WithGeo.

(** [geo.geo_distance] of [components], which is not among the sources:
    the distance in metres between two positions given in degrees. *)
Variable geo_distance : Q → Q → Q → Q → Q.

Definition get_speed_at_time (track : Track) (time : Q) : result pyval :=
  let track_points := get_track_points track in
  last_point ← py_getitem track_points (-1);
  if py_gt time (relative_time last_point) then
    Ok (VInt 0)
  else
    '(point_below, point_above) ← get_surrounding_points_at_time track time;
    position_below ← get_position_degrees point_below;
    position_above ← get_position_degrees point_above;
    time_below ← get_relative_time point_below;
    time_above ← get_relative_time point_above;
    let time_delta := (time_above - time_below)%Q in
    let distance := geo_distance (fst position_below) (snd position_below)
                                 (fst position_above) (snd position_above) in
    speed ← py_truediv distance time_delta;
    Ok (VFloat speed).

End WithGeo.

Definition get_cadence_at_time (track : Track) (time : Q) : result pyval :=
  let track_points := get_track_points track in
  last_point ← py_getitem track_points (-1);
  if py_gt time (relative_time last_point) then
    Ok (VInt 0)
  else
    '(point_below, point_above) ← get_surrounding_points_at_time track time;
    cadence_below ← get_cadence point_below;
    cadence_above ← get_cadence point_above;
    time_below ← get_relative_time point_below;
    time_above ← get_relative_time point_above;
    mapped ← map_ranges time time_below time_above cadence_below cadence_above;
    Ok (VFloat (py_round mapped 1)).

Section WithFormat.

(** The text Python's formatting gives a float in an f-string (the
    shortest decimal that reads back as the same float); the text of an
    [int] is its decimal numeral. *)
Variable float_str : Q → string.

Definition int_str (z : Z) : string := NilZero.string_of_int (Z.to_int z).

(** The text of a float that may be infinite or nan, and of one that may
    be nan. *)
Definition pyfloat_str (x : pyfloat) : string :=
  match x with
  | Finite q => float_str q
  | Infinite false => "inf"
  | Infinite true => "-inf"
  | NaN => "nan"
  end.

Definition nan_or_str (x : option Q) : string :=
  match x with
  | Some q => float_str q
  | None => "nan"
  end.

Definition convert_speed_units (speed : pyarg) (unit : pyval)
  : result string :=
  match float_value speed with
  | Some speed =>
      match unit with
      | VStr unit =>
          if (unit =? "m/s")%string then
            Ok (pyfloat_str speed ++ " m/s")%string
          else if (unit =? "km/h")%string then
            Ok (pyfloat_str (float_mul speed 3.6) ++ " km/h")%string
          else if (unit =? "mph")%string then
            Ok (pyfloat_str (float_mul speed 2.237) ++ " mph")%string
          else if (unit =? "s/500m")%string then
            pace ← float_rdiv 500 speed;
            let total := float_round pace 1 in
            whole ← float_floordiv total 60;
            mins ← int_of_float whole;
            secs ← float_mod total 60;
            Ok (int_str mins ++ ":" ++ nan_or_str secs ++ " /500m")%string
          else Raise ValueError
      | _ => Raise TypeError
      end
  | None => Raise TypeError
  end.

End WithFormat.

Section Distance.

Variable geo_distance : Q → Q → Q → Q → Q.

(** [abs(geo.geo_distance(...))] between a sample and the one before it,
    with the arguments in the order both branches of the loop pass them. *)
Definition leg_distance (point point_below : TrackPoint) : Q :=
  Qabs (geo_distance (position_degrees point).1 (position_degrees point).2
                     (position_degrees point_below).1
                     (position_degrees point_below).2).

(** The [for point_id, point in enumerate(track_points[1:])] loop of
    [get_cumulative_dist_at_time]; leaving the loop by [break] or at its
    end gives the total accumulated so far.  The share of the leg in
    progress is exact here; in doubles it can pass the whole leg by an ulp
    just before the leg ends, which [round(., 2)] can turn into a cent, so
    the theorems below never order the distance at a time inside a leg
    against the distance at the end of that leg. *)
Fixpoint cumulative_loop (track_points : list TrackPoint)
    (items : list (Z * TrackPoint)) (time : Q) (total_dist : pyval)
  : result pyval :=
  match items with
  | [] => Ok total_dist
  | (point_id, point) :: items' =>
      let point_id := point_id + 1 in
      if py_gt (relative_time point) time then
        point_below ← py_getitem track_points (point_id - 1);
        let time_below := relative_time point_below in
        let time_above := relative_time point in
        let dist_between := leg_distance point point_below in
        part ← map_ranges time time_below time_above 0 dist_between;
        py_add_float total_dist part
      else
        point_below ← py_getitem track_points (point_id - 1);
        total_dist ← py_add_float total_dist (leg_distance point point_below);
        cumulative_loop track_points items' time total_dist
  end.

Definition get_cumulative_dist_at_time (track : Track) (time : Q)
  : result pyval :=
  let track_points := get_track_points track in
  total_dist ← cumulative_loop track_points
                  (enumerate (drop 1 track_points)) time (VInt 0);
  py_round_val total_dist 2.

Definition get_total_distance (track : Track) : result pyval :=
  last_point ← py_getitem (get_track_points track) (-1);
  get_cumulative_dist_at_time track (relative_time last_point).

End Distance.

End Sporting.

(** ** graph_handler.py *)

Module GraphHandler.

(** [min(...)] and [max(...)] of a generator of ints: [ValueError] when it
    yields nothing. *)
Definition py_min (l : list Z) : result Z :=
  match l with
  | [] => Raise ValueError
  | x :: l' => Ok (foldl Z.min x l')
  end.

Definition py_max (l : list Z) : result Z :=
  match l with
  | [] => Raise ValueError
  | x :: l' => Ok (foldl Z.max x l')
  end.

(** [max(a, b)] and [min(a, b)] of two numbers: the first argument unless
    the second is strictly greater (strictly smaller). *)
Definition py_max2 (a b : Q) : Q := if py_gt b a then b else a.
Definition py_min2 (a b : Q) : Q := if py_gt a b then b else a.

(** [max(...)] and [min(...)] of a generator of floats. *)
Definition py_max_floats (l : list Q) : result Q :=
  match l with
  | [] => Raise ValueError
  | x :: l' => Ok (foldl py_max2 x l')
  end.

Definition py_min_floats (l : list Q) : result Q :=
  match l with
  | [] => Raise ValueError
  | x :: l' => Ok (foldl py_min2 x l')
  end.

Section WithMath.

(** The tile images ([PIL.Image]). *)
Context {Image : Type}.

(** The functions of Python's [math] module that [num2deg] calls and the
    float power of [scale_zoom]; their values are not rationals, so they
    stay uninterpreted. *)
Variable math_pi : Q.
Variables math_atan math_sinh math_degrees : Q → Q.
Variable pow : Q → Q → Q.

Definition num2deg (xtile ytile zoom : Z) : result (Q * Q) :=
  let exp_zoom := (2 ^ zoom)%Q in
  qx ← py_truediv (inject_Z xtile) exp_zoom;
  let lon_deg := (qx * 360 - 180)%Q in
  qy ← py_truediv (2 * inject_Z ytile)%Q exp_zoom;
  let lat_rad := math_atan (math_sinh (math_pi * (1 - qy))%Q) in
  let lat_deg := math_degrees lat_rad in
  Ok (lat_deg, lon_deg).

(** The attributes of a [MapClass] object that the tile bookkeeping reads
    and writes; a bounds attribute that is still [None] is [None] here. *)
Record MapClass : Type := mkMapClass {
  tile_size : Z;
  image_dict : gmap (Z * Z) Image;
  raw_image_dict : gmap (Z * Z) Image;
  gpx_bounds_deg : option (Q * Q * Q * Q);
  tile_bounds_plt : option (Z * Z * Z * Z);
  tile_bounds_deg : option (Q * Q * Q * Q)
}.

(** [MapClass.__init__] *)
Definition init : MapClass :=
  {| tile_size := 50;
     image_dict := ∅;
     raw_image_dict := ∅;
     gpx_bounds_deg := None;
     tile_bounds_plt := None;
     tile_bounds_deg := None |}.

Definition set_raw_image_dict (self : MapClass) (d : gmap (Z * Z) Image)
  : MapClass :=
  {| tile_size := tile_size self;
     image_dict := image_dict self;
     raw_image_dict := d;
     gpx_bounds_deg := gpx_bounds_deg self;
     tile_bounds_plt := tile_bounds_plt self;
     tile_bounds_deg := tile_bounds_deg self |}.

Definition set_image_dict (self : MapClass) (d : gmap (Z * Z) Image)
  : MapClass :=
  {| tile_size := tile_size self;
     image_dict := d;
     raw_image_dict := raw_image_dict self;
     gpx_bounds_deg := gpx_bounds_deg self;
     tile_bounds_plt := tile_bounds_plt self;
     tile_bounds_deg := tile_bounds_deg self |}.

Definition set_tile_bounds_plt (self : MapClass) (b : Z * Z * Z * Z)
  : MapClass :=
  {| tile_size := tile_size self;
     image_dict := image_dict self;
     raw_image_dict := raw_image_dict self;
     gpx_bounds_deg := gpx_bounds_deg self;
     tile_bounds_plt := Some b;
     tile_bounds_deg := tile_bounds_deg self |}.

Definition set_tile_bounds_deg (self : MapClass) (b : Q * Q * Q * Q)
  : MapClass :=
  {| tile_size := tile_size self;
     image_dict := image_dict self;
     raw_image_dict := raw_image_dict self;
     gpx_bounds_deg := gpx_bounds_deg self;
     tile_bounds_plt := tile_bounds_plt self;
     tile_bounds_deg := Some b |}.

(** [d.items()] and [d.keys()] *)
Definition items (d : gmap (Z * Z) Image) : list ((Z * Z) * Image) :=
  map_to_list d.

Definition keys (d : gmap (Z * Z) Image) : list (Z * Z) := (items d).*1.

(** The tuple (north, east, south, west) of extreme tile indexes that both
    [__set_tile_bounds] and [__reindex_tiles] compute. *)
Definition tile_ind_bounds (tile_indexes : list (Z * Z))
  : result (Z * Z * Z * Z) :=
  north ← py_min (snd <$> tile_indexes);
  east ← py_max (fst <$> tile_indexes);
  south ← py_max (snd <$> tile_indexes);
  west ← py_min (fst <$> tile_indexes);
  Ok (north, east, south, west).

(** A method that mutates the object: the outcome of the call and the
    state of the object when the call ends (also when it raises). *)
Definition set_tile_bounds (self : MapClass) : result unit * MapClass :=
  if bool_decide (size (raw_image_dict self) = 0%nat) then
    (Raise ValueError, self)
  else
    let tile_indexes := keys (raw_image_dict self) in
    match tile_ind_bounds tile_indexes with
    | Raise e => (Raise e, self)
    | Ok (north, east, south, west) =>
        let self1 :=
          set_tile_bounds_plt self
            ((south - north + 1) * tile_size self,
             (east - west + 1) * tile_size self, 0, 0) in
        match num2deg west (south + 1) 17 with
        | Raise e => (Raise e, self1)
        | Ok bottom_left =>
            match num2deg (east + 1) north 17 with
            | Raise e => (Raise e, self1)
            | Ok top_right =>
                (Ok (),
                 set_tile_bounds_deg self1
                   (top_right.1, top_right.2, bottom_left.1, bottom_left.2))
            end
        end
    end.

(** One turn of the loop of [__reindex_tiles] over the items of the raw
    dictionary: [new_dict[new_key] = value]. *)
Definition reindex_step (west south : Z) (new_dict : gmap (Z * Z) Image)
    (item : (Z * Z) * Image) : gmap (Z * Z) Image :=
  let '(old_key, value) := item in
  let new_key := (old_key.1 - west, south - old_key.2) in
  <[new_key := value]> new_dict.

Definition reindex_tiles (self : MapClass) : result unit * MapClass :=
  match set_tile_bounds self with
  | (Raise e, self1) => (Raise e, self1)
  | (Ok _, self1) =>
      let tile_indexes := keys (raw_image_dict self1) in
      match tile_ind_bounds tile_indexes with
      | Raise e => (Raise e, self1)
      | Ok (north, east, south, west) =>
          let new_dict :=
            foldl (reindex_step west south) ∅ (items (raw_image_dict self1)) in
          (Ok (), set_image_dict self1 new_dict)
      end
  end.

(** One turn of the loop of [__add_images] over the items of the new
    dictionary: [if key not in raw: raw[key] = value]. *)
Definition add_images_step (raw : gmap (Z * Z) Image)
    (item : (Z * Z) * Image) : gmap (Z * Z) Image :=
  let '(key, value) := item in
  match raw !! key with
  | None => <[key := value]> raw
  | Some _ => raw
  end.

Definition add_images (self : MapClass) (_image_dict : gmap (Z * Z) Image)
  : result unit * MapClass :=
  let raw :=
    foldl add_images_step (raw_image_dict self) (items _image_dict) in
  reindex_tiles (set_raw_image_dict self raw).

(** [max(t)] of the bounds tuple; [max(None)] raises [TypeError]. *)
Definition max_of_bounds (t : option (Z * Z * Z * Z)) : result Z :=
  match t with
  | None => Raise TypeError
  | Some (a, b, c, d) => py_max [a; b; c; d]
  end.

Definition scale_zoom (self : MapClass) (input_value : Q) : result Q :=
  let smallest_zoom_level := 5 in
  let exp_value := pow 6 (-2.3 + 3.7 * input_value)%Q in
  let exp_value_at_0 := pow 6 (-2.3 + 3.7 * 0)%Q in
  widest ← max_of_bounds (tile_bounds_plt self);
  let max_map_size :=
    (inject_Z (widest - smallest_zoom_level) + exp_value_at_0)%Q in
  Ok ((exp_value - exp_value_at_0) * max_map_size
      + inject_Z smallest_zoom_level)%Q.

(** [self.tile_bounds_plt[i]]: subscripting [None] raises [TypeError]. *)
Definition plt_item (t : option (Z * Z * Z * Z)) (i : nat) : result Z :=
  match t with
  | None => Raise TypeError
  | Some (a, b, c, d) =>
      match [a; b; c; d] !! i with
      | Some z => Ok z
      | None => Raise IndexError
      end
  end.

Definition degrees_to_graph (self : MapClass) (degrees : Q * Q)
  : result (Q * Q) :=
  match gpx_bounds_deg self with
  | None => Raise ValueError
  | Some _ =>
      match tile_bounds_deg self with
      | None => Raise ValueError
      | Some (deg_n, deg_e, deg_s, deg_w) =>
          qy ← py_truediv (degrees.1 - deg_s)%Q (deg_n - deg_s)%Q;
          height ← plt_item (tile_bounds_plt self) 0;
          let y_coord := (qy * inject_Z height)%Q in
          qx ← py_truediv (degrees.2 - deg_w)%Q (deg_e - deg_w)%Q;
          width ← plt_item (tile_bounds_plt self) 1;
          let x_coord := (qx * inject_Z width)%Q in
          Ok (x_coord, y_coord)
      end
  end.

(** [geo.union_bounds] of [components], which is not among the sources. *)
Variable union_bounds : Q * Q * Q * Q → Q * Q * Q * Q → Q * Q * Q * Q.

Definition set_gpx_bounds (self : MapClass) (_gpx_bounds : Q * Q * Q * Q)
  : MapClass :=
  let new_bounds :=
    match gpx_bounds_deg self with
    | None => _gpx_bounds
    | Some old => union_bounds _gpx_bounds old
    end in
  {| tile_size := tile_size self;
     image_dict := image_dict self;
     raw_image_dict := raw_image_dict self;
     gpx_bounds_deg := Some new_bounds;
     tile_bounds_plt := tile_bounds_plt self;
     tile_bounds_deg := tile_bounds_deg self |}.

(** [plot_images]: the calls [plt.imshow(np.asarray(image), extent=...)] it
    issues, each as the image and its extent (left, right, bottom, top). *)
Definition plot_images (self : MapClass) : list (Image * (Z * Z * Z * Z)) :=
  (λ '(tile_index, image),
     (image,
      (tile_index.1 * tile_size self, (tile_index.1 + 1) * tile_size self,
       tile_index.2 * tile_size self, (tile_index.2 + 1) * tile_size self)))
  <$> items (image_dict self).

(** [center_viewpoint]: the bounds (left, right, down, above) it hands to
    [plt.axis]. *)
Definition center_viewpoint (self : MapClass) (positions : list (Q * Q))
    (offset : Q) : result (Q * Q * Q * Q) :=
  offset ← scale_zoom self offset;
  positions ← mapM (degrees_to_graph self) positions;
  max_x ← py_max_floats (fst <$> positions);
  max_y ← py_max_floats (snd <$> positions);
  min_x ← py_min_floats (fst <$> positions);
  min_y ← py_min_floats (snd <$> positions);
  let graph_size :=
    if py_gt (Qabs (max_y - min_y)) (Qabs (max_x - min_x))
    then Qabs (max_y - min_y)
    else Qabs (max_x - min_x) in
  let center_x := ((max_x + min_x) / 2)%Q in
  let center_y := ((max_y + min_y) / 2)%Q in
  let left := py_max2 0 (center_x - graph_size / 2 - offset)%Q in
  width ← plt_item (tile_bounds_plt self) 1;
  let right :=
    py_min2 (center_x + graph_size / 2 + offset)%Q (inject_Z width) in
  let down := py_max2 0 (center_y - graph_size / 2 - offset)%Q in
  height ← plt_item (tile_bounds_plt self) 0;
  let above :=
    py_min2 (center_y + graph_size / 2 + offset)%Q (inject_Z height) in
  Ok (left, right, down, above).

End WithMath.

Arguments MapClass Image : clear implicits.
Arguments init Image : clear implicits.

End GraphHandler.

(** ** graph_handler.py: fetching the tiles *)

Module TileFetch.

(** [range(start, stop)] *)
Definition py_range (start stop : Z) : list Z :=
  (λ i : nat, start + Z.of_nat i) <$> seq 0 (Z.to_nat (stop - start)).

(** [os.path.join(a, b)] for a relative [b]: a separator is put between
    the two unless [a] is empty or ends with one. *)
Fixpoint ends_with_slash (a : string) : bool :=
  match a with
  | EmptyString => false
  | String c EmptyString => Ascii.eqb c "/"%char
  | String _ rest => ends_with_slash rest
  end.

Definition os_path_join (a b : string) : string :=
  match a with
  | EmptyString => b
  | _ => if ends_with_slash a then (a ++ b)%string else (a ++ "/" ++ b)%string
  end.

Section World.

(** What the functions see of the world: the images [PIL] handles, the
    bytes of a file or of a download, the directory of the module, how
    [PIL.Image.open] reads bytes (it may raise), what [img.save] writes to
    a [.jpg] path, and what [urllib.request.urlopen(url).read()] answers
    (it may raise).  The regular files are a map from their path to their
    content; the cache directory is taken to exist and to be writable. *)
Context {Image Bytes : Type}.
Variable working_directory : string.
Variable image_open : Bytes → result Image.
Variable save_jpg : Image → Bytes.
Variable urlopen_read : string → result Bytes.

(** The functions of [math] that [deg2num] calls; [math.log] raises
    [ValueError] on an argument that is not positive. *)
Variable math_pi : Q.
Variables math_radians math_tan math_cos math_ln : Q → Q.

Definition math_log (x : Q) : result Q :=
  if Qle_bool x 0 then Raise ValueError else Ok (math_ln x).

Definition deg2num (lat_deg lon_deg : Q) (zoom : Z) : result (Z * Z) :=
  let lat_rad := math_radians lat_deg in
  let exp_zoom := (2 ^ zoom)%Q in
  let xtile := py_int ((lon_deg + 180) / 360 * exp_zoom)%Q in
  secant ← py_truediv 1 (math_cos lat_rad);
  logarithm ← math_log (math_tan lat_rad + secant)%Q;
  ratio ← py_truediv logarithm math_pi;
  let ytile := py_int ((1 - ratio) / 2 * exp_zoom)%Q in
  Ok (xtile, ytile).

(** The name of the cache file of a tile, for one of the file types. *)
Definition cache_name (x_coord y_coord zoom : Z) (f_type : string) : string :=
  os_path_join working_directory
    ("image_cache/" ++ Sporting.int_str zoom ++ "-" ++ Sporting.int_str y_coord
     ++ "-" ++ Sporting.int_str x_coord ++ "." ++ f_type)%string.

Definition image_url (x_coord y_coord zoom : Z) : string :=
  ("https://server.arcgisonline.com/ArcGIS/rest/services/"
   ++ "World_Topo_Map/MapServer/tile/" ++ Sporting.int_str zoom ++ "/"
   ++ Sporting.int_str y_coord ++ "/" ++ Sporting.int_str x_coord)%string.

(** The [for f_type in endings] loop of [get_img]: every file type that
    has a cache file is opened, and the last one opened stays in [img]. *)
Fixpoint cache_loop (endings : list string) (files : gmap string Bytes)
    (x_coord y_coord zoom : Z) (img : option Image) : result (option Image) :=
  match endings with
  | [] => Ok img
  | f_type :: endings' =>
      let name := cache_name x_coord y_coord zoom f_type in
      match files !! name with
      | Some content =>
          opened ← image_open content;
          cache_loop endings' files x_coord y_coord zoom (Some opened)
      | None => cache_loop endings' files x_coord y_coord zoom img
      end
  end.

(** [get_img]: its outcome and the files it leaves. *)
Definition get_img (x_coord y_coord zoom : Z) (files : gmap string Bytes)
  : result Image * gmap string Bytes :=
  let endings := ["jpg"; "jpeg"; "png"]%string in
  match cache_loop endings files x_coord y_coord zoom None with
  | Raise e => (Raise e, files)
  | Ok (Some img) => (Ok img, files)
  | Ok None =>
      match urlopen_read (image_url x_coord y_coord zoom) with
      | Raise e => (Raise e, files)
      | Ok content =>
          match image_open content with
          | Raise e => (Raise e, files)
          | Ok img =>
              let path := cache_name x_coord y_coord zoom "jpg" in
              (Ok img, <[path := save_jpg img]> files)
          end
      end
  end.

(** The inner and the outer loop of [get_all_images_in_bounds]. *)
Fixpoint rows_loop (ys : list Z) (x_coord : Z)
    (tiles : gmap (Z * Z) Image) (files : gmap string Bytes)
  : result (gmap (Z * Z) Image) * gmap string Bytes :=
  match ys with
  | [] => (Ok tiles, files)
  | y_coord :: ys' =>
      match tiles !! (x_coord, y_coord) with
      | Some _ => rows_loop ys' x_coord tiles files
      | None =>
          match get_img x_coord y_coord 17 files with
          | (Raise e, files') => (Raise e, files')
          | (Ok img, files') =>
              rows_loop ys' x_coord (<[(x_coord, y_coord) := img]> tiles) files'
          end
      end
  end.

Fixpoint columns_loop (xs ys : list Z)
    (tiles : gmap (Z * Z) Image) (files : gmap string Bytes)
  : result (gmap (Z * Z) Image) * gmap string Bytes :=
  match xs with
  | [] => (Ok tiles, files)
  | x_coord :: xs' =>
      match rows_loop ys x_coord tiles files with
      | (Raise e, files') => (Raise e, files')
      | (Ok tiles', files') => columns_loop xs' ys tiles' files'
      end
  end.

Definition get_all_images_in_bounds (bounds : Q * Q * Q * Q)
    (files : gmap string Bytes)
  : result (gmap (Z * Z) Image) * gmap string Bytes :=
  let '(bounds0, bounds1, bounds2, bounds3) := bounds in
  match deg2num bounds3 bounds2 17 with
  | Raise e => (Raise e, files)
  | Ok bottom_left_tile_num =>
      match deg2num bounds1 bounds0 17 with
      | Raise e => (Raise e, files)
      | Ok top_right_tile_num =>
          columns_loop
            (py_range (bottom_left_tile_num.1 - 1) (top_right_tile_num.1 + 1))
            (py_range (top_right_tile_num.2 - 1) (bottom_left_tile_num.2 + 1))
            ∅ files
      end
  end.

End World.

End TileFetch.

(** ** GUIs/gui_stats_menu.py *)

Module StatsMenu.

(** [a > b] on values: defined between numbers; comparing a number with
    [None] or a string raises [TypeError]. *)
Definition py_gt_val (a b : pyval) : outcome bool :=
  match num_value a, num_value b with
  | Some x, Some y => Returned (py_gt x y)
  | _, _ => Raised (Builtin TypeError)
  end.

(** The value of one athlete in the dictionary handed to [display_text]:
    the distance, the speed already formatted, the cadence. *)
Record AthleteStats : Type := mkStats {
  dist : pyval;
  spd : string;
  cad : pyval
}.

(** An entry of [modified_data]. *)
Record Row : Type := mkRow {
  row_name : string;
  row_dist : string;
  row_spd : string;
  row_cad : pyval
}.

(** ['\n'] *)
Definition newline : string := String "010"%char EmptyString.

(** [' ' * n] *)
Definition spaces (n : Z) : string :=
  String.concat "" (replicate (Z.to_nat n) " "%string).

Section WithFormat.

Variable float_str : Q → string.

(** The text an f-string gives a value. *)
Definition py_str (v : pyval) : string :=
  match v with
  | VNone => "None"
  | VBool true => "True"
  | VBool false => "False"
  | VInt z => Sporting.int_str z
  | VFloat q => float_str q
  | VStr s => s
  end.

(** The [for key, value in data_in.items()] loop that looks for the
    greatest distance. *)
Fixpoint find_max (items : list (string * AthleteStats))
    (max_dist : pyval) (max_key : option string)
  : outcome (pyval * option string) :=
  match items with
  | [] => Returned (max_dist, max_key)
  | (key, value) :: items' =>
      let test_val := dist value in
      greater ← py_gt_val test_val max_dist;
      if (greater : bool) then find_max items' test_val (Some key)
      else find_max items' max_dist max_key
  end.

(** One turn of the [while len(data_in)] loop. *)
Definition rank_step (data_in : list (string * AthleteStats))
    (modified_data : list Row)
  : outcome (list (string * AthleteStats) * list Row) :=
  '(max_dist, max_key) ← find_max data_in (VInt (-1)) None;
  far ← py_gt_val max_dist (VInt 100000);
  let new_dist :=
    if (far : bool) then "FIN"%string else (py_str max_dist ++ "m")%string in
  for_spd ← dict_getitem data_in max_key;
  for_cad ← dict_getitem data_in max_key;
  match max_key with
  | None => Raised KeyError
  | Some name =>
      let modified_data :=
        modified_data ++ [mkRow name new_dist (spd for_spd) (cad for_cad)] in
      data_in ← dict_delitem data_in max_key;
      Returned (data_in, modified_data)
  end.

(** The [while] loop, with a bound on its turns: [None] when the bound is
    reached before the dictionary is empty.  The second component is the
    dictionary of the caller as the loop leaves it. *)
Fixpoint rank_loop (turns : nat) (data_in : list (string * AthleteStats))
    (modified_data : list Row)
  : option (outcome (list Row) * list (string * AthleteStats)) :=
  match data_in with
  | [] => Some (Returned modified_data, [])
  | _ :: _ =>
      match turns with
      | O => None
      | S turns' =>
          match rank_step data_in modified_data with
          | Raised e => Some (Raised e, data_in)
          | Returned (data_in', modified_data') =>
              rank_loop turns' data_in' modified_data'
          end
      end
  end.

(** The loop that writes one entry of [modified_data] after the other. *)
Fixpoint render_loop (rows : list (Z * Row)) (max_athlete_dist_len : Z)
    (disp_text : string) : string :=
  match rows with
  | [] => disp_text
  | (position, athlete_data) :: rows' =>
      let athlete_name := row_name athlete_data in
      let athlete_dist := row_dist athlete_data in
      let athlete_spd := row_spd athlete_data in
      let athlete_cad := row_cad athlete_data in
      let disp_text :=
        (disp_text ++
         (Sporting.int_str (position + 1) ++ ". " ++ athlete_name ++
          newline ++ "   " ++ athlete_dist ++
          spaces (max_athlete_dist_len
                  - Z.of_nat (String.length athlete_dist)) ++
          athlete_spd ++ "   " ++ py_str athlete_cad ++ "s/m"))%string in
      let disp_text := (disp_text ++ newline)%string in
      render_loop rows' max_athlete_dist_len disp_text
  end.

(** What [display_text] does once [modified_data] is complete: the
    text it puts on the label. *)
Definition render_text (modified_data : list Row) : outcome string :=
  max_len ← of_result
      (GraphHandler.py_max
         ((λ i, Z.of_nat (String.length (row_dist i))) <$> modified_data));
  let max_athlete_dist_len := max_len + 2 in
  Returned (render_loop (enumerate modified_data) max_athlete_dist_len "").

(** [display_text]: the text it puts on the label and the dictionary of
    the caller as it leaves it.  The loop gets as many turns as the
    dictionary has entries. *)
Definition display_text (data_in : list (string * AthleteStats))
  : option (outcome string * list (string * AthleteStats)) :=
  match rank_loop (length data_in) data_in [] with
  | None => None
  | Some (Raised e, data_in) => Some (Raised e, data_in)
  | Some (Returned modified_data, data_in) =>
      Some (render_text modified_data, data_in)
  end.

End WithFormat.

(** The unit names [__create_units_menu] puts in the dropdown. *)
Definition speed_options : list string :=
  ["s/500m"; "m/s"; "kmh"; "mph"]%string.

End StatsMenu.

(** ** graph_handler.py: the athletes drawn over the tiles *)

Module Overlay.

Import GraphHandler.

(** An artist is known by the rank at which [matplotlib] created it, a
    dict object by its address. *)
Abbreviation handle := nat.
Abbreviation loc := nat.

Section WithCanvas.

Context {Image Bytes Colour : Type}.

(** What [plt.plot] was asked to draw: a line between two plot points, or
    the marker of an athlete. *)
Inductive Artist : Type :=
| Line2D (xdata ydata : Q * Q) (color : Colour) (linewidth : Z)
| Marker (xdata ydata : Q) (markersize : Q) (color : Colour).

(** The dict of one athlete, as far as [MapClass] reads and writes it: a
    key that is absent is [None]; under ['draw_track'] and ['draw_point']
    the value may be Python's [None]. *)
Record Athlete : Type := mkAthlete {
  key_track : option Track;
  key_colour : option Colour;
  key_display_name : option string;
  key_draw_track : option (option (list handle));
  key_draw_point : option (option handle)
}.

Definition set_key_colour (d : Athlete) (c : Colour) : Athlete :=
  {| key_track := key_track d;
     key_colour := Some c;
     key_display_name := key_display_name d;
     key_draw_track := key_draw_track d;
     key_draw_point := key_draw_point d |}.

Definition set_key_display_name (d : Athlete) (name : string) : Athlete :=
  {| key_track := key_track d;
     key_colour := key_colour d;
     key_display_name := Some name;
     key_draw_track := key_draw_track d;
     key_draw_point := key_draw_point d |}.

Definition set_key_draw_track (d : Athlete) (v : option (list handle))
  : Athlete :=
  {| key_track := key_track d;
     key_colour := key_colour d;
     key_display_name := key_display_name d;
     key_draw_track := Some v;
     key_draw_point := key_draw_point d |}.

Definition set_key_draw_point (d : Athlete) (v : option handle) : Athlete :=
  {| key_track := key_track d;
     key_colour := key_colour d;
     key_display_name := key_display_name d;
     key_draw_track := key_draw_track d;
     key_draw_point := Some v |}.

(** What the methods act on: the tile attributes of the [MapClass] object,
    its [__athletes] dictionary (in insertion order; it holds references
    to the dicts of the caller, which live in [heap]), the artists
    [matplotlib] created so far on the current axes in the order of their
    creation ([None] once removed), the images shown, the legend, and the
    files of the tile cache. *)
Record World : Type := mkWorld {
  map_class : MapClass Image;
  athletes : list (string * loc);
  heap : loc → Athlete;
  artists : list (option Artist);
  images : list (Image * (Z * Z * Z * Z));
  legend : option (list (Colour * string));
  files : gmap string Bytes
}.

Definition set_map_class (w : World) (m : MapClass Image) : World :=
  mkWorld m (athletes w) (heap w) (artists w) (images w) (legend w) (files w).
Definition set_athletes (w : World) (a : list (string * loc)) : World :=
  mkWorld (map_class w) a (heap w) (artists w) (images w) (legend w) (files w).
Definition set_heap (w : World) (h : loc → Athlete) : World :=
  mkWorld (map_class w) (athletes w) h (artists w) (images w) (legend w)
    (files w).
Definition set_artists (w : World) (a : list (option Artist)) : World :=
  mkWorld (map_class w) (athletes w) (heap w) a (images w) (legend w)
    (files w).
Definition set_images (w : World) (i : list (Image * (Z * Z * Z * Z)))
  : World :=
  mkWorld (map_class w) (athletes w) (heap w) (artists w) i (legend w)
    (files w).
Definition set_legend (w : World) (l : list (Colour * string)) : World :=
  mkWorld (map_class w) (athletes w) (heap w) (artists w) (images w) (Some l)
    (files w).
Definition set_files (w : World) (f : gmap string Bytes) : World :=
  mkWorld (map_class w) (athletes w) (heap w) (artists w) (images w)
    (legend w) f.

(** A method: from the world to its outcome and the world it leaves, also
    when it raises. *)
Definition M (A : Type) : Type := World → outcome A * World.

Definition M_ret {A} (a : A) : M A := λ w, (Returned a, w).
Definition M_bind {A B} (f : A → M B) (m : M A) : M B :=
  λ w, match m w with
       | (Returned a, w') => f a w'
       | (Raised e, w') => (Raised e, w')
       end.
Definition raise {A} (e : raised) : M A := λ w, (Raised e, w).

#[global] Instance M_mret : MRet M := @M_ret.
#[global] Instance M_mbind : MBind M := @M_bind.

(** [d[key]] on a dict whose key may be absent. *)
Definition item {A} (field : option A) : M A :=
  match field with
  | Some a => mret a
  | None => raise KeyError
  end.

(** [self.__athletes[athlete_key]]: the dict stored under the key. *)
Definition athlete_dict (athlete_key : string) : M loc :=
  λ w, (dict_getitem (athletes w) (Some athlete_key), w).

Definition read (l : loc) : M Athlete := λ w, (Returned (heap w l), w).
Definition write (l : loc) (d : Athlete) : M unit :=
  λ w, (Returned (), set_heap w (<[l := d]> (heap w))).

(** [plt.plot(...)[0]]: a new artist on the axes. *)
Definition plt_plot (a : Artist) : M handle :=
  λ w, (Returned (length (artists w)), set_artists w (artists w ++ [Some a])).

(** The exception [matplotlib] raises when an artist that is not on the
    axes is removed. *)
Variable stale_remove : exn.

(** [artist.remove()] *)
Definition artist_remove (h : handle) : M unit :=
  λ w, match artists w !! h with
       | Some (Some _) => (Returned (), set_artists w (<[h := None]> (artists w)))
       | _ => (Raised (Builtin stale_remove), w)
       end.

Definition self_degrees_to_graph (degrees : Q * Q) : M (Q * Q) :=
  λ w, (of_result (degrees_to_graph (map_class w) degrees), w).

Definition draw_line (start end_ : Q * Q) (color : Colour) (width : Z)
  : M handle :=
  start_graph_pos ← self_degrees_to_graph start;
  end_graph_pos ← self_degrees_to_graph end_;
  plt_plot (Line2D (start_graph_pos.1, end_graph_pos.1)
                   (start_graph_pos.2, end_graph_pos.2) color width).

(** The [for line in ...['draw_track']: line.remove()] loop. *)
Fixpoint remove_lines (lines : list handle) : M unit :=
  match lines with
  | [] => mret ()
  | line :: lines' => _ ← artist_remove line; remove_lines lines'
  end.

(** [__remove_drawn_track] *)
Definition remove_drawn_track (athlete_key : string) : M unit :=
  l ← athlete_dict athlete_key;
  d ← read l;
  match key_draw_track d with
  | Some (Some lines) =>
      _ ← remove_lines lines;
      d ← read l;
      write l (set_key_draw_track d None)
  | _ => mret ()
  end.

(** The [for i in range(len(points) - 1)] loop of [draw_track]: a line
    from every point but the last to the next one. *)
Fixpoint lines_loop (points : list TrackPoint) (color : Colour)
    (line_data : list handle) : M (list handle) :=
  match points with
  | [] => mret line_data
  | point :: points' =>
      match points' with
      | [] => mret line_data
      | next :: _ =>
          single_line ← draw_line (position_degrees point)
                                  (position_degrees next) color 2;
          lines_loop points' color (line_data ++ [single_line])
      end
  end.

Definition draw_track (athlete_key : string) (color : Colour) : M unit :=
  l ← athlete_dict athlete_key;
  d ← read l;
  _ ← match key_draw_track d with
      | Some (Some _) => remove_drawn_track athlete_key
      | _ => mret ()
      end;
  d ← read l;
  track ← item (key_track d);
  line_data ← lines_loop (get_track_points track) color [];
  d ← read l;
  write l (set_key_draw_track d (Some line_data)).

Definition remove_point (athlete_key : string) : M unit :=
  l ← athlete_dict athlete_key;
  d ← read l;
  match key_draw_point d with
  | Some (Some point) =>
      _ ← artist_remove point;
      d ← read l;
      write l (set_key_draw_point d None)
  | _ => mret ()
  end.

Definition draw_point (athlete_key : string) (pos : Q * Q) (color : Colour)
    (size : Q) : M unit :=
  l ← athlete_dict athlete_key;
  d ← read l;
  _ ← match key_draw_point d with
      | Some (Some _) => remove_point athlete_key
      | _ => mret ()
      end;
  graph_pos ← self_degrees_to_graph pos;
  point ← plt_plot (Marker graph_pos.1 graph_pos.2 size color);
  d ← read l;
  write l (set_key_draw_point d (Some point)).

(** The loop of [__draw_legend] over [self.__athletes.values()]. *)
Fixpoint patches_loop (values : list loc) (all_patches : list (Colour * string))
  : M (list (Colour * string)) :=
  match values with
  | [] => mret all_patches
  | single_athlete_data :: values' =>
      d ← read single_athlete_data;
      athlete_col ← item (key_colour d);
      athlete_name ← item (key_display_name d);
      patches_loop values' (all_patches ++ [(athlete_col, athlete_name)])
  end.

(** [__draw_legend] *)
Definition draw_legend : M unit :=
  λ w, M_bind (λ all_patches w', (Returned (), set_legend w' all_patches))
              (patches_loop (athletes w).*2 []) w.

(** [modify_athlete]; [new_value] is a dict of the caller. *)
Definition modify_athlete (athlete_key : string) (new_value : loc) : M unit :=
  new ← read new_value;
  colour ← item (key_colour new);
  l ← athlete_dict athlete_key;
  d ← read l;
  _ ← write l (set_key_colour d colour);
  new ← read new_value;
  display_name ← item (key_display_name new);
  l ← athlete_dict athlete_key;
  d ← read l;
  _ ← write l (set_key_display_name d display_name);
  new ← read new_value;
  colour ← item (key_colour new);
  _ ← draw_track athlete_key colour;
  draw_legend.

(** [del self.__athletes[athlete_key]] *)
Definition athletes_delitem (athlete_key : string) : M unit :=
  λ w, match dict_delitem (athletes w) (Some athlete_key) with
       | Returned a => (Returned (), set_athletes w a)
       | Raised e => (Raised e, w)
       end.

Definition remove_athlete (athlete_key : string) : M unit :=
  l ← athlete_dict athlete_key;
  athlete_data ← read l;
  _ ← match key_draw_point athlete_data with
      | Some _ => remove_point athlete_key
      | None => mret ()
      end;
  athlete_data ← read l;
  _ ← match key_draw_track athlete_data with
      | Some _ => remove_drawn_track athlete_key
      | None => mret ()
      end;
  _ ← athletes_delitem athlete_key;
  draw_legend.

(** [geo.get_track_bounds] and [geo.union_bounds] of [components], which
    is not among the sources, and what [get_all_images_in_bounds] and
    [num2deg] see of the world. *)
Variable get_track_bounds : Track → result (Q * Q * Q * Q).
Variable union_bounds : Q * Q * Q * Q → Q * Q * Q * Q → Q * Q * Q * Q.
Variable working_directory : string.
Variable image_open : Bytes → result Image.
Variable save_jpg : Image → Bytes.
Variable urlopen_read : string → result Bytes.
Variable math_pi : Q.
Variables math_radians math_tan math_cos math_ln : Q → Q.
Variables math_atan math_sinh math_degrees : Q → Q.

(** [self.__athletes[athlete_key] = athlete_value] *)
Definition athletes_setitem (athlete_key : string) (athlete_value : loc)
  : M unit :=
  λ w, (Returned (),
        set_athletes w (dict_setitem (athletes w) athlete_key athlete_value)).

Definition self_set_gpx_bounds (_gpx_bounds : Q * Q * Q * Q) : M unit :=
  λ w, (Returned (),
        set_map_class w (set_gpx_bounds union_bounds (map_class w) _gpx_bounds)).

(** [get_all_images_in_bounds(self.gpx_bounds_deg)]; subscripting [None]
    raises [TypeError]. *)
Definition self_get_all_images : M (gmap (Z * Z) Image) :=
  λ w, match gpx_bounds_deg (map_class w) with
       | None => (Raised (Builtin TypeError), w)
       | Some bounds =>
           let fetched :=
             TileFetch.get_all_images_in_bounds working_directory image_open
               save_jpg urlopen_read math_pi math_radians math_tan math_cos
               math_ln bounds (files w) in
           (of_result fetched.1, set_files w fetched.2)
       end.

Definition self_add_images (_image_dict : gmap (Z * Z) Image) : M unit :=
  λ w, let added :=
         add_images math_pi math_atan math_sinh math_degrees (map_class w)
           _image_dict in
       (of_result added.1, set_map_class w added.2).

Definition self_plot_images : M unit :=
  λ w, (Returned (), set_images w (images w ++ plot_images (map_class w))).

(** [add_athlete]; [athlete_value] is a dict of the caller. *)
Definition add_athlete (athlete_key : string) (athlete_value : loc) : M unit :=
  _ ← athletes_setitem athlete_key athlete_value;
  value ← read athlete_value;
  track ← item (key_track value);
  bounds ← (λ w, (of_result (get_track_bounds track), w)) : M _;
  _ ← self_set_gpx_bounds bounds;
  tiles ← self_get_all_images;
  _ ← self_add_images tiles;
  _ ← self_plot_images;
  value ← read athlete_value;
  colour ← item (key_colour value);
  _ ← draw_track athlete_key colour;
  draw_legend.

End WithCanvas.

Arguments Artist Colour : clear implicits.
Arguments Athlete Colour : clear implicits.
Arguments World Image Bytes Colour : clear implicits.

End Overlay.

(** ** Specification-side notions and sample data *)

Module Samples.

Definition point (lat lon time cad : Q) : TrackPoint :=
  mkTrackPoint (lat, lon) time cad.

(** The two-sample track of the spec's scenario. *)
Definition two_points : Track :=
  mkTrack [point 0 0 0 30; point 0 0.001 10 40].

(** Two samples recorded at the same instant. *)
Definition tied_points : Track :=
  mkTrack [point 0 0 0 30; point 0 0.001 0 40].

Definition three_points : Track :=
  mkTrack [point 0 0 0 30; point 0 0.001 10 40; point 0 0.003 20 36].

(** A stand-in for the distance function: degrees of separation along the
    axes, at 111195 metres per degree. *)
Definition axis_distance (lat1 lon1 lat2 lon2 : Q) : Q :=
  ((Qabs (lat2 - lat1) + Qabs (lon2 - lon1)) * 111195)%Q.

(** Stand-ins for what the embedding leaves uninterpreted, to run the
    definitions on examples: a float printed as a fraction, and rational
    substitutes for the functions of [math]. *)
Definition fraction_str (q : Q) : string :=
  (Sporting.int_str (Qnum q) ++ "/" ++ Sporting.int_str (Zpos (Qden q)))%string.

Definition approx_pi : Q := 3.14159.
Definition approx_atan (x : Q) : Q := (x / (1 + Qabs x))%Q.
Definition approx_sinh (x : Q) : Q := (x + x * x * x / 6)%Q.
Definition approx_degrees (x : Q) : Q := (x * 180 / approx_pi)%Q.
Definition approx_pow (b e : Q) : Q := (1 + (b - 1) * e)%Q.

(** Tiles named by strings, and a map object holding the two tiles of the
    spec's reindexing scenario. *)
Definition two_tiles : gmap (Z * Z) string :=
  {[ (2, 3) := "north-west"%string; (4, 5) := "south-east"%string ]}.

Definition two_tile_map : GraphHandler.MapClass string :=
  (GraphHandler.add_images approx_pi approx_atan approx_sinh approx_degrees
     (GraphHandler.init string) two_tiles).2.

(** A stand-in for [geo.union_bounds]: the greater north and east, the
    smaller south and west. *)
Definition wider_bounds (a b : Q * Q * Q * Q) : Q * Q * Q * Q :=
  let '(an, ae, as_, aw) := a in
  let '(bn, be, bs, bw) := b in
  (GraphHandler.py_max2 an bn, GraphHandler.py_max2 ae be,
   GraphHandler.py_min2 as_ bs, GraphHandler.py_min2 aw bw).

(** The map of the two tiles once the bounds of a track are known. *)
Definition two_tile_map_with_track : GraphHandler.MapClass string :=
  GraphHandler.set_gpx_bounds wider_bounds two_tile_map
    (51.5, -0.1, 51.4, -0.2)%Q.

(** A small world for the tile cache: images and file contents are
    strings, every content opens as itself, and the network answers every
    address with the address. *)
Definition plain_open (content : string) : result string := Ok content.
Definition plain_save (img : string) : string := img.
Definition echo_network (url : string) : result string := Ok url.

Definition approx_radians (x : Q) : Q := (x * approx_pi / 180)%Q.
Definition approx_tan (x : Q) : Q := x.
Definition approx_cos (x : Q) : Q := (1 - x * x / 2)%Q.
Definition approx_ln (x : Q) : Q := (x - 1)%Q.

(** A cache that holds tile (2, 3) of zoom 17 twice, as jpg and as png. *)
Definition twice_cached : gmap string string :=
  {[ "/app/image_cache/17-3-2.jpg"%string := "old jpg"%string;
     "/app/image_cache/17-3-2.png"%string := "new png"%string ]}.

(** The table of athletes the stats menu is built with. *)
Definition test_data : list (string * StatsMenu.AthleteStats) :=
  [ ("Canford", StatsMenu.mkStats (VInt 1000000) "1:53.2 s/500m" (VInt 38));
    ("Winchester", StatsMenu.mkStats (VInt 900) "1:55.6 s/500m" (VInt 40));
    ("Emmanuel", StatsMenu.mkStats (VInt 1001) "1:53.2 s/500m" (VInt 38));
    ("Kew House", StatsMenu.mkStats (VInt 901) "1:55.6 s/500m" (VInt 40));
    ("Bryanston", StatsMenu.mkStats (VInt 800) "1:59.8 s/500m" (VInt 28))
  ]%string.

(** A table in which one boat has not reached the start line: its
    distance is negative. *)
Definition early_data : list (string * StatsMenu.AthleteStats) :=
  [ ("Canford", StatsMenu.mkStats (VFloat 12.5) "1:53.2 s/500m" (VInt 38));
    ("Winchester", StatsMenu.mkStats (VFloat (-55.6)) "1:55.6 s/500m" (VInt 40))
  ]%string.

(** A regatta drawn over the two tiles: images, file contents and colours
    are strings.  The first crew has its track and its marker on the axes,
    the second has nothing drawn yet; the third dict holds the new colour
    and name of the first crew.  The axes keep the trace of an artist that
    was removed. *)
Definition crews (l : nat) : Overlay.Athlete string :=
  match l with
  | 0%nat =>
      Overlay.mkAthlete (Some three_points) (Some "red"%string)
        (Some "Canford"%string) (Some (Some [0; 1]%nat)) (Some (Some 2%nat))
  | 1%nat =>
      Overlay.mkAthlete (Some two_points) (Some "blue"%string)
        (Some "Kew House"%string) None None
  | 2%nat =>
      Overlay.mkAthlete None (Some "green"%string)
        (Some "Canford 1st VIII"%string) None None
  | _ => Overlay.mkAthlete None None None None None
  end.

Definition regatta : Overlay.World string string string :=
  Overlay.mkWorld two_tile_map_with_track
    [("canford.gpx"%string, 0%nat); ("kew.gpx"%string, 1%nat)]
    crews
    [Some (Overlay.Line2D (0, 1)%Q (0, 1)%Q "red"%string 2);
     Some (Overlay.Line2D (1, 3)%Q (1, 1)%Q "red"%string 2);
     Some (Overlay.Marker 1 1 1 "red"%string);
     None]
    [] None ∅.

(** A stand-in for [geo.get_track_bounds]: the same small bounds for every
    track. *)
Definition narrow_bounds (track : Track) : result (Q * Q * Q * Q) :=
  Ok (0.0001, 51.5, 0.0001, 51.5)%Q.

(** The world before any athlete is added. *)
Definition ashore (l : nat) : Overlay.Athlete string :=
  Overlay.mkAthlete (Overlay.key_track (crews l)) (Overlay.key_colour (crews l))
    (Overlay.key_display_name (crews l)) None None.

Definition before_regatta : Overlay.World string string string :=
  Overlay.mkWorld (GraphHandler.init string) [] ashore [] [] None ∅.

End Samples.

(** The distance of an athlete as a number (0 when it is not one). *)
Definition dist_of (stats : StatsMenu.AthleteStats) : Q :=
  default 0%Q (num_value (StatsMenu.dist stats)).

(** The entry of [modified_data] that stands for an athlete: a distance
    above 100000 is shown as FIN. *)
Definition make_row (float_str : Q → string)
    (item : string * StatsMenu.AthleteStats) : StatsMenu.Row :=
  StatsMenu.mkRow item.1
    (if py_gt (dist_of item.2) 100000 then "FIN"%string
     else (StatsMenu.py_str float_str (StatsMenu.dist item.2) ++ "m")%string)
    (StatsMenu.spd item.2) (StatsMenu.cad item.2).

(** [a] is ranked before [b]: it is further, or as far and earlier in the
    dictionary [data]. *)
Definition ranks_before (data : list (string * StatsMenu.AthleteStats))
    (a b : string * StatsMenu.AthleteStats) : Prop :=
  (dist_of b.2 < dist_of a.2)%Q ∨
  ((dist_of b.2 == dist_of a.2)%Q ∧ [a; b] `sublist_of` data).

(** The local key of the raw tile key [(x, y)]: [(x - west, south - y)]. *)
Definition shift_key (west south : Z) (old_key : Z * Z) : Z * Z :=
  (old_key.1 - west, south - old_key.2).

(** [west] is the least x among the keys of [d], [south] the greatest y. *)
Definition is_west {Image} (d : gmap (Z * Z) Image) (west : Z) : Prop :=
  (∃ y, is_Some (d !! (west, y))) ∧
  ∀ x y, is_Some (d !! (x, y)) → west ≤ x.

Definition is_south {Image} (d : gmap (Z * Z) Image) (south : Z) : Prop :=
  (∃ x, is_Some (d !! (x, south))) ∧
  ∀ x y, is_Some (d !! (x, y)) → y ≤ south.

(** [first_above pts t i]: sample [i] is the first one whose time exceeds
    [t]; with sorted samples, [t] lies between sample [i - 1] and sample
    [i]. *)
Definition first_above (pts : list TrackPoint) (t : Q) (i : nat) : Prop :=
  (∃ p, pts !! i = Some p ∧ (t < relative_time p)%Q) ∧
  ∀ j q, (j < i)%nat → pts !! j = Some q → (relative_time q <= t)%Q.

(** Every sample is recorded strictly later than the one before it. *)
Fixpoint strictly_increasing (pts : list TrackPoint) : Prop :=
  match pts with
  | p :: (q :: _) as rest =>
      (relative_time p < relative_time q)%Q ∧ strictly_increasing rest
  | _ => True
  end.


(** Linear interpolation, as a rational expression. *)
Definition lerp (t t0 t1 v0 v1 : Q) : Q :=
  ((t - t0) * (v1 - v0) / (t1 - t0) + v0)%Q.

(** The length of a track: the sum of the distances between consecutive
    samples. *)
Fixpoint legs_length (geo_distance : Q → Q → Q → Q → Q)
    (pts : list TrackPoint) : Q :=
  match pts with
  | p :: (q :: _) as rest =>
      (Sporting.leg_distance geo_distance q p + legs_length geo_distance rest)%Q
  | _ => 0
  end.

(** The distance travelled at time [t] on the path that starts at [prev]
    and goes through [rest]: whole legs up to the first sample later than
    [t], and the share of the leg that reaches it. *)
Fixpoint travelled (geo_distance : Q → Q → Q → Q → Q)
    (prev : TrackPoint) (rest : list TrackPoint) (t : Q) : Q :=
  match rest with
  | [] => 0
  | p :: rest' =>
      if py_gt (relative_time p) t then
        lerp t (relative_time prev) (relative_time p) 0
             (Sporting.leg_distance geo_distance p prev)
      else
        (Sporting.leg_distance geo_distance p prev
         + travelled geo_distance p rest' t)%Q
  end.

(** The pace [500 / speed] is a finite float: the speed is not zero, not
    nan, and not so near zero that the quotient leaves the range of
    doubles; an infinite speed has pace zero. *)
Definition pace_defined (speed : pyfloat) : Prop :=
  match speed with
  | Finite q => ¬ (q == 0)%Q ∧ (Qabs (500 / q) < overflow_bound)%Q
  | Infinite _ => True
  | NaN => False
  end.

(** The artist a handle stands for, while it is on the axes. *)
Definition live {Image Bytes Colour} (w : Overlay.World Image Bytes Colour)
    (h : Overlay.handle) : option (Overlay.Artist Colour) :=
  mjoin (Overlay.artists w !! h).

(** The artists an athlete's dict holds: the lines of its track, then its
    marker. *)
Definition track_lines {Colour} (d : Overlay.Athlete Colour)
  : list Overlay.handle :=
  match Overlay.key_draw_track d with
  | Some (Some lines) => lines
  | _ => []
  end.

Definition marker {Colour} (d : Overlay.Athlete Colour)
  : list Overlay.handle :=
  match Overlay.key_draw_point d with
  | Some (Some point) => [point]
  | _ => []
  end.

Definition handles {Colour} (d : Overlay.Athlete Colour)
  : list Overlay.handle :=
  track_lines d ++ marker d.

(** Every artist held by a dict is on the axes, and is held once. *)
Definition owned {Image Bytes Colour} (w : Overlay.World Image Bytes Colour)
  : Prop :=
  (∀ l, NoDup (handles (Overlay.heap w l))) ∧
  (∀ l h, h ∈ handles (Overlay.heap w l) → is_Some (live w h)) ∧
  (∀ l1 l2 h, h ∈ handles (Overlay.heap w l1) →
              h ∈ handles (Overlay.heap w l2) → l1 = l2).

(** The artists left when the given ones are removed, one after the other. *)
Definition erased {Colour} (gone : list Overlay.handle)
    (artists : list (option (Overlay.Artist Colour)))
  : list (option (Overlay.Artist Colour)) :=
  foldl (λ artists h, <[h := None]> artists) artists gone.

(** The plot point of a position; the origin where [degrees_to_graph]
    raises. *)
Definition graph_point {Image} (self : GraphHandler.MapClass Image)
    (degrees : Q * Q) : Q * Q :=
  match GraphHandler.degrees_to_graph self degrees with
  | Ok point => point
  | Raise _ => (0%Q, 0%Q)
  end.

(** The lines that join every point of a track to the next one. *)
Fixpoint segments {Image Colour} (self : GraphHandler.MapClass Image)
    (points : list TrackPoint) (color : Colour)
  : list (Overlay.Artist Colour) :=
  match points with
  | [] => []
  | point :: points' =>
      match points' with
      | [] => []
      | next :: _ =>
          let start := graph_point self (position_degrees point) in
          let end_ := graph_point self (position_degrees next) in
          Overlay.Line2D (start.1, end_.1) (start.2, end_.2) color 2
          :: segments self points' color
      end
  end.

(** The legend entry of an athlete, when its dict has what it takes. *)
Definition patch {Colour} (d : Overlay.Athlete Colour)
  : option (Colour * string) :=
  colour ← Overlay.key_colour d;
  name ← Overlay.key_display_name d;
  Some (colour, name).

(** The legend entries of the registered athletes, in their order. *)
Definition patches {Image Bytes Colour} (w : Overlay.World Image Bytes Colour)
  : option (list (Colour * string)) :=
  mapM (λ l, patch (Overlay.heap w l)) (Overlay.athletes w).*2.

(** A method keeps the artists owned, whatever its outcome. *)
Definition keeps_owned {Image Bytes Colour A}
    (m : Overlay.World Image Bytes Colour
         → outcome A * Overlay.World Image Bytes Colour) : Prop :=
  ∀ w, owned w → owned (m w).2.

(** ** Facts about the Python primitives *)

Lemma py_gt_true a b : py_gt a b = true ↔ (b < a)%Q.
Proof.
  unfold py_gt. rewrite negb_true_iff, <- not_true_iff_false, Qle_bool_iff.
  split; [apply Qnot_le_lt | apply Qlt_not_le].
Qed.

Lemma py_gt_false a b : py_gt a b = false ↔ (a <= b)%Q.
Proof.
  unfold py_gt. rewrite negb_false_iff. apply Qle_bool_iff.
Qed.

Lemma py_ge_true a b : py_ge a b = true ↔ (b <= a)%Q.
Proof. unfold py_ge. apply Qle_bool_iff. Qed.

Lemma py_ge_false a b : py_ge a b = false ↔ (a < b)%Q.
Proof.
  unfold py_ge. rewrite <- not_true_iff_false, Qle_bool_iff.
  split; [apply Qnot_le_lt | apply Qlt_not_le].
Qed.

Lemma py_truediv_nonzero a b :
  ¬ (b == 0)%Q → py_truediv a b = Ok (a / b)%Q.
Proof.
  intros Hb. unfold py_truediv.
  destruct (Qeq_bool b 0) eqn:E; [|done].
  apply Qeq_bool_iff in E. contradiction.
Qed.

Lemma py_truediv_zero a b :
  (b == 0)%Q → py_truediv a b = Raise ZeroDivisionError.
Proof.
  intros Hb. unfold py_truediv.
  apply Qeq_bool_iff in Hb. by rewrite Hb.
Qed.

Lemma py_getitem_nat {A} (l : list A) (i : nat) (x : A) :
  l !! i = Some x → py_getitem l (Z.of_nat i) = Ok x.
Proof.
  intros Hx. pose proof (lookup_lt_Some _ _ _ Hx) as Hlt.
  unfold py_getitem.
  destruct (Z.ltb_spec (Z.of_nat i) 0) as [?|_]; [lia|].
  destruct (Z.ltb_spec (Z.of_nat i) 0) as [?|_]; [lia|].
  destruct (Z.leb_spec (Z.of_nat (length l)) (Z.of_nat i)) as [?|_]; [lia|].
  cbn. by rewrite Nat2Z.id, Hx.
Qed.

Lemma py_getitem_last {A} (l : list A) (x : A) :
  last l = Some x → py_getitem l (-1) = Ok x.
Proof.
  intros Hx. rewrite last_lookup in Hx.
  pose proof (lookup_lt_Some _ _ _ Hx) as Hlt.
  unfold py_getitem.
  change (-1 <? 0) with true. cbn iota.
  destruct (Z.ltb_spec (-1 + Z.of_nat (length l)) 0) as [?|_]; [lia|].
  destruct (Z.leb_spec (Z.of_nat (length l)) (-1 + Z.of_nat (length l)))
    as [?|_]; [lia|].
  cbn. replace (Z.to_nat (-1 + Z.of_nat (length l))) with (pred (length l))
    by lia.
  by rewrite Hx.
Qed.

Lemma py_getitem_pred {A} (l : list A) (i : nat) (x : A) :
  l !! i = Some x → py_getitem l (Z.of_nat (S i) - 1) = Ok x.
Proof.
  intros Hx. replace (Z.of_nat (S i) - 1) with (Z.of_nat i) by lia.
  by apply py_getitem_nat.
Qed.

(** ** Facts about the bracket search *)

Section BracketSearch.

Import Sporting.

Lemma surrounding_loop_none pts rest start t :
  Forall (λ p, (relative_time p <= t)%Q) rest →
  surrounding_loop pts (enumerate_from start rest) t = Ok (None, None).
Proof.
  intros Hall. revert start.
  induction Hall as [|p rest Hp _ IH]; intros start; [done|].
  cbn. apply py_gt_false in Hp. rewrite Hp. apply IH.
Qed.

Lemma surrounding_loop_found pts rest start t k p :
  rest !! k = Some p →
  (t < relative_time p)%Q →
  (∀ j q, (j < k)%nat → rest !! j = Some q → (relative_time q <= t)%Q) →
  surrounding_loop pts (enumerate_from start rest) t =
    (below ← py_getitem pts (start + Z.of_nat k - 1);
     above ← py_getitem pts (start + Z.of_nat k);
     Ok (Some below, Some above)).
Proof.
  revert start k.
  induction rest as [|q rest IH]; intros start k Hk Hp Hbefore; [done|].
  destruct k as [|k]; cbn in Hk |- *.
  - inversion Hk; subst q. apply py_gt_true in Hp. rewrite Hp.
    by replace (start + Z.of_nat 0) with start by lia.
  - assert (Hq : (relative_time q <= t)%Q)
      by (apply (Hbefore 0%nat); [lia | done]).
    apply py_gt_false in Hq. rewrite Hq.
    rewrite (IH (start + 1) k Hk Hp).
    + by replace (start + 1 + Z.of_nat k) with (start + Z.of_nat (S k)) by lia.
    + intros j r Hj Hr. apply (Hbefore (S j)); [lia | done].
Qed.

Lemma get_surrounding_none track t :
  Forall (λ p, (relative_time p <= t)%Q) (track_points track) →
  get_surrounding_points_at_time track t = Ok (None, None).
Proof. apply surrounding_loop_none. Qed.

Lemma get_surrounding_first_above track t i :
  first_above (track_points track) t i →
  get_surrounding_points_at_time track t =
    (below ← py_getitem (track_points track) (Z.of_nat i - 1);
     above ← py_getitem (track_points track) (Z.of_nat i);
     Ok (Some below, Some above)).
Proof.
  intros [(p & Hp & Hlt) Hbefore].
  unfold get_surrounding_points_at_time, enumerate, get_track_points.
  by rewrite (surrounding_loop_found _ _ 0 t i p Hp Hlt Hbefore).
Qed.

End BracketSearch.

(** ** The track sampler *)

Section TrackSampler.

Import Sporting Samples.

Variable geo_distance : Q → Q → Q → Q → Q.

Lemma map_ranges_nonzero value in_min in_max out_min out_max :
  ¬ (in_max - in_min == 0)%Q →
  map_ranges value in_min in_max out_min out_max =
    Ok (lerp value in_min in_max out_min out_max).
Proof.
  intros Hd. unfold map_ranges, lerp. by rewrite (py_truediv_nonzero _ _ Hd).
Qed.

Lemma Qminus_nonzero (a b : Q) : (b < a)%Q → ¬ (a - b == 0)%Q.
Proof.
  intros Hlt Heq. apply (Qlt_irrefl a).
  assert (Ha : (a == b)%Q) by (rewrite <- (Qplus_0_l b), <- Heq; ring).
  rewrite Ha at 1. exact Hlt.
Qed.

(** Beyond the final sample the speed and the cadence are the int [0]. *)
Lemma speed_and_cadence_beyond_end track lp t :
  last (track_points track) = Some lp →
  (relative_time lp < t)%Q →
  get_speed_at_time geo_distance track t = Ok (VInt 0) ∧
  get_cadence_at_time track t = Ok (VInt 0).
Proof.
  intros Hlast Hlt. apply py_gt_true in Hlt.
  unfold get_speed_at_time, get_cadence_at_time, get_track_points.
  rewrite (py_getitem_last _ _ Hlast). cbn. by rewrite Hlt.
Qed.

(** When no sample exceeds [t] and [t] is not beyond the final sample, the
    bracket search finds nothing and the attribute access on [None]
    raises. *)
Lemma speed_and_cadence_at_end_raise track lp t :
  last (track_points track) = Some lp →
  Forall (λ p, (relative_time p <= t)%Q) (track_points track) →
  (t <= relative_time lp)%Q →
  get_speed_at_time geo_distance track t = Raise AttributeError ∧
  get_cadence_at_time track t = Raise AttributeError.
Proof.
  intros Hlast Hall Hle. apply py_gt_false in Hle.
  unfold get_speed_at_time, get_cadence_at_time, get_track_points.
  rewrite (py_getitem_last _ _ Hlast). cbn. rewrite Hle.
  by rewrite (get_surrounding_none _ _ Hall).
Qed.

(** C1 (the code at the failing input): on the two-sample track, at the
    time of the final sample, no sample exceeds the query time, yet neither
    [get_speed_at_time] nor [get_cadence_at_time] returns zero: both raise
    [AttributeError], because the guard is [time > last] where
    [get_position_at_time] has [time >= last]. *)
Theorem speed_and_cadence_at_final_sample :
  Forall (λ p, (relative_time p <= 10)%Q) (track_points two_points) ∧
  get_speed_at_time geo_distance two_points 10 = Raise AttributeError ∧
  get_cadence_at_time two_points 10 = Raise AttributeError.
Proof.
  assert (Hall : Forall (λ p, (relative_time p <= 10)%Q)
                   (track_points two_points))
    by (repeat constructor; by vm_compute).
  split; [exact Hall|].
  apply (speed_and_cadence_at_end_raise two_points (point 0 0.001 10 40) 10);
    [done | exact Hall | by vm_compute].
Qed.

(** C2: on a non-empty track, [get_position_at_time] at the final sample's
    time returns the final sample's position, and so it does at every later
    time. *)
Theorem position_clamped_at_end track lp :
  last (track_points track) = Some lp →
  get_position_at_time track (relative_time lp) = Ok (position_degrees lp) ∧
  ∀ t, (relative_time lp < t)%Q →
       get_position_at_time track t = Ok (position_degrees lp).
Proof.
  intros Hlast.
  assert (Hge : ∀ t, (relative_time lp <= t)%Q →
                     get_position_at_time track t = Ok (position_degrees lp)).
  { intros t Hle. apply py_ge_true in Hle.
    unfold get_position_at_time, get_track_points.
    rewrite (py_getitem_last _ _ Hlast). cbn. by rewrite Hle. }
  split.
  - apply Hge, Qle_refl.
  - intros t Hlt. apply Hge, Qlt_le_weak, Hlt.
Qed.



(** C8 (counterexample): two samples recorded at the same instant and a
    query time before both.  The bracket search pairs the last sample (as
    "below") with the first, and the interpolation divides by the
    difference of their times, which is zero. *)
Lemma position_before_start_of_tied_track :
  (2 <= length (track_points tied_points))%nat ∧
  (-1 < relative_time (point 0 0 0 30))%Q ∧
  get_surrounding_points_at_time tied_points (-1) =
    Ok (Some (point 0 0.001 0 40), Some (point 0 0 0 30)) ∧
  get_position_at_time tied_points (-1) = Raise ZeroDivisionError.
Proof. repeat split; by vm_compute. Qed.

(** C8 (amended): on a track of at least two samples whose first sample is
    recorded strictly before its last one, a query time strictly before the
    first sample's time makes the bracket search return the LAST sample as
    "below" (index -1) and the first as "above", and
    [get_position_at_time] returns the linear interpolation between these
    two, latitude and longitude apart, without raising. *)
Theorem position_before_start_wraps_around track first rest lp t :
  track_points track = first :: rest →
  last rest = Some lp →
  (t < relative_time first)%Q →
  (relative_time first < relative_time lp)%Q →
  get_surrounding_points_at_time track t = Ok (Some lp, Some first) ∧
  get_position_at_time track t =
    Ok (lerp t (relative_time lp) (relative_time first)
             (position_degrees lp).1 (position_degrees first).1,
        lerp t (relative_time lp) (relative_time first)
             (position_degrees lp).2 (position_degrees first).2).
Proof.
  intros Hpts Hrest Hbefore Hends.
  assert (Hlast : last (track_points track) = Some lp).
  { rewrite Hpts. destruct rest; [done|]. by rewrite last_cons, Hrest. }
  assert (Hsur : get_surrounding_points_at_time track t
                 = Ok (Some lp, Some first)).
  { rewrite (get_surrounding_first_above track t 0).
    - change (Z.of_nat 0 - 1) with (-1).
      rewrite (py_getitem_last _ _ Hlast).
      rewrite (py_getitem_nat _ 0 first) by (by rewrite Hpts).
      done.
    - split; [|intros; lia]. exists first. by rewrite Hpts. }
  split; [exact Hsur|].
  assert (Hguard : py_ge t (relative_time lp) = false).
  { apply py_ge_false. by apply Qlt_trans with (relative_time first). }
  assert (Hdiv : ¬ (relative_time first - relative_time lp == 0)%Q).
  { intros Heq. apply (Qlt_irrefl (relative_time lp)).
    assert (Hsame : (relative_time first == relative_time lp)%Q)
      by (rewrite <- (Qplus_0_l (relative_time lp)), <- Heq; ring).
    rewrite <- Hsame at 1. exact Hends. }
  unfold get_position_at_time, get_track_points.
  rewrite (py_getitem_last _ _ Hlast). cbn. rewrite Hguard, Hsur. cbn.
  by rewrite !(map_ranges_nonzero _ _ _ _ _ Hdiv).
Qed.

Lemma strictly_increasing_adjacent pts i p q :
  strictly_increasing pts →
  pts !! i = Some p → pts !! S i = Some q →
  (relative_time p < relative_time q)%Q.
Proof.
  revert i. induction pts as [|a pts IH]; intros i Hinc Hp Hq; [done|].
  destruct pts as [|b pts]; [done|]. destruct Hinc as [Hab Hinc].
  destruct i as [|i].
  - cbn in Hp, Hq. by simplify_eq.
  - apply (IH i); done.
Qed.

(** A query time from the first sample's time up to, but not reaching, the
    last sample's time has a bracket whose lower end is a sample. *)
Lemma bracket_exists pts first lp t :
  head pts = Some first →
  last pts = Some lp →
  (relative_time first <= t)%Q →
  (t < relative_time lp)%Q →
  ∃ i below above,
    pts !! i = Some below ∧ pts !! S i = Some above ∧
    (relative_time below <= t)%Q ∧ (t < relative_time above)%Q ∧
    first_above pts t (S i).
Proof.
  revert first. induction pts as [|a pts IH]; intros first Hhd Hlast Hle Hlt;
    [done|].
  cbn in Hhd. simplify_eq.
  destruct pts as [|b pts].
  - cbn in Hlast. simplify_eq.
    exfalso. apply (Qlt_irrefl t). by apply Qlt_le_trans with (relative_time lp).
  - rewrite last_cons_cons in Hlast.
    destruct (Qlt_le_dec t (relative_time b)) as [Hb|Hb].
    + exists 0%nat, first, b. repeat split; try done.
      * by exists b.
      * intros j q Hj Hq. destruct j as [|j]; [|lia].
        cbn in Hq. by simplify_eq.
    + destruct (IH b eq_refl Hlast Hb Hlt)
        as (i & below & above & Hi & HSi & Hbelow & Habove & Hfirst).
      exists (S i), below, above. repeat split; try done.
      * destruct Hfirst as [Hex _]. exact Hex.
      * intros j q Hj Hq. destruct j as [|j].
        -- cbn in Hq. by simplify_eq.
        -- destruct Hfirst as [_ Hbefore]. apply (Hbefore j); [lia | done].
Qed.

(** C10: on a track whose times are strictly increasing, at a query time
    from the first sample's time up to, but not reaching, the last
    sample's time, the bracket search returns two samples whose times
    differ, so the divisor of every division ([time_above - time_below] in
    the speed and in [map_ranges]) is nonzero and the three queries return
    their interpolated values instead of raising. *)
Theorem no_zero_divisor_inside_track track first lp t :
  strictly_increasing (track_points track) →
  head (track_points track) = Some first →
  last (track_points track) = Some lp →
  (relative_time first <= t)%Q →
  (t < relative_time lp)%Q →
  ∃ below above,
    get_surrounding_points_at_time track t = Ok (Some below, Some above) ∧
    (relative_time below <= t)%Q ∧ (t < relative_time above)%Q ∧
    ¬ (relative_time above - relative_time below == 0)%Q ∧
    get_position_at_time track t =
      Ok (lerp t (relative_time below) (relative_time above)
               (position_degrees below).1 (position_degrees above).1,
          lerp t (relative_time below) (relative_time above)
               (position_degrees below).2 (position_degrees above).2) ∧
    get_speed_at_time geo_distance track t =
      Ok (VFloat
            (geo_distance (position_degrees below).1 (position_degrees below).2
                          (position_degrees above).1 (position_degrees above).2
             / (relative_time above - relative_time below))%Q) ∧
    get_cadence_at_time track t =
      Ok (VFloat
            (py_round (lerp t (relative_time below) (relative_time above)
                            (cadence below) (cadence above)) 1)).
Proof.
  intros Hinc Hhd Hlast Hle Hlt.
  destruct (bracket_exists _ _ _ _ Hhd Hlast Hle Hlt)
    as (i & below & above & Hi & HSi & Hbelow & Habove & Hfirst).
  exists below, above.
  assert (Hsur : get_surrounding_points_at_time track t
                 = Ok (Some below, Some above)).
  { rewrite (get_surrounding_first_above _ _ _ Hfirst).
    rewrite (py_getitem_pred _ _ _ Hi), (py_getitem_nat _ _ _ HSi). done. }
  assert (Hdiv : ¬ (relative_time above - relative_time below == 0)%Q).
  { apply Qminus_nonzero.
    by apply (strictly_increasing_adjacent (track_points track) i). }
  assert (Hge : py_ge t (relative_time lp) = false) by by apply py_ge_false.
  assert (Hgt : py_gt t (relative_time lp) = false)
    by by apply py_gt_false, Qlt_le_weak.
  repeat split; try done.
  - unfold get_position_at_time, get_track_points.
    rewrite (py_getitem_last _ _ Hlast). cbn. rewrite Hge, Hsur. cbn.
    by rewrite !(map_ranges_nonzero _ _ _ _ _ Hdiv).
  - unfold get_speed_at_time, get_track_points.
    rewrite (py_getitem_last _ _ Hlast). cbn. rewrite Hgt, Hsur. cbn.
    by rewrite (py_truediv_nonzero _ _ Hdiv).
  - unfold get_cadence_at_time, get_track_points.
    rewrite (py_getitem_last _ _ Hlast). cbn. rewrite Hgt, Hsur. cbn.
    by rewrite (map_ranges_nonzero _ _ _ _ _ Hdiv).
Qed.

End TrackSampler.

(** ** Unit conversion *)

Section UnitConversion.

Import Sporting.

Variable float_str : Q → string.

Lemma float_of_exact_finite q :
  (Qabs q < overflow_bound)%Q → float_of_exact q = Finite q.
Proof.
  intros Hq. unfold float_of_exact.
  destruct (Qle_bool overflow_bound (Qabs q)) eqn:E; [|done].
  apply Qle_bool_iff in E. exfalso. by apply (Qlt_not_le _ _ Hq).
Qed.

Lemma float_of_exact_infinite q :
  (overflow_bound <= Qabs q)%Q →
  float_of_exact q = Infinite (negb (Qle_bool 0 q)).
Proof.
  intros Hq. unfold float_of_exact.
  by rewrite (proj2 (Qle_bool_iff _ _) Hq).
Qed.

Lemma convert_not_float speed unit :
  float_value speed = None →
  convert_speed_units float_str speed unit = Raise TypeError.
Proof. intros Hspeed. unfold convert_speed_units. by rewrite Hspeed. Qed.

Lemma convert_not_str speed unit :
  (∀ u, unit ≠ VStr u) →
  convert_speed_units float_str speed unit = Raise TypeError.
Proof.
  intros Hunit. unfold convert_speed_units.
  destruct (float_value speed); [|done].
  destruct unit as [| | | |u]; try done. by destruct (Hunit u).
Qed.

Lemma convert_plain_units speed x :
  float_value speed = Some x →
  convert_speed_units float_str speed (VStr "m/s")
    = Ok (pyfloat_str float_str x ++ " m/s")%string ∧
  convert_speed_units float_str speed (VStr "km/h")
    = Ok (pyfloat_str float_str (float_mul x 3.6) ++ " km/h")%string ∧
  convert_speed_units float_str speed (VStr "mph")
    = Ok (pyfloat_str float_str (float_mul x 2.237) ++ " mph")%string.
Proof. intros Hspeed. unfold convert_speed_units. by rewrite Hspeed. Qed.

(** The branch of the unit "s/500m". *)
Lemma convert_pace speed x :
  float_value speed = Some x →
  convert_speed_units float_str speed (VStr "s/500m") =
    (pace ← float_rdiv 500 x;
     let total := float_round pace 1 in
     whole ← float_floordiv total 60;
     mins ← int_of_float whole;
     secs ← float_mod total 60;
     Ok (int_str mins ++ ":" ++ nan_or_str float_str secs ++ " /500m")%string).
Proof. intros Hspeed. unfold convert_speed_units. by rewrite Hspeed. Qed.

Lemma convert_pace_finite speed q :
  float_value speed = Some (Finite q) →
  ¬ (q == 0)%Q →
  (Qabs (500 / q) < overflow_bound)%Q →
  convert_speed_units float_str speed (VStr "s/500m") =
    let total := py_round (500 / q) 1 in
    Ok (int_str (Qfloor (total / 60)) ++ ":" ++
        float_str (total - 60 * inject_Z (Qfloor (total / 60)))%Q ++
        " /500m")%string.
Proof.
  intros Hspeed Hq Hpace. rewrite (convert_pace speed _ Hspeed).
  unfold float_rdiv. rewrite (py_truediv_nonzero _ _ Hq).
  cbn [mbind result_mbind result_bind].
  rewrite (float_of_exact_finite _ Hpace).
  cbn [float_round float_floordiv float_mod].
  unfold py_floordiv, py_mod. change (Qeq_bool 60 0) with false.
  cbn [mbind result_mbind result_bind int_of_float nan_or_str].
  unfold py_int.
  destruct (Qle_bool 0 (inject_Z (Qfloor (py_round (500 / q) 1 / 60))));
    by rewrite ?Qfloor_Z, ?Qceiling_Z.
Qed.

Lemma convert_pace_zero speed q :
  float_value speed = Some (Finite q) →
  (q == 0)%Q →
  convert_speed_units float_str speed (VStr "s/500m")
    = Raise ZeroDivisionError.
Proof.
  intros Hspeed Hq. rewrite (convert_pace speed _ Hspeed).
  unfold float_rdiv. by rewrite (py_truediv_zero _ _ Hq).
Qed.

Lemma convert_pace_overflow speed q :
  float_value speed = Some (Finite q) →
  ¬ (q == 0)%Q →
  (overflow_bound <= Qabs (500 / q))%Q →
  convert_speed_units float_str speed (VStr "s/500m") = Raise ValueError.
Proof.
  intros Hspeed Hq Hpace. rewrite (convert_pace speed _ Hspeed).
  unfold float_rdiv. rewrite (py_truediv_nonzero _ _ Hq).
  cbn [mbind result_mbind result_bind].
  by rewrite (float_of_exact_infinite _ Hpace).
Qed.

Lemma convert_pace_nan speed :
  float_value speed = Some NaN →
  convert_speed_units float_str speed (VStr "s/500m") = Raise ValueError.
Proof. intros Hspeed. by rewrite (convert_pace speed _ Hspeed). Qed.

Lemma convert_pace_infinite speed negative :
  float_value speed = Some (Infinite negative) →
  is_ok (convert_speed_units float_str speed (VStr "s/500m")) = true.
Proof. intros Hspeed. by rewrite (convert_pace speed _ Hspeed). Qed.

Lemma convert_pace_defined speed x :
  float_value speed = Some x →
  is_ok (convert_speed_units float_str speed (VStr "s/500m")) = true ↔
  pace_defined x.
Proof.
  intros Hspeed. destruct x as [q|negative|]; cbn [pace_defined].
  - destruct (Qeq_dec q 0) as [Hzero|Hq].
    { rewrite (convert_pace_zero speed q Hspeed Hzero). split; [done|].
      by intros [Hq _]. }
    destruct (Qlt_le_dec (Qabs (500 / q)) overflow_bound) as [Hpace|Hpace].
    + rewrite (convert_pace_finite speed q Hspeed Hq Hpace). by split.
    + rewrite (convert_pace_overflow speed q Hspeed Hq Hpace).
      split; [done|]. intros [_ Hlt]. exfalso.
      by apply (Qlt_not_le _ _ Hlt).
  - by rewrite (convert_pace_infinite speed negative Hspeed).
  - by rewrite (convert_pace_nan speed Hspeed).
Qed.

Lemma convert_unknown_unit speed u :
  u ≠ "m/s"%string → u ≠ "km/h"%string → u ≠ "mph"%string →
  u ≠ "s/500m"%string →
  convert_speed_units float_str speed (VStr u) =
    match float_value speed with
    | Some _ => Raise ValueError
    | None => Raise TypeError
    end.
Proof.
  intros H1 H2 H3 H4. unfold convert_speed_units.
  destruct (float_value speed); [|done].
  apply String.eqb_neq in H1, H2, H3, H4. by rewrite H1, H2, H3, H4.
Qed.

(** A speed of 1e-307 is a float that is not zero, yet its pace is beyond
    the range of doubles: [500 / speed] is infinite, [total // 60] is nan
    and [int] raises. *)
Lemma pace_of_tiny_speed_raises :
  convert_speed_units float_str (Plain (VFloat (1 # 10 ^ 307))) (VStr "s/500m")
    = Raise ValueError.
Proof.
  apply (convert_pace_overflow _ (1 # 10 ^ 307)); [done|done|].
  vm_compute. discriminate.
Qed.

(** C3 (counterexample): the speed 0.0 is a float and "s/500m" is one of
    the four units, yet the conversion raises: the pace is [500 / speed]. *)
Lemma pace_of_zero_speed_raises :
  float_value (Plain (VFloat 0)) = Some (Finite 0) ∧
  "s/500m"%string ∈ ["m/s"; "km/h"; "mph"; "s/500m"]%string ∧
  ∀ float_str' : Q → string,
    convert_speed_units float_str' (Plain (VFloat 0)) (VStr "s/500m")
      = Raise ZeroDivisionError.
Proof.
  split; [done|]. split; [by do 3 right; left | done].
Qed.

(** C3 (amended): [convert_speed_units] returns its formatted string
    exactly when the speed is a float and the unit is the string "m/s",
    "km/h" or "mph", or the string "s/500m" with a speed whose pace
    [500 / speed] is a finite float: a speed that is not zero, not nan,
    and not so near zero that the pace overflows to infinity.  In every
    other case it raises. *)
Theorem convert_speed_units_returns_iff speed unit :
  is_ok (convert_speed_units float_str speed unit) = true ↔
  ∃ x u, float_value speed = Some x ∧ unit = VStr u ∧
         (u = "m/s"%string ∨ u = "km/h"%string ∨ u = "mph"%string ∨
          (u = "s/500m"%string ∧ pace_defined x)).
Proof.
  split.
  - destruct (float_value speed) as [x|] eqn:Hspeed;
      [|by rewrite (convert_not_float speed unit Hspeed)].
    destruct unit as [| | | |u];
      try (by rewrite convert_not_str).
    intros Hok. exists x, u. do 2 (split; [done|]).
    destruct (decide (u = "m/s"%string)) as [->|H1]; [by left|].
    destruct (decide (u = "km/h"%string)) as [->|H2]; [by right; left|].
    destruct (decide (u = "mph"%string)) as [->|H3]; [by right; right; left|].
    destruct (decide (u = "s/500m"%string)) as [->|H4].
    + right; right; right. split; [done|].
      by apply (convert_pace_defined speed x Hspeed).
    + by rewrite (convert_unknown_unit speed u), Hspeed in Hok.
  - intros (x & u & Hspeed & -> & [->|[->|[->|[-> Hpace]]]]).
    + by destruct (convert_plain_units speed x Hspeed) as (-> & _ & _).
    + by destruct (convert_plain_units speed x Hspeed) as (_ & -> & _).
    + by destruct (convert_plain_units speed x Hspeed) as (_ & _ & ->).
    + by apply (convert_pace_defined speed x Hspeed).
Qed.

End UnitConversion.

(** ** The tile space *)

Section TileSpace.

Import GraphHandler.

Context {Image : Type}.
Variable math_pi : Q.
Variables math_atan math_sinh math_degrees : Q → Q.
Variable pow : Q → Q → Q.

Abbreviation set_tile_bounds :=
  (set_tile_bounds math_pi math_atan math_sinh math_degrees).
Abbreviation reindex_tiles :=
  (reindex_tiles math_pi math_atan math_sinh math_degrees).
Abbreviation add_images :=
  (add_images math_pi math_atan math_sinh math_degrees).
Abbreviation num2deg := (num2deg math_pi math_atan math_sinh math_degrees).

Implicit Types (self : MapClass Image) (d : gmap (Z * Z) Image).

(** *** Minimum and maximum *)

Lemma foldl_min_spec (l : list Z) (a : Z) :
  foldl Z.min a l ∈ a :: l ∧ ∀ x, x ∈ a :: l → foldl Z.min a l ≤ x.
Proof.
  revert a. induction l as [|b l IH]; intros a; cbn.
  - split; [by left|]. intros x Hx. apply list_elem_of_singleton in Hx. lia.
  - destruct (IH (Z.min a b)) as [Hin Hle]. split.
    + apply elem_of_cons in Hin as [Heq|Hin].
      * rewrite Heq.
        destruct (Z.min_spec a b) as [[_ ->]|[_ ->]];
          [by left | right; by left].
      * by do 2 right.
    + intros x Hx.
      assert (Hend : foldl Z.min (Z.min a b) l ≤ Z.min a b)
        by (apply Hle; by left).
      apply elem_of_cons in Hx as [->|Hx]; [lia|].
      apply elem_of_cons in Hx as [->|Hx]; [lia|].
      apply Hle. by right.
Qed.

Lemma foldl_max_spec (l : list Z) (a : Z) :
  foldl Z.max a l ∈ a :: l ∧ ∀ x, x ∈ a :: l → x ≤ foldl Z.max a l.
Proof.
  revert a. induction l as [|b l IH]; intros a; cbn.
  - split; [by left|]. intros x Hx. apply list_elem_of_singleton in Hx. lia.
  - destruct (IH (Z.max a b)) as [Hin Hle]. split.
    + apply elem_of_cons in Hin as [Heq|Hin].
      * rewrite Heq.
        destruct (Z.max_spec a b) as [[_ ->]|[_ ->]];
          [right; by left | by left].
      * by do 2 right.
    + intros x Hx.
      assert (Hend : Z.max a b ≤ foldl Z.max (Z.max a b) l)
        by (apply Hle; by left).
      apply elem_of_cons in Hx as [->|Hx]; [lia|].
      apply elem_of_cons in Hx as [->|Hx]; [lia|].
      apply Hle. by right.
Qed.

Lemma py_min_spec (l : list Z) :
  l ≠ [] → ∃ m, py_min l = Ok m ∧ m ∈ l ∧ ∀ x, x ∈ l → m ≤ x.
Proof.
  destruct l as [|a l]; [done|]. intros _.
  exists (foldl Z.min a l). split; [done|]. apply foldl_min_spec.
Qed.

Lemma py_max_spec (l : list Z) :
  l ≠ [] → ∃ m, py_max l = Ok m ∧ m ∈ l ∧ ∀ x, x ∈ l → x ≤ m.
Proof.
  destruct l as [|a l]; [done|]. intros _.
  exists (foldl Z.max a l). split; [done|]. apply foldl_max_spec.
Qed.

(** *** Keys and bounds of a tile dictionary *)

Lemma elem_of_keys d x y : (x, y) ∈ keys d ↔ is_Some (d !! (x, y)).
Proof.
  unfold keys, items. rewrite list_elem_of_fmap. split.
  - intros ([k v] & Hk & Hin). cbn in Hk. subst k.
    apply elem_of_map_to_list in Hin. by exists v.
  - intros [v Hv]. exists ((x, y), v). split; [done|].
    by apply elem_of_map_to_list.
Qed.

Lemma keys_nonempty d : d ≠ ∅ → keys d ≠ [].
Proof.
  intros Hd Hk. apply Hd. apply map_to_list_empty_iff.
  unfold keys, items in Hk. by apply fmap_nil_inv in Hk.
Qed.

Lemma tile_ind_bounds_spec d :
  d ≠ ∅ →
  ∃ north east south west,
    tile_ind_bounds (keys d) = Ok (north, east, south, west) ∧
    is_west d west ∧ is_south d south.
Proof.
  intros Hd. pose proof (keys_nonempty d Hd) as Hk.
  assert (Hfst : fst <$> keys d ≠ [])
    by (intros H; by apply fmap_nil_inv in H).
  assert (Hsnd : snd <$> keys d ≠ [])
    by (intros H; by apply fmap_nil_inv in H).
  destruct (py_min_spec _ Hsnd) as (north & Hn & _ & _).
  destruct (py_max_spec _ Hfst) as (east & He & _ & _).
  destruct (py_max_spec _ Hsnd) as (south & Hs & Hsin & Hsle).
  destruct (py_min_spec _ Hfst) as (west & Hw & Hwin & Hwle).
  exists north, east, south, west. split.
  { unfold tile_ind_bounds. rewrite Hn. cbn. rewrite He. cbn.
    rewrite Hs. cbn. by rewrite Hw. }
  split.
  - split.
    + apply list_elem_of_fmap in Hwin as ([x y] & -> & Hin).
      exists y. by apply elem_of_keys.
    + intros x y Hxy. apply Hwle. apply list_elem_of_fmap.
      exists (x, y). split; [done|]. by apply elem_of_keys.
  - split.
    + apply list_elem_of_fmap in Hsin as ([x y] & -> & Hin).
      exists x. by apply elem_of_keys.
    + intros x y Hxy. apply Hsle. apply list_elem_of_fmap.
      exists (x, y). split; [done|]. by apply elem_of_keys.
Qed.

Lemma is_west_unique d w1 w2 : is_west d w1 → is_west d w2 → w1 = w2.
Proof.
  intros [[y1 H1] Hle1] [[y2 H2] Hle2].
  pose proof (Hle1 _ _ H2). pose proof (Hle2 _ _ H1). lia.
Qed.

Lemma is_south_unique d s1 s2 : is_south d s1 → is_south d s2 → s1 = s2.
Proof.
  intros [[x1 H1] Hle1] [[x2 H2] Hle2].
  pose proof (Hle1 _ _ H2). pose proof (Hle2 _ _ H1). lia.
Qed.

(** *** [__set_tile_bounds] *)

Lemma num2deg_zoom17 xtile ytile : ∃ r, num2deg xtile ytile 17 = Ok r.
Proof.
  unfold GraphHandler.num2deg, py_truediv.
  change (Qeq_bool (2 ^ 17) 0) with false. cbn. eauto.
Qed.

Lemma set_tile_bounds_empty self :
  raw_image_dict self = ∅ → set_tile_bounds self = (Raise ValueError, self).
Proof.
  intros Hraw. unfold GraphHandler.set_tile_bounds.
  rewrite Hraw, map_size_empty. by rewrite bool_decide_eq_true_2.
Qed.

Lemma set_tile_bounds_raw self :
  raw_image_dict (set_tile_bounds self).2 = raw_image_dict self.
Proof.
  unfold GraphHandler.set_tile_bounds.
  destruct (bool_decide _); [done|].
  destruct (tile_ind_bounds _) as [[[[north east] south] west]|e]; [|done].
  destruct (num2deg west (south + 1) 17) as [bl|e]; [|done].
  destruct (num2deg (east + 1) north 17) as [tr|e]; done.
Qed.

Lemma set_tile_bounds_nonempty self north east south west :
  raw_image_dict self ≠ ∅ →
  tile_ind_bounds (keys (raw_image_dict self)) = Ok (north, east, south, west) →
  ∃ self1,
    set_tile_bounds self = (Ok (), self1) ∧
    raw_image_dict self1 = raw_image_dict self ∧
    tile_bounds_plt self1 =
      Some ((south - north + 1) * tile_size self,
            (east - west + 1) * tile_size self, 0, 0) ∧
    is_Some (tile_bounds_deg self1).
Proof.
  intros Hraw Hb. unfold GraphHandler.set_tile_bounds.
  rewrite bool_decide_eq_false_2 by (by rewrite map_size_empty_iff).
  rewrite Hb.
  destruct (num2deg_zoom17 west (south + 1)) as [bl ->].
  destruct (num2deg_zoom17 (east + 1) north) as [tr ->].
  eexists. split; [done|]. cbn. eauto.
Qed.

(** *** The loop of [__reindex_tiles] *)

Lemma shift_key_inj west south k1 k2 :
  shift_key west south k1 = shift_key west south k2 → k1 = k2.
Proof.
  destruct k1 as [x1 y1], k2 as [x2 y2]. unfold shift_key. cbn.
  intros [= Hx Hy]. f_equal; lia.
Qed.

Lemma reindex_loop_other west south (l : list (Z * Z * Image)) d key :
  (∀ old_key, old_key ∈ l.*1 → shift_key west south old_key ≠ key) →
  foldl (reindex_step west south) d l !! key = d !! key.
Proof.
  revert d. induction l as [|[k v] l IH]; intros d Hne; [done|].
  cbn. rewrite IH.
  - apply lookup_insert_ne. apply Hne. by left.
  - intros old_key Hin. apply Hne. by right.
Qed.

Lemma reindex_loop_member west south (l : list (Z * Z * Image)) d k v :
  NoDup l.*1 → (k, v) ∈ l →
  foldl (reindex_step west south) d l !! shift_key west south k = Some v.
Proof.
  revert d. induction l as [|[k1 v1] l IH]; intros d Hnd Hin.
  - by apply elem_of_nil in Hin.
  - cbn in Hnd. apply NoDup_cons in Hnd as [Hfresh Hnd].
    apply elem_of_cons in Hin as [[= -> ->]|Hin]; cbn.
    + rewrite reindex_loop_other; [apply lookup_insert_eq|].
      intros old_key Hold Heq. apply shift_key_inj in Heq. by subst old_key.
    + by apply IH.
Qed.

Lemma reindex_loop_source west south (l : list (Z * Z * Image)) d key v :
  foldl (reindex_step west south) d l !! key = Some v →
  d !! key = Some v ∨ ∃ k, (k, v) ∈ l ∧ key = shift_key west south k.
Proof.
  revert d. induction l as [|[k1 v1] l IH]; intros d Hlook; [by left|].
  cbn in Hlook. apply IH in Hlook as [Hd|(k & Hin & ->)].
  - destruct (decide (shift_key west south k1 = key)) as [<-|Hne].
    + rewrite lookup_insert_eq in Hd. injection Hd as ->.
      right. exists k1. split; [by left | done].
    + rewrite lookup_insert_ne in Hd by done. by left.
  - right. exists k. split; [by right | done].
Qed.

Lemma reindex_tiles_nonempty self north east south west :
  raw_image_dict self ≠ ∅ →
  tile_ind_bounds (keys (raw_image_dict self)) = Ok (north, east, south, west) →
  (reindex_tiles self).1 = Ok () ∧
  raw_image_dict (reindex_tiles self).2 = raw_image_dict self ∧
  image_dict (reindex_tiles self).2 =
    foldl (reindex_step west south) ∅ (items (raw_image_dict self)).
Proof.
  intros Hraw Hb. unfold GraphHandler.reindex_tiles.
  destruct (set_tile_bounds_nonempty self _ _ _ _ Hraw Hb)
    as (self1 & -> & Hraw1 & _ & _).
  rewrite Hraw1, Hb. done.
Qed.

(** C4: after a recompute over a non-empty raw tile set, the local tile
    dictionary holds every raw tile [(x, y)] under the key
    [(x - west, south - y)], with [west] the least raw x and [south] the
    greatest raw y, and holds nothing else; so the tile at the south-west
    corner sits at local [(0, 0)].  The raw tile set [{(2,3), (4,5)}] is
    reindexed to the local keys [{(0,2), (2,0)}]. *)
Theorem reindex_tiles_shifts_keys self :
  (raw_image_dict self ≠ ∅ →
   ∃ west south,
     is_west (raw_image_dict self) west ∧
     is_south (raw_image_dict self) south ∧
     (reindex_tiles self).1 = Ok () ∧
     (∀ x y img,
        raw_image_dict self !! (x, y) = Some img →
        image_dict (reindex_tiles self).2 !! (x - west, south - y) = Some img) ∧
     (∀ key img,
        image_dict (reindex_tiles self).2 !! key = Some img →
        ∃ x y, key = (x - west, south - y) ∧
               raw_image_dict self !! (x, y) = Some img) ∧
     (∀ img,
        raw_image_dict self !! (west, south) = Some img →
        image_dict (reindex_tiles self).2 !! (0, 0) = Some img)) ∧
  (∀ img1 img2 : Image,
     image_dict
       (reindex_tiles
          (set_raw_image_dict self {[ (2, 3) := img1; (4, 5) := img2 ]})).2
     = {[ (0, 2) := img1; (2, 0) := img2 ]}).
Proof.
  split.
  - intros Hraw.
    destruct (tile_ind_bounds_spec _ Hraw)
      as (north & east & south & west & Hb & Hwest & Hsouth).
    destruct (reindex_tiles_nonempty self _ _ _ _ Hraw Hb)
      as (Hok & _ & Hdict).
    assert (Hfwd : ∀ x y img,
              raw_image_dict self !! (x, y) = Some img →
              image_dict (reindex_tiles self).2 !! (x - west, south - y)
                = Some img).
    { intros x y img Hxy. rewrite Hdict.
      apply (reindex_loop_member west south _ ∅ (x, y) img).
      - apply NoDup_fst_map_to_list.
      - by apply elem_of_map_to_list. }
    exists west, south. repeat split; try done.
    + apply Hwest.
    + apply Hwest.
    + apply Hsouth.
    + apply Hsouth.
    + intros key img Hkey. rewrite Hdict in Hkey.
      apply reindex_loop_source in Hkey as [Hempty|([x y] & Hin & ->)].
      * by rewrite lookup_empty in Hempty.
      * exists x, y. split; [done|]. by apply elem_of_map_to_list.
    + intros img Hsw. apply Hfwd in Hsw.
      by rewrite !Z.sub_diag in Hsw.
  - intros img1 img2. by vm_compute.
Qed.

(** *** The loop of [__add_images] *)

Lemma add_images_loop_present (l : list (Z * Z * Image)) d key img :
  d !! key = Some img → foldl add_images_step d l !! key = Some img.
Proof.
  revert d. induction l as [|[k v] l IH]; intros d Hkey; [done|].
  cbn. apply IH. destruct (d !! k) eqn:Hk; [done|].
  rewrite lookup_insert_ne; [done|]. intros ->. congruence.
Qed.

Lemma add_images_loop_absent (l : list (Z * Z * Image)) d key :
  NoDup l.*1 → d !! key = None →
  foldl add_images_step d l !! key = (list_to_map l : gmap (Z * Z) Image) !! key.
Proof.
  revert d. induction l as [|[k v] l IH]; intros d Hnd Hkey; [done|].
  cbn in Hnd. apply NoDup_cons in Hnd as [Hfresh Hnd]. cbn.
  destruct (decide (k = key)) as [->|Hne].
  - rewrite Hkey, lookup_insert_eq.
    apply add_images_loop_present, lookup_insert_eq.
  - rewrite lookup_insert_ne by done. apply IH; [done|].
    destruct (d !! k); [done|]. by rewrite lookup_insert_ne.
Qed.

Lemma reindex_tiles_raw self :
  raw_image_dict (reindex_tiles self).2 = raw_image_dict self.
Proof.
  unfold GraphHandler.reindex_tiles.
  pose proof (set_tile_bounds_raw self) as Hraw.
  destruct (set_tile_bounds self) as [[[]|e] self1]; cbn in Hraw; [|done].
  destruct (tile_ind_bounds _) as [[[[north east] south] west]|e]; done.
Qed.

Lemma add_images_raw self new_tiles :
  raw_image_dict (add_images self new_tiles).2 =
    foldl add_images_step (raw_image_dict self) (items new_tiles).
Proof. unfold GraphHandler.add_images. by rewrite reindex_tiles_raw. Qed.

(** C5: whatever the state and the tiles offered, [__add_images] leaves
    every tile that is already in the raw dictionary as it is, and inserts
    the offered tiles under the keys that were absent. *)
Theorem add_images_first_write_wins self new_tiles :
  (∀ key img,
     raw_image_dict self !! key = Some img →
     raw_image_dict (add_images self new_tiles).2 !! key = Some img) ∧
  (∀ key,
     raw_image_dict self !! key = None →
     raw_image_dict (add_images self new_tiles).2 !! key = new_tiles !! key).
Proof.
  split.
  - intros key img Hkey. rewrite add_images_raw.
    by apply add_images_loop_present.
  - intros key Hkey. rewrite add_images_raw.
    rewrite add_images_loop_absent; [|apply NoDup_fst_map_to_list|done].
    unfold items. by rewrite list_to_map_to_list.
Qed.

(** C6: a recompute of the bounds on an empty raw dictionary raises
    [ValueError] and changes nothing, and [degrees_to_graph] raises
    [ValueError] as long as the GPX bounds or the tile degree bounds are
    unset; neither returns a value. *)
Theorem unset_bounds_raise self :
  (raw_image_dict self = ∅ →
   set_tile_bounds self = (Raise ValueError, self) ∧
   reindex_tiles self = (Raise ValueError, self) ∧
   (add_images self ∅).1 = Raise ValueError) ∧
  (gpx_bounds_deg self = None ∨ tile_bounds_deg self = None →
   ∀ degrees, degrees_to_graph self degrees = Raise ValueError).
Proof.
  split.
  - intros Hraw. pose proof (set_tile_bounds_empty self Hraw) as Hset.
    split; [done|]. split.
    + unfold GraphHandler.reindex_tiles. by rewrite Hset.
    + unfold GraphHandler.add_images, GraphHandler.reindex_tiles, items.
      rewrite map_to_list_empty. cbn.
      by rewrite set_tile_bounds_empty.
  - intros Hunset degrees. unfold degrees_to_graph.
    destruct Hunset as [-> | Htile]; [done|].
    rewrite Htile. by destruct (gpx_bounds_deg self).
Qed.

(** C9: once the plot bounds are set, [scale_zoom] at input 0 returns the
    minimum margin, 5. *)
Theorem scale_zoom_at_zero self bounds :
  tile_bounds_plt self = Some bounds →
  ∃ margin, scale_zoom pow self 0 = Ok margin ∧ (margin == 5)%Q.
Proof.
  intros Hplt. unfold scale_zoom. rewrite Hplt.
  destruct bounds as [[[a b] c] d]. cbn.
  eexists. split; [done|]. ring.
Qed.

End TileSpace.

(** ** The theorems on sample data *)

Section OnSamples.

Import Sporting GraphHandler Samples.

Lemma position_clamped_at_end_witness :
  last (track_points two_points) = Some (point 0 0.001 10 40) ∧
  get_position_at_time two_points 10 = Ok (0%Q, 0.001%Q) ∧
  ∀ t, (10 < t)%Q → get_position_at_time two_points t = Ok (0%Q, 0.001%Q).
Proof.
  split; [reflexivity|].
  apply (position_clamped_at_end two_points (point 0 0.001 10 40)).
  reflexivity.
Defined.

Lemma convert_speed_units_returns_iff_witness :
  is_ok (convert_speed_units fraction_str (Plain (VFloat 4)) (VStr "s/500m"))
    = true.
Proof.
  apply (convert_speed_units_returns_iff fraction_str).
  exists (Finite 4), "s/500m"%string. do 2 (split; [reflexivity|]).
  do 3 right. split; [reflexivity|]. split; [discriminate|].
  vm_compute. reflexivity.
Defined.



Lemma position_before_start_wraps_around_witness :
  get_surrounding_points_at_time two_points (-1) =
    Ok (Some (point 0 0.001 10 40), Some (point 0 0 0 30)) ∧
  get_position_at_time two_points (-1) =
    Ok (lerp (-1) 10 0 0 0, lerp (-1) 10 0 0.001 0).
Proof.
  apply (position_before_start_wraps_around two_points (point 0 0 0 30)
           [point 0 0.001 10 40] (point 0 0.001 10 40) (-1));
    reflexivity.
Defined.

Lemma no_zero_divisor_inside_track_witness :
  ∃ below above,
    get_surrounding_points_at_time three_points 12 =
      Ok (Some below, Some above) ∧
    (relative_time below <= 12)%Q ∧ (12 < relative_time above)%Q ∧
    ¬ (relative_time above - relative_time below == 0)%Q ∧
    get_position_at_time three_points 12 =
      Ok (lerp 12 (relative_time below) (relative_time above)
               (position_degrees below).1 (position_degrees above).1,
          lerp 12 (relative_time below) (relative_time above)
               (position_degrees below).2 (position_degrees above).2) ∧
    get_speed_at_time axis_distance three_points 12 =
      Ok (VFloat
            (axis_distance (position_degrees below).1 (position_degrees below).2
                           (position_degrees above).1 (position_degrees above).2
             / (relative_time above - relative_time below))%Q) ∧
    get_cadence_at_time three_points 12 =
      Ok (VFloat
            (py_round (lerp 12 (relative_time below) (relative_time above)
                            (cadence below) (cadence above)) 1)).
Proof.
  apply (no_zero_divisor_inside_track axis_distance three_points
           (point 0 0 0 30) (point 0 0.003 20 36) 12).
  - cbn. repeat split; reflexivity.
  - reflexivity.
  - reflexivity.
  - discriminate.
  - reflexivity.
Defined.

Lemma two_tile_map_nonempty : raw_image_dict two_tile_map ≠ ∅.
Proof.
  intros Hempty.
  assert (Hlook : raw_image_dict two_tile_map !! (2, 3) = None)
    by (by rewrite Hempty).
  vm_compute in Hlook. discriminate Hlook.
Defined.

Lemma reindex_tiles_shifts_keys_witness :
  ∃ west south,
    is_west (raw_image_dict two_tile_map) west ∧
    is_south (raw_image_dict two_tile_map) south ∧
    (reindex_tiles approx_pi approx_atan approx_sinh approx_degrees
       two_tile_map).1 = Ok () ∧
    (∀ x y img,
       raw_image_dict two_tile_map !! (x, y) = Some img →
       image_dict
         (reindex_tiles approx_pi approx_atan approx_sinh approx_degrees
            two_tile_map).2 !! (x - west, south - y) = Some img) ∧
    (∀ key img,
       image_dict
         (reindex_tiles approx_pi approx_atan approx_sinh approx_degrees
            two_tile_map).2 !! key = Some img →
       ∃ x y, key = (x - west, south - y) ∧
              raw_image_dict two_tile_map !! (x, y) = Some img) ∧
    (∀ img,
       raw_image_dict two_tile_map !! (west, south) = Some img →
       image_dict
         (reindex_tiles approx_pi approx_atan approx_sinh approx_degrees
            two_tile_map).2 !! (0, 0) = Some img).
Proof.
  apply (reindex_tiles_shifts_keys approx_pi approx_atan approx_sinh
           approx_degrees two_tile_map).
  exact two_tile_map_nonempty.
Defined.

Lemma add_images_first_write_wins_witness :
  raw_image_dict
    (add_images approx_pi approx_atan approx_sinh approx_degrees two_tile_map
       {[ (2, 3) := "repainted"%string; (6, 5) := "east"%string ]}).2
    !! (2, 3) = Some "north-west"%string ∧
  raw_image_dict
    (add_images approx_pi approx_atan approx_sinh approx_degrees two_tile_map
       {[ (2, 3) := "repainted"%string; (6, 5) := "east"%string ]}).2
    !! (6, 5) = Some "east"%string.
Proof.
  destruct (add_images_first_write_wins approx_pi approx_atan approx_sinh
              approx_degrees two_tile_map
              {[ (2, 3) := "repainted"%string; (6, 5) := "east"%string ]})
    as [Hkept Hnew].
  split.
  - apply Hkept. by vm_compute.
  - rewrite Hnew; by vm_compute.
Defined.

Lemma unset_bounds_raise_witness :
  set_tile_bounds approx_pi approx_atan approx_sinh approx_degrees
    (init string) = (Raise ValueError, init string) ∧
  reindex_tiles approx_pi approx_atan approx_sinh approx_degrees
    (init string) = (Raise ValueError, init string) ∧
  degrees_to_graph (init string) (51.5, -0.1)%Q = Raise ValueError.
Proof.
  destruct (unset_bounds_raise approx_pi approx_atan approx_sinh
              approx_degrees (init string)) as [Hempty Hunset].
  destruct (Hempty eq_refl) as (Hset & Hreindex & _).
  split; [exact Hset|]. split; [exact Hreindex|].
  apply Hunset. left. reflexivity.
Defined.

Lemma scale_zoom_at_zero_witness :
  tile_bounds_plt two_tile_map = Some (150, 150, 0, 0) ∧
  ∃ margin, scale_zoom approx_pow two_tile_map 0 = Ok margin ∧ (margin == 5)%Q.
Proof.
  assert (Hplt : tile_bounds_plt two_tile_map = Some (150, 150, 0, 0))
    by (by vm_compute).
  split; [exact Hplt|].
  exact (scale_zoom_at_zero approx_pow two_tile_map (150, 150, 0, 0) Hplt).
Defined.

End OnSamples.

(** ** Rounding *)

Section Rounding.

Lemma round_half_even_comp (x y : Q) :
  (x == y)%Q → round_half_even x = round_half_even y.
Proof.
  intros Hxy. unfold round_half_even.
  rewrite (Qfloor_comp x y Hxy).
  assert (Hfrac : (x - inject_Z (Qfloor y) == y - inject_Z (Qfloor y))%Q)
    by (rewrite Hxy; reflexivity).
  by rewrite (Qcompare_comp _ _ Hfrac (1 # 2) (1 # 2) (Qeq_refl _)).
Qed.

Lemma py_round_comp (x y : Q) (ndigits : Z) :
  (x == y)%Q → py_round x ndigits = py_round y ndigits.
Proof.
  intros Hxy. unfold py_round.
  rewrite (round_half_even_comp (x * inject_Z (10 ^ ndigits))
             (y * inject_Z (10 ^ ndigits))); [done|].
  by rewrite Hxy.
Qed.

Lemma round_half_even_bounds (x : Q) :
  Qfloor x ≤ round_half_even x ≤ Qfloor x + 1.
Proof.
  unfold round_half_even.
  destruct (_ ?= _)%Q; [destruct (Z.even _)| |]; lia.
Qed.

Lemma round_half_even_mono (x y : Q) :
  (x <= y)%Q → round_half_even x ≤ round_half_even y.
Proof.
  intros Hxy. pose proof (Qfloor_resp_le x y Hxy) as Hfloor.
  destruct (decide (Qfloor x = Qfloor y)) as [Heq|Hne].
  - unfold round_half_even. rewrite <- Heq.
    destruct (Qcompare_spec (x - inject_Z (Qfloor x)) (1 # 2)) as [Hx|Hx|Hx];
      destruct (Qcompare_spec (y - inject_Z (Qfloor x)) (1 # 2)) as [Hy|Hy|Hy];
      try destruct (Z.even (Qfloor x)); try lia; exfalso; lra.
  - pose proof (round_half_even_bounds x). pose proof (round_half_even_bounds y).
    lia.
Qed.

Lemma py_round_mono (x y : Q) (ndigits : Z) :
  0 ≤ ndigits → (x <= y)%Q → (py_round x ndigits <= py_round y ndigits)%Q.
Proof.
  intros Hn Hxy. unfold py_round.
  assert (Hscale : (0 < inject_Z (10 ^ ndigits))%Q).
  { change 0%Q with (inject_Z 0). rewrite <- Zlt_Qlt. by apply Z.pow_pos_nonneg. }
  apply Qmult_le_compat_r; [|by apply Qlt_le_weak, Qinv_lt_0_compat].
  rewrite <- Zle_Qle. apply round_half_even_mono.
  by apply Qmult_le_compat_r; [|apply Qlt_le_weak].
Qed.

Lemma py_round_zero (ndigits : Z) : (py_round 0 ndigits == 0)%Q.
Proof.
  unfold py_round.
  rewrite (round_half_even_comp (0 * inject_Z (10 ^ ndigits)) 0)
    by apply Qmult_0_l.
  change (round_half_even 0) with 0. unfold Qdiv. apply Qmult_0_l.
Qed.

End Rounding.

(** ** The distance travelled *)

Section DistanceTravelled.

Import Sporting.

Variable geo_distance : Q → Q → Q → Q → Q.

Abbreviation leg := (leg_distance geo_distance).

Lemma leg_nonneg p q : (0 <= leg p q)%Q.
Proof. apply Qabs_nonneg. Qed.

Lemma legs_length_nonneg pts : (0 <= legs_length geo_distance pts)%Q.
Proof.
  induction pts as [|p [|q pts] IH]; cbn; try apply Qle_refl.
  pose proof (leg_nonneg q p). cbn in IH. lra.
Qed.

Lemma py_add_float_value total a x :
  num_value total = Some a →
  ∃ v, py_add_float total x = Ok (VFloat v) ∧ (v == a + x)%Q.
Proof.
  destruct total; cbn; intros [= <-]; eexists; split; done.
Qed.

Lemma py_getitem_middle {A} (pre : list A) (x : A) (post : list A) :
  py_getitem (pre ++ x :: post) (Z.of_nat (length pre) + 1 - 1) = Ok x.
Proof.
  replace (Z.of_nat (length pre) + 1 - 1) with (Z.of_nat (length pre)) by lia.
  apply py_getitem_nat. by rewrite list_lookup_middle.
Qed.


(** The loop on samples that are strictly increasing in time: no division
    fails, and the total is the distance travelled. *)
Lemma cumulative_loop_travelled pre prev rest t total a :
  strictly_increasing (prev :: rest) →
  num_value total = Some a →
  rest ≠ [] →
  ∃ v, cumulative_loop geo_distance (pre ++ prev :: rest)
         (enumerate_from (Z.of_nat (length pre)) rest) t total = Ok (VFloat v) ∧
       (v == a + travelled geo_distance prev rest t)%Q.
Proof.
  revert pre prev total a.
  induction rest as [|p rest IH]; intros pre prev total a Hinc Ha Hne; [done|].
  destruct Hinc as [Hlt Hinc].
  cbn [enumerate_from cumulative_loop travelled].
  rewrite py_getitem_middle. cbn [mbind result_mbind result_bind].
  destruct (py_gt (relative_time p) t) eqn:Hgt.
  - rewrite map_ranges_nonzero by by apply Qminus_nonzero.
    cbn [mbind result_mbind result_bind].
    apply py_add_float_value. exact Ha.
  - destruct (py_add_float_value total a (leg p prev) Ha) as (v & -> & Hv).
    cbn [mbind result_mbind result_bind].
    destruct rest as [|q rest].
    + exists v. split; [done|]. cbn. rewrite Hv. ring.
    + destruct (IH (pre ++ [prev]) p (VFloat v) v Hinc eq_refl)
        as (w & Hw & Hwv); [done|].
      rewrite <- app_assoc, length_app in Hw. cbn [length app] in Hw.
      replace (Z.of_nat (length pre + 1)) with (Z.of_nat (length pre) + 1)
        in Hw by lia.
      exists w. split; [exact Hw|]. rewrite Hwv, Hv. ring.
Qed.

(** *** The distance as a function of time *)

Lemma lerp_from_zero_le t a b d :
  (a < b)%Q → (0 <= d)%Q → (t < b)%Q → (lerp t a b 0 d <= d)%Q.
Proof.
  intros Hab Hd Ht. unfold lerp.
  setoid_replace ((t - a) * (d - 0) / (b - a) + 0)%Q
    with (d * ((t - a) / (b - a)))%Q using relation Qeq by (field; lra).
  assert (Hshare : ((t - a) / (b - a) <= 1)%Q)
    by (apply Qle_shift_div_r; lra).
  nra.
Qed.

Lemma lerp_from_zero_mono t1 t2 a b d :
  (a < b)%Q → (0 <= d)%Q → (t1 <= t2)%Q →
  (lerp t1 a b 0 d <= lerp t2 a b 0 d)%Q.
Proof.
  intros Hab Hd Ht. unfold lerp.
  setoid_replace ((t1 - a) * (d - 0) / (b - a) + 0)%Q
    with ((t1 - a) * (d / (b - a)))%Q using relation Qeq by (field; lra).
  setoid_replace ((t2 - a) * (d - 0) / (b - a) + 0)%Q
    with ((t2 - a) * (d / (b - a)))%Q using relation Qeq by (field; lra).
  assert (Hrate : (0 <= d / (b - a))%Q)
    by (apply Qle_shift_div_l; lra).
  nra.
Qed.

Lemma lerp_from_zero_sign t a b d :
  (a < b)%Q → (0 <= d)%Q →
  ((a <= t)%Q → (0 <= lerp t a b 0 d)%Q) ∧
  ((t <= a)%Q → (lerp t a b 0 d <= 0)%Q).
Proof.
  intros Hab Hd. unfold lerp.
  setoid_replace ((t - a) * (d - 0) / (b - a) + 0)%Q
    with ((t - a) * (d / (b - a)))%Q using relation Qeq by (field; lra).
  assert (Hrate : (0 <= d / (b - a))%Q)
    by (apply Qle_shift_div_l; lra).
  split; intros Ht; nra.
Qed.

Lemma travelled_nonneg prev rest t :
  strictly_increasing (prev :: rest) →
  (relative_time prev <= t)%Q →
  (0 <= travelled geo_distance prev rest t)%Q.
Proof.
  revert prev. induction rest as [|p rest IH]; intros prev Hinc Ht;
    [apply Qle_refl|].
  destruct Hinc as [Hlt Hinc]. cbn [travelled].
  destruct (py_gt (relative_time p) t) eqn:Hgt.
  - by apply lerp_from_zero_sign; [|apply leg_nonneg|].
  - apply py_gt_false in Hgt.
    pose proof (IH p Hinc Hgt). pose proof (leg_nonneg p prev). lra.
Qed.

Lemma travelled_le_length prev rest t :
  strictly_increasing (prev :: rest) →
  (travelled geo_distance prev rest t <= legs_length geo_distance (prev :: rest))%Q.
Proof.
  revert prev. induction rest as [|p rest IH]; intros prev Hinc;
    [apply Qle_refl|].
  destruct Hinc as [Hlt Hinc]. cbn [travelled].
  change (legs_length geo_distance (prev :: p :: rest))
    with (leg p prev + legs_length geo_distance (p :: rest))%Q.
  pose proof (legs_length_nonneg (p :: rest)).
  destruct (py_gt (relative_time p) t) eqn:Hgt.
  - apply py_gt_true in Hgt.
    pose proof (lerp_from_zero_le t _ _ _ Hlt (leg_nonneg p prev) Hgt). lra.
  - pose proof (IH p Hinc). lra.
Qed.

Lemma travelled_finished prev rest t :
  Forall (λ p, (relative_time p <= t)%Q) rest →
  (travelled geo_distance prev rest t == legs_length geo_distance (prev :: rest))%Q.
Proof.
  intros Hall. revert prev.
  induction Hall as [|p rest Hp Hall IH]; intros prev; [reflexivity|].
  change (legs_length geo_distance (prev :: p :: rest))
    with (leg p prev + legs_length geo_distance (p :: rest))%Q.
  cbn [travelled]. apply py_gt_false in Hp. rewrite Hp.
  by rewrite IH.
Qed.

Lemma travelled_mono prev rest t1 t2 :
  strictly_increasing (prev :: rest) →
  (t1 <= t2)%Q →
  (travelled geo_distance prev rest t1 <= travelled geo_distance prev rest t2)%Q.
Proof.
  revert prev. induction rest as [|p rest IH]; intros prev Hinc Ht;
    [apply Qle_refl|].
  destruct Hinc as [Hlt Hinc]. cbn [travelled].
  destruct (py_gt (relative_time p) t1) eqn:Hgt1;
    destruct (py_gt (relative_time p) t2) eqn:Hgt2.
  - by apply lerp_from_zero_mono; [|apply leg_nonneg|].
  - apply py_gt_true in Hgt1. apply py_gt_false in Hgt2.
    pose proof (lerp_from_zero_le t1 _ _ _ Hlt (leg_nonneg p prev) Hgt1).
    pose proof (travelled_nonneg p rest t2 Hinc Hgt2). lra.
  - apply py_gt_false in Hgt1. apply py_gt_true in Hgt2. exfalso. lra.
  - pose proof (IH p Hinc Ht). lra.
Qed.

(** *** [get_cumulative_dist_at_time] and [get_total_distance] *)

Lemma get_cumulative_travelled track first rest t :
  track_points track = first :: rest →
  rest ≠ [] →
  strictly_increasing (first :: rest) →
  get_cumulative_dist_at_time geo_distance track t =
    Ok (VFloat (py_round (travelled geo_distance first rest t) 2)).
Proof.
  intros Hpts Hne Hinc.
  unfold get_cumulative_dist_at_time, get_track_points, enumerate.
  rewrite Hpts. change (drop 1 (first :: rest)) with rest.
  destruct (cumulative_loop_travelled [] first rest t (VInt 0) 0 Hinc eq_refl Hne)
    as (v & Hv & Hval).
  cbn [app length] in Hv. change (Z.of_nat 0) with 0 in Hv. rewrite Hv.
  cbn. do 2 f_equal. apply py_round_comp. rewrite Hval. ring.
Qed.


Lemma strictly_increasing_below_last prev rest lp :
  strictly_increasing (prev :: rest) →
  last (prev :: rest) = Some lp →
  Forall (λ p, (relative_time p <= relative_time lp)%Q) (prev :: rest).
Proof.
  revert prev. induction rest as [|p rest IH]; intros prev Hinc Hlast.
  - cbn in Hlast. injection Hlast as ->. constructor; [apply Qle_refl|done].
  - destruct Hinc as [Hlt Hinc]. rewrite last_cons_cons in Hlast.
    pose proof (IH p Hinc Hlast) as Hall. constructor; [|exact Hall].
    apply Forall_cons in Hall as [Hp _]. lra.
Qed.


Lemma strictly_increasing_le pts j i a b :
  strictly_increasing pts →
  (j ≤ i)%nat → pts !! j = Some a → pts !! i = Some b →
  (relative_time a <= relative_time b)%Q.
Proof.
  intros Hinc Hji Ha. revert b.
  induction Hji as [|i Hji IH]; intros b Hb.
  - rewrite Ha in Hb. injection Hb as ->. apply Qle_refl.
  - destruct (pts !! i) as [c|] eqn:Hc.
    + pose proof (IH c eq_refl).
      pose proof (strictly_increasing_adjacent pts i c b Hinc Hc Hb). lra.
    + apply lookup_ge_None in Hc. apply lookup_lt_Some in Hb. lia.
Qed.

(** X2: on such a track the cumulative distance at the time of a sample
    is never less than at the time of an earlier sample. *)
Theorem cumulative_distance_monotone_at_samples track first rest i j p q :
  track_points track = first :: rest →
  rest ≠ [] →
  strictly_increasing (first :: rest) →
  (first :: rest) !! i = Some p →
  (first :: rest) !! j = Some q →
  (i ≤ j)%nat →
  ∃ d1 d2,
    get_cumulative_dist_at_time geo_distance track (relative_time p)
      = Ok (VFloat d1) ∧
    get_cumulative_dist_at_time geo_distance track (relative_time q)
      = Ok (VFloat d2) ∧
    (d1 <= d2)%Q.
Proof.
  intros Hpts Hne Hinc Hp Hq Hij.
  exists (py_round (travelled geo_distance first rest (relative_time p)) 2),
         (py_round (travelled geo_distance first rest (relative_time q)) 2).
  rewrite !(get_cumulative_travelled track first rest) by done.
  do 2 (split; [done|]).
  apply py_round_mono; [done|]. apply travelled_mono; [done|].
  by apply (strictly_increasing_le (first :: rest) i j).
Qed.




(** X4: on a track of at least two samples recorded at strictly
    increasing times, the cumulative distance from the first sample's time
    on is never negative; at a query time before the first sample it is
    extrapolated backwards and is never positive. *)
Theorem cumulative_distance_sign track first rest t :
  track_points track = first :: rest →
  rest ≠ [] →
  strictly_increasing (first :: rest) →
  ∃ d,
    get_cumulative_dist_at_time geo_distance track t = Ok (VFloat d) ∧
    ((relative_time first <= t)%Q → (0 <= d)%Q) ∧
    ((t <= relative_time first)%Q → (d <= 0)%Q).
Proof.
  intros Hpts Hne Hinc.
  exists (py_round (travelled geo_distance first rest t) 2).
  split; [by apply get_cumulative_travelled|]. split.
  - intros Ht. rewrite <- (py_round_zero 2).
    apply py_round_mono; [done|]. by apply travelled_nonneg.
  - intros Ht. rewrite <- (py_round_zero 2).
    apply py_round_mono; [done|].
    destruct rest as [|p rest]; [done|]. destruct Hinc as [Hlt Hinc].
    cbn [travelled].
    assert (Hgt : py_gt (relative_time p) t = true)
      by (apply py_gt_true; lra).
    rewrite Hgt. by apply lerp_from_zero_sign; [|apply leg_nonneg|].
Qed.

(** X5: a track of fewer than two samples has cumulative distance the int
    [0] at every time; its total distance is the int [0] when it has one
    sample and is not defined when it has none: [track_points[-1]] raises
    [IndexError]. *)
Theorem distance_of_short_track track :
  (length (track_points track) < 2)%nat →
  (∀ t, get_cumulative_dist_at_time geo_distance track t = Ok (VInt 0)) ∧
  get_total_distance geo_distance track =
    match track_points track with
    | [] => Raise IndexError
    | _ => Ok (VInt 0)
    end.
Proof.
  intros Hlen. unfold get_total_distance, get_cumulative_dist_at_time,
    get_track_points.
  destruct (track_points track) as [|p [|q pts]]; cbn in Hlen; [done|done|lia].
Qed.

End DistanceTravelled.

(** ** Interpolation between samples *)

Section Interpolation.

Import Sporting.

(** X6: [map_ranges] raises [ZeroDivisionError] exactly when the input
    range is a single point; otherwise it sends the ends of the input range
    to the ends of the output range. *)
Theorem map_ranges_ends in_min in_max out_min out_max :
  ((in_max == in_min)%Q →
   ∀ value,
     map_ranges value in_min in_max out_min out_max = Raise ZeroDivisionError) ∧
  (¬ (in_max == in_min)%Q →
   ∃ low high,
     map_ranges in_min in_min in_max out_min out_max = Ok low ∧
     (low == out_min)%Q ∧
     map_ranges in_max in_min in_max out_min out_max = Ok high ∧
     (high == out_max)%Q).
Proof.
  split.
  - intros Heq value. unfold map_ranges.
    rewrite py_truediv_zero; [done|]. rewrite Heq. ring.
  - intros Hne.
    assert (Hdiv : ¬ (in_max - in_min == 0)%Q) by (intros H; apply Hne; lra).
    rewrite !(map_ranges_nonzero _ _ _ _ _ Hdiv).
    do 2 eexists. split; [done|]. split; [|split; [done|]].
    + unfold lerp. field. exact Hdiv.
    + unfold lerp. field. exact Hdiv.
Qed.

Lemma lerp_between t a b v0 v1 :
  (a <= t)%Q → (t <= b)%Q → (a < b)%Q →
  ((v0 <= lerp t a b v0 v1)%Q ∧ (lerp t a b v0 v1 <= v1)%Q) ∨
  ((v1 <= lerp t a b v0 v1)%Q ∧ (lerp t a b v0 v1 <= v0)%Q).
Proof.
  intros Hat Htb Hab. unfold lerp.
  setoid_replace ((t - a) * (v1 - v0) / (b - a) + v0)%Q
    with (v0 + (v1 - v0) * ((t - a) / (b - a)))%Q
    using relation Qeq by (field; lra).
  assert (H0 : (0 <= (t - a) / (b - a))%Q) by (apply Qle_shift_div_l; lra).
  assert (H1 : ((t - a) / (b - a) <= 1)%Q) by (apply Qle_shift_div_r; lra).
  destruct (Qlt_le_dec v1 v0) as [Hv|Hv]; [right | left]; split; nra.
Qed.

Lemma first_above_at_sample pts i p q :
  strictly_increasing pts →
  pts !! i = Some p → pts !! S i = Some q →
  first_above pts (relative_time p) (S i).
Proof.
  intros Hinc Hp Hq. split.
  - exists q. split; [done|].
    by apply (strictly_increasing_adjacent pts i).
  - intros j r Hj Hr.
    apply (strictly_increasing_le pts j i r p); [done|lia|done|done].
Qed.

(** X7: on a track recorded at strictly increasing times, at the time of a
    sample that has a successor the position query returns that sample's
    position and the cadence query its cadence rounded to one place. *)
Theorem queries_pass_through_samples track i p q :
  strictly_increasing (track_points track) →
  track_points track !! i = Some p →
  track_points track !! S i = Some q →
  (∃ lat lon,
     get_position_at_time track (relative_time p) = Ok (lat, lon) ∧
     (lat == (position_degrees p).1)%Q ∧ (lon == (position_degrees p).2)%Q) ∧
  get_cadence_at_time track (relative_time p) =
    Ok (VFloat (py_round (cadence p) 1)).
Proof.
  intros Hinc Hp Hq.
  destruct (last (track_points track)) as [lp|] eqn:Hlast;
    [|apply last_None in Hlast; by rewrite Hlast in Hp].
  assert (Hpq : (relative_time p < relative_time q)%Q)
    by by apply (strictly_increasing_adjacent (track_points track) i).
  assert (Hqlast : (relative_time q <= relative_time lp)%Q).
  { rewrite last_lookup in Hlast.
    apply (strictly_increasing_le (track_points track) (S i)
             (pred (length (track_points track))) q lp); try done.
    apply lookup_lt_Some in Hq. lia. }
  assert (Hsur : get_surrounding_points_at_time track (relative_time p)
                 = Ok (Some p, Some q)).
  { rewrite (get_surrounding_first_above _ _ (S i))
      by by apply (first_above_at_sample _ i p q).
    by rewrite (py_getitem_pred _ _ _ Hp), (py_getitem_nat _ _ _ Hq). }
  assert (Hdiv : ¬ (relative_time q - relative_time p == 0)%Q)
    by by apply Qminus_nonzero.
  assert (Hge : py_ge (relative_time p) (relative_time lp) = false)
    by (apply py_ge_false; lra).
  assert (Hgt : py_gt (relative_time p) (relative_time lp) = false)
    by (apply py_gt_false; lra).
  split.
  - unfold get_position_at_time, get_track_points.
    rewrite (py_getitem_last _ _ Hlast). cbn. rewrite Hge, Hsur. cbn.
    rewrite !(map_ranges_nonzero _ _ _ _ _ Hdiv). cbn.
    do 2 eexists. split; [done|].
    split; unfold lerp; field; exact Hdiv.
  - unfold get_cadence_at_time, get_track_points.
    rewrite (py_getitem_last _ _ Hlast). cbn. rewrite Hgt, Hsur. cbn.
    rewrite (map_ranges_nonzero _ _ _ _ _ Hdiv). cbn.
    do 2 f_equal. apply py_round_comp. unfold lerp. field. exact Hdiv.
Qed.

(** X8: on a track recorded at strictly increasing times, at a query time
    from the first sample's time up to, but not reaching, the last
    sample's time, the position returned lies between the positions of two
    consecutive samples, in latitude and in longitude. *)
Theorem position_between_samples track first lp t :
  strictly_increasing (track_points track) →
  head (track_points track) = Some first →
  last (track_points track) = Some lp →
  (relative_time first <= t)%Q →
  (t < relative_time lp)%Q →
  ∃ i below above lat lon,
    track_points track !! i = Some below ∧
    track_points track !! S i = Some above ∧
    get_position_at_time track t = Ok (lat, lon) ∧
    (((position_degrees below).1 <= lat)%Q ∧ (lat <= (position_degrees above).1)%Q ∨
     ((position_degrees above).1 <= lat)%Q ∧ (lat <= (position_degrees below).1)%Q) ∧
    (((position_degrees below).2 <= lon)%Q ∧ (lon <= (position_degrees above).2)%Q ∨
     ((position_degrees above).2 <= lon)%Q ∧ (lon <= (position_degrees below).2)%Q).
Proof.
  intros Hinc Hhd Hlast Hle Hlt.
  destruct (bracket_exists _ _ _ _ Hhd Hlast Hle Hlt)
    as (i & below & above & Hi & HSi & Hbelow & Habove & Hfirst).
  assert (Hba : (relative_time below < relative_time above)%Q)
    by by apply (strictly_increasing_adjacent (track_points track) i).
  assert (Hdiv : ¬ (relative_time above - relative_time below == 0)%Q)
    by by apply Qminus_nonzero.
  assert (Hge : py_ge t (relative_time lp) = false) by by apply py_ge_false.
  exists i, below, above.
  exists (lerp t (relative_time below) (relative_time above)
               (position_degrees below).1 (position_degrees above).1),
         (lerp t (relative_time below) (relative_time above)
               (position_degrees below).2 (position_degrees above).2).
  do 2 (split; [done|]). split.
  - unfold get_position_at_time, get_track_points.
    rewrite (py_getitem_last _ _ Hlast). cbn. rewrite Hge.
    rewrite (get_surrounding_first_above _ _ _ Hfirst).
    rewrite (py_getitem_pred _ _ _ Hi), (py_getitem_nat _ _ _ HSi). cbn.
    by rewrite !(map_ranges_nonzero _ _ _ _ _ Hdiv).
  - split; apply lerp_between; lra.
Qed.

End Interpolation.

(** ** Placing tiles and points on the plot *)

Section TilePlacement.

Import GraphHandler.

Context {Image : Type}.
Variable math_pi : Q.
Variables math_atan math_sinh math_degrees : Q → Q.
Variable pow : Q → Q → Q.

Abbreviation set_tile_bounds :=
  (set_tile_bounds math_pi math_atan math_sinh math_degrees).
Abbreviation reindex_tiles :=
  (reindex_tiles math_pi math_atan math_sinh math_degrees).
Abbreviation add_images :=
  (add_images math_pi math_atan math_sinh math_degrees).
Abbreviation num2deg := (num2deg math_pi math_atan math_sinh math_degrees).

Implicit Types (self : MapClass Image) (d : gmap (Z * Z) Image).

(** The longitude of the west edge of tile column [xtile] at zoom 17. *)
Lemma num2deg_longitude xtile ytile :
  ∃ lat lon,
    num2deg xtile ytile 17 = Ok (lat, lon) ∧
    (lon == inject_Z xtile * (360 # 131072) - 180)%Q.
Proof.
  unfold GraphHandler.num2deg, py_truediv.
  change (Qeq_bool (2 ^ 17) 0) with false. cbn [mbind result_mbind result_bind].
  do 2 eexists. split; [done|].
  change (2 ^ 17)%Q with (131072 # 1)%Q. field.
Qed.

Lemma tile_ind_bounds_extremes d :
  d ≠ ∅ →
  ∃ north east south west,
    tile_ind_bounds (keys d) = Ok (north, east, south, west) ∧
    ∀ x y, is_Some (d !! (x, y)) → west ≤ x ≤ east ∧ north ≤ y ≤ south.
Proof.
  intros Hd. pose proof (keys_nonempty d Hd) as Hk.
  assert (Hfst : fst <$> keys d ≠ [])
    by (intros H; by apply fmap_nil_inv in H).
  assert (Hsnd : snd <$> keys d ≠ [])
    by (intros H; by apply fmap_nil_inv in H).
  destruct (py_min_spec _ Hsnd) as (north & Hn & _ & Hnle).
  destruct (py_max_spec _ Hfst) as (east & He & _ & Hele).
  destruct (py_max_spec _ Hsnd) as (south & Hs & _ & Hsle).
  destruct (py_min_spec _ Hfst) as (west & Hw & _ & Hwle).
  exists north, east, south, west. split.
  { unfold tile_ind_bounds. rewrite Hn. cbn. rewrite He. cbn.
    rewrite Hs. cbn. by rewrite Hw. }
  intros x y Hxy. apply elem_of_keys in Hxy.
  assert (Hx : x ∈ fst <$> keys d)
    by (apply list_elem_of_fmap; by exists (x, y)).
  assert (Hy : y ∈ snd <$> keys d)
    by (apply list_elem_of_fmap; by exists (x, y)).
  repeat split; auto.
Qed.

(** The state a successful recompute leaves. *)
Lemma reindex_tiles_state self north east south west :
  raw_image_dict self ≠ ∅ →
  tile_ind_bounds (keys (raw_image_dict self)) = Ok (north, east, south, west) →
  ∃ bottom_left top_right,
    num2deg west (south + 1) 17 = Ok bottom_left ∧
    num2deg (east + 1) north 17 = Ok top_right ∧
    reindex_tiles self =
      (Ok (),
       {| tile_size := tile_size self;
          image_dict :=
            foldl (reindex_step west south) ∅ (items (raw_image_dict self));
          raw_image_dict := raw_image_dict self;
          gpx_bounds_deg := gpx_bounds_deg self;
          tile_bounds_plt :=
            Some ((south - north + 1) * tile_size self,
                  (east - west + 1) * tile_size self, 0, 0);
          tile_bounds_deg :=
            Some (top_right.1, top_right.2, bottom_left.1, bottom_left.2) |}).
Proof.
  intros Hraw Hb.
  destruct (num2deg_zoom17 math_pi math_atan math_sinh math_degrees
              west (south + 1)) as [bl Hbl].
  destruct (num2deg_zoom17 math_pi math_atan math_sinh math_degrees
              (east + 1) north) as [tr Htr].
  exists bl, tr. do 2 (split; [done|]).
  unfold GraphHandler.reindex_tiles, GraphHandler.set_tile_bounds.
  rewrite bool_decide_eq_false_2 by (by rewrite map_size_empty_iff).
  rewrite Hb, Hbl, Htr. cbn. by rewrite Hb.
Qed.

(** X9: after a recompute over a non-empty raw tile set, with a tile size
    that is not negative, [plot_images] draws every raw tile [(x, y)] in
    the square cell of column [x - west] and row [south - y], and every
    image it draws lies inside the plot bounds: between 0 and the width
    horizontally, between 0 and the height vertically. *)
Theorem plotted_tiles_inside_bounds self :
  raw_image_dict self ≠ ∅ →
  0 ≤ tile_size self →
  ∃ height width west south,
    tile_bounds_plt (reindex_tiles self).2 = Some (height, width, 0, 0) ∧
    is_west (raw_image_dict self) west ∧
    is_south (raw_image_dict self) south ∧
    (∀ x y image,
       raw_image_dict self !! (x, y) = Some image →
       (image,
        ((x - west) * tile_size self, (x - west + 1) * tile_size self,
         (south - y) * tile_size self, (south - y + 1) * tile_size self))
       ∈ plot_images (reindex_tiles self).2) ∧
    (∀ image left right bottom top,
       (image, (left, right, bottom, top)) ∈ plot_images (reindex_tiles self).2 →
       0 ≤ left ∧ right = left + tile_size self ∧ right ≤ width ∧
       0 ≤ bottom ∧ top = bottom + tile_size self ∧ top ≤ height).
Proof.
  intros Hraw Hsize.
  destruct (tile_ind_bounds_extremes _ Hraw)
    as (north & east & south & west & Hb & Hext).
  destruct (tile_ind_bounds_spec _ Hraw)
    as (north' & east' & south' & west' & Hb' & Hwest & Hsouth).
  rewrite Hb in Hb'. injection Hb' as <- <- <- <-.
  destruct (reindex_tiles_state self _ _ _ _ Hraw Hb)
    as (bl & tr & _ & _ & Hstate).
  rewrite Hstate. cbn [snd tile_bounds_plt].
  exists ((south - north + 1) * tile_size self),
         ((east - west + 1) * tile_size self), west, south.
  split; [done|]. do 2 (split; [done|]). split.
  - intros x y image Hxy. unfold plot_images. cbn [image_dict tile_size].
    apply list_elem_of_fmap. exists ((x - west, south - y), image).
    split; [done|]. unfold items at 1. apply elem_of_map_to_list.
    apply (reindex_loop_member west south _ ∅ (x, y) image).
    + apply NoDup_fst_map_to_list.
    + by apply elem_of_map_to_list.
  - intros image left right bottom top Hin.
    unfold plot_images in Hin. cbn [image_dict tile_size] in Hin.
    apply list_elem_of_fmap in Hin as ([[i j] img] & Heq & Hin).
    cbn in Heq. injection Heq as -> -> -> -> ->.
    unfold items at 1 in Hin. apply elem_of_map_to_list in Hin.
    apply reindex_loop_source in Hin as [Hempty|([x y] & Hin & Hkey)].
    { by rewrite lookup_empty in Hempty. }
    unfold shift_key in Hkey. cbn in Hkey. injection Hkey as -> ->.
    apply elem_of_map_to_list in Hin.
    destruct (Hext x y) as [[? ?] [? ?]]; [by eexists|].
    repeat split; nia.
Qed.

(** *** Offering the same tiles twice *)

Lemma add_images_loop_noop (l : list (Z * Z * Image)) d :
  (∀ key image, (key, image) ∈ l → is_Some (d !! key)) →
  foldl add_images_step d l = d.
Proof.
  induction l as [|[k v] l IH]; intros Hall; [done|].
  cbn. destruct (Hall k v) as [w Hw]; [by left|]. rewrite Hw.
  apply IH. intros key image Hin. apply (Hall key image). by right.
Qed.

Lemma add_images_loop_covers d new_tiles key image :
  (key, image) ∈ items new_tiles →
  is_Some (foldl add_images_step d (items new_tiles) !! key).
Proof.
  intros Hin. destruct (d !! key) as [old|] eqn:Hkey.
  - exists old. by apply add_images_loop_present.
  - rewrite add_images_loop_absent;
      [|apply NoDup_fst_map_to_list|done].
    unfold items. rewrite list_to_map_to_list.
    apply elem_of_map_to_list in Hin. by exists image.
Qed.

Lemma set_raw_image_dict_same self :
  set_raw_image_dict self (raw_image_dict self) = self.
Proof. by destruct self. Qed.

Lemma reindex_tiles_again self :
  reindex_tiles (reindex_tiles self).2 = reindex_tiles self.
Proof.
  destruct (decide (size (raw_image_dict self) = 0%nat)) as [Hempty|Hsome].
  - apply map_size_empty_iff in Hempty.
    unfold GraphHandler.reindex_tiles at 2.
    rewrite (set_tile_bounds_empty _ _ _ _ self Hempty). done.
  - assert (Hraw : raw_image_dict self ≠ ∅)
      by (by rewrite <- map_size_empty_iff).
    destruct (tile_ind_bounds_extremes _ Hraw)
      as (north & east & south & west & Hb & _).
    destruct (reindex_tiles_state self _ _ _ _ Hraw Hb)
      as (bl & tr & Hbl & Htr & Hstate).
    rewrite Hstate. cbn [snd].
    match goal with |- reindex_tiles ?s = _ =>
      destruct (reindex_tiles_state s north east south west)
        as (bl' & tr' & Hbl' & Htr' & Hstate'); [done..|] end.
    rewrite Hbl in Hbl'. rewrite Htr in Htr'.
    injection Hbl' as <-. injection Htr' as <-.
    exact Hstate'.
Qed.

(** X10: offering [__add_images] the tiles it was just given changes
    nothing: the second call has the outcome of the first and leaves the
    state the first one left. *)
Theorem add_images_idempotent self new_tiles :
  add_images (add_images self new_tiles).2 new_tiles =
    add_images self new_tiles.
Proof.
  unfold GraphHandler.add_images at 1.
  rewrite add_images_raw.
  rewrite add_images_loop_noop
    by (intros key image; apply add_images_loop_covers).
  rewrite <- (add_images_raw math_pi math_atan math_sinh math_degrees).
  rewrite set_raw_image_dict_same.
  unfold GraphHandler.add_images. apply reindex_tiles_again.
Qed.

(** *** From degrees to the plot *)

(** X11: with the GPX bounds set and tile bounds whose opposite edges
    differ, [degrees_to_graph] sends the south-west corner of the tile
    bounds to the origin of the plot and the north-east corner to
    (width, height). *)
Theorem degrees_to_graph_corners self gpx north east south west
    height width c3 c4 :
  gpx_bounds_deg self = Some gpx →
  tile_bounds_deg self = Some (north, east, south, west) →
  tile_bounds_plt self = Some (height, width, c3, c4) →
  ¬ (north == south)%Q →
  ¬ (east == west)%Q →
  ∃ x0 y0 x1 y1,
    degrees_to_graph self (south, west) = Ok (x0, y0) ∧
    (x0 == 0)%Q ∧ (y0 == 0)%Q ∧
    degrees_to_graph self (north, east) = Ok (x1, y1) ∧
    (x1 == inject_Z width)%Q ∧ (y1 == inject_Z height)%Q.
Proof.
  intros Hgpx Hdeg Hplt Hns Hew.
  assert (Hlat : ¬ (north - south == 0)%Q) by (intros H; apply Hns; lra).
  assert (Hlon : ¬ (east - west == 0)%Q) by (intros H; apply Hew; lra).
  unfold degrees_to_graph. rewrite Hgpx, Hdeg, Hplt. cbn.
  rewrite !(py_truediv_nonzero _ _ Hlat), !(py_truediv_nonzero _ _ Hlon). cbn.
  do 4 eexists. split; [done|]. split; [|split; [|split; [done|split]]].
  - field. exact Hlon.
  - field. exact Hlat.
  - field. exact Hlon.
  - field. exact Hlat.
Qed.

(** X12: after a recompute over a non-empty raw tile set, with the GPX
    bounds set and north and south tile bounds that differ,
    [degrees_to_graph] sends the longitude of the west edge of tile column
    [xtile], as [num2deg] gives it, to the plot abscissa
    [(xtile - west) * tile_size], where [plot_images] draws that column. *)
Theorem tile_columns_meet_their_longitudes self gpx north east south west
    xtile ytile lat :
  raw_image_dict self ≠ ∅ →
  gpx_bounds_deg self = Some gpx →
  tile_bounds_deg (reindex_tiles self).2 = Some (north, east, south, west) →
  ¬ (north == south)%Q →
  ∃ west_tile tile_lat lon x y,
    is_west (raw_image_dict self) west_tile ∧
    num2deg xtile ytile 17 = Ok (tile_lat, lon) ∧
    degrees_to_graph (reindex_tiles self).2 (lat, lon) = Ok (x, y) ∧
    (x == inject_Z ((xtile - west_tile) * tile_size self))%Q.
Proof.
  intros Hraw Hgpx Hdeg Hns.
  destruct (tile_ind_bounds_extremes _ Hraw)
    as (n & e & s & w & Hb & Hext).
  destruct (tile_ind_bounds_spec _ Hraw)
    as (n' & e' & s' & w' & Hb' & Hwest & _).
  rewrite Hb in Hb'. injection Hb' as <- <- <- <-.
  assert (Hwe : w ≤ e).
  { destruct Hwest as [[y Hy] _]. destruct (Hext w y Hy) as [[_ ?] _]. done. }
  destruct (reindex_tiles_state self _ _ _ _ Hraw Hb)
    as (bl & tr & Hbl & Htr & Hstate).
  rewrite Hstate in Hdeg |- *. cbn [snd tile_bounds_deg] in Hdeg |- *.
  injection Hdeg as <- <- <- <-.
  destruct (num2deg_longitude w (s + 1)) as (bl_lat & bl_lon & Hbl' & Hbl_lon).
  destruct (num2deg_longitude (e + 1) n) as (tr_lat & tr_lon & Htr' & Htr_lon).
  destruct (num2deg_longitude xtile ytile) as (tile_lat & lon & Htile & Hlon).
  rewrite Hbl in Hbl'. injection Hbl' as ->.
  rewrite Htr in Htr'. injection Htr' as ->.
  cbn [fst snd] in Hns |- *.
  exists w, tile_lat, lon.
  assert (Hlat : ¬ (tr_lat - bl_lat == 0)%Q) by (intros H; apply Hns; lra).
  assert (Hcols : (0 < inject_Z (e + 1 - w))%Q).
  { change 0%Q with (inject_Z 0). rewrite <- Zlt_Qlt. lia. }
  assert (Hspan : (tr_lon - bl_lon == inject_Z (e + 1 - w) * (360 # 131072))%Q).
  { rewrite Htr_lon, Hbl_lon. unfold Z.sub.
    rewrite !inject_Z_plus, inject_Z_opp. ring. }
  assert (Hdiv : ¬ (tr_lon - bl_lon == 0)%Q).
  { rewrite Hspan. intros H. apply Qmult_integral in H as [H|H]; [lra|done]. }
  unfold degrees_to_graph. cbn [gpx_bounds_deg tile_bounds_deg tile_bounds_plt].
  rewrite Hgpx. cbn.
  rewrite (py_truediv_nonzero _ _ Hlat), (py_truediv_nonzero _ _ Hdiv). cbn.
  do 2 eexists. do 3 (split; [done|]).
  setoid_replace ((lon - bl_lon) / (tr_lon - bl_lon))%Q
    with (inject_Z (xtile - w) / inject_Z (e + 1 - w))%Q using relation Qeq.
  - replace (e - w + 1) with (e + 1 - w) by lia.
    rewrite !inject_Z_mult. field. lra.
  - assert (Hx : (inject_Z (xtile - w) == inject_Z xtile - inject_Z w)%Q)
      by (unfold Z.sub; rewrite inject_Z_plus, inject_Z_opp; ring).
    rewrite Hspan, Hlon, Hbl_lon, Hx. field. lra.
Qed.

(** *** The viewport *)

Lemma py_max2_ge a b : (a <= py_max2 a b)%Q ∧ (b <= py_max2 a b)%Q.
Proof.
  unfold py_max2. destruct (py_gt b a) eqn:Hgt.
  - apply py_gt_true in Hgt. split; lra.
  - apply py_gt_false in Hgt. split; lra.
Qed.

Lemma py_min2_le a b : (py_min2 a b <= a)%Q ∧ (py_min2 a b <= b)%Q.
Proof.
  unfold py_min2. destruct (py_gt a b) eqn:Hgt.
  - apply py_gt_true in Hgt. split; lra.
  - apply py_gt_false in Hgt. split; lra.
Qed.

Lemma foldl_py_max2_ge (l : list Q) (a : Q) :
  ∀ x, x ∈ a :: l → (x <= foldl py_max2 a l)%Q.
Proof.
  revert a. induction l as [|b l IH]; intros a x Hx; cbn.
  - apply list_elem_of_singleton in Hx. subst x. apply Qle_refl.
  - destruct (py_max2_ge a b) as [Ha Hb].
    assert (Hacc : (py_max2 a b <= foldl py_max2 (py_max2 a b) l)%Q)
      by (apply IH; by left).
    apply elem_of_cons in Hx as [->|Hx]; [lra|].
    apply elem_of_cons in Hx as [->|Hx]; [lra|].
    apply IH. by right.
Qed.

Lemma foldl_py_min2_le (l : list Q) (a : Q) :
  ∀ x, x ∈ a :: l → (foldl py_min2 a l <= x)%Q.
Proof.
  revert a. induction l as [|b l IH]; intros a x Hx; cbn.
  - apply list_elem_of_singleton in Hx. subst x. apply Qle_refl.
  - destruct (py_min2_le a b) as [Ha Hb].
    assert (Hacc : (foldl py_min2 (py_min2 a b) l <= py_min2 a b)%Q)
      by (apply IH; by left).
    apply elem_of_cons in Hx as [->|Hx]; [lra|].
    apply elem_of_cons in Hx as [->|Hx]; [lra|].
    apply IH. by right.
Qed.

Lemma py_max_floats_spec (l : list Q) :
  l ≠ [] → ∃ m, py_max_floats l = Ok m ∧ ∀ x, x ∈ l → (x <= m)%Q.
Proof.
  destruct l as [|a l]; [done|]. intros _.
  exists (foldl py_max2 a l). split; [done|]. apply foldl_py_max2_ge.
Qed.

Lemma py_min_floats_spec (l : list Q) :
  l ≠ [] → ∃ m, py_min_floats l = Ok m ∧ ∀ x, x ∈ l → (m <= x)%Q.
Proof.
  destruct l as [|a l]; [done|]. intros _.
  exists (foldl py_min2 a l). split; [done|]. apply foldl_py_min2_le.
Qed.

(** X13: when the margin [scale_zoom] gives is not negative and the
    positions map to at least one plot point, all inside the plot bounds,
    [center_viewpoint] sets a viewport that stays inside the plot bounds
    and contains every one of these points. *)
Theorem viewport_holds_every_position self positions offset margin points
    height width c3 c4 :
  scale_zoom pow self offset = Ok margin →
  (0 <= margin)%Q →
  mapM (degrees_to_graph self) positions = Ok points →
  points ≠ [] →
  tile_bounds_plt self = Some (height, width, c3, c4) →
  (∀ x y, (x, y) ∈ points →
          (0 <= x)%Q ∧ (x <= inject_Z width)%Q ∧
          (0 <= y)%Q ∧ (y <= inject_Z height)%Q) →
  ∃ left right down above,
    center_viewpoint pow self positions offset = Ok (left, right, down, above) ∧
    (0 <= left)%Q ∧ (right <= inject_Z width)%Q ∧
    (0 <= down)%Q ∧ (above <= inject_Z height)%Q ∧
    ∀ x y, (x, y) ∈ points →
           (left <= x)%Q ∧ (x <= right)%Q ∧ (down <= y)%Q ∧ (y <= above)%Q.
Proof.
  intros Hzoom Hmargin Hmap Hne Hplt Hinside.
  assert (Hfst : fst <$> points ≠ [])
    by (intros H; by apply fmap_nil_inv in H).
  assert (Hsnd : snd <$> points ≠ [])
    by (intros H; by apply fmap_nil_inv in H).
  destruct (py_max_floats_spec _ Hfst) as (max_x & Hmax_x & Hmax_x_ge).
  destruct (py_max_floats_spec _ Hsnd) as (max_y & Hmax_y & Hmax_y_ge).
  destruct (py_min_floats_spec _ Hfst) as (min_x & Hmin_x & Hmin_x_le).
  destruct (py_min_floats_spec _ Hsnd) as (min_y & Hmin_y & Hmin_y_le).
  unfold center_viewpoint.
  rewrite Hzoom. cbn [mbind result_mbind result_bind].
  rewrite Hmap. cbn [mbind result_mbind result_bind].
  rewrite Hmax_x. cbn [mbind result_mbind result_bind].
  rewrite Hmax_y. cbn [mbind result_mbind result_bind].
  rewrite Hmin_x. cbn [mbind result_mbind result_bind].
  rewrite Hmin_y. cbn [mbind result_mbind result_bind].
  rewrite Hplt. cbn [plt_item lookup list_lookup mbind result_mbind result_bind].
  set (graph_size :=
         if py_gt (Qabs (max_y - min_y)) (Qabs (max_x - min_x))
         then Qabs (max_y - min_y) else Qabs (max_x - min_x)).
  assert (Hsize : (max_x - min_x <= graph_size)%Q ∧
                  (max_y - min_y <= graph_size)%Q).
  { pose proof (Qle_Qabs (max_x - min_x)). pose proof (Qle_Qabs (max_y - min_y)).
    unfold graph_size.
    destruct (py_gt (Qabs (max_y - min_y)) (Qabs (max_x - min_x))) eqn:Hgt.
    - apply py_gt_true in Hgt. split; lra.
    - apply py_gt_false in Hgt. split; lra. }
  destruct Hsize as [Hsize_x Hsize_y].
  do 4 eexists. split; [done|].
  destruct (py_max2_ge 0 ((max_x + min_x) / 2 - graph_size / 2 - margin))
    as [Hleft0 _].
  destruct (py_min2_le ((max_x + min_x) / 2 + graph_size / 2 + margin)
              (inject_Z width)) as [_ Hrightw].
  destruct (py_max2_ge 0 ((max_y + min_y) / 2 - graph_size / 2 - margin))
    as [Hdown0 _].
  destruct (py_min2_le ((max_y + min_y) / 2 + graph_size / 2 + margin)
              (inject_Z height)) as [_ Haboveh].
  do 4 (split; [done|]).
  intros x y Hxy. destruct (Hinside x y Hxy) as (Hx0 & Hxw & Hy0 & Hyh).
  assert (Hx : x ∈ fst <$> points)
    by (apply list_elem_of_fmap; by exists (x, y)).
  assert (Hy : y ∈ snd <$> points)
    by (apply list_elem_of_fmap; by exists (x, y)).
  pose proof (Hmax_x_ge x Hx). pose proof (Hmin_x_le x Hx).
  pose proof (Hmax_y_ge y Hy). pose proof (Hmin_y_le y Hy).
  clearbody graph_size. unfold Qdiv. change (/ 2)%Q with (1 # 2)%Q.
  repeat split.
  - unfold py_max2. destruct (py_gt _ 0); lra.
  - unfold py_min2. destruct (py_gt _ (inject_Z width)); lra.
  - unfold py_max2. destruct (py_gt _ 0); lra.
  - unfold py_min2. destruct (py_gt _ (inject_Z height)); lra.
Qed.

End TilePlacement.

(** ** The ranking of the stats menu *)

Section StatsRanking.

Import StatsMenu.

Variable float_str : Q → string.

Abbreviation numeric := (λ item : string * AthleteStats,
                           is_Some (num_value (dist item.2))).

Lemma py_gt_val_numeric (a b : pyval) qa qb :
  num_value a = Some qa → num_value b = Some qb →
  py_gt_val a b = Returned (py_gt qa qb).
Proof. intros Ha Hb. unfold py_gt_val. by rewrite Ha, Hb. Qed.

(** The search for the greatest distance, on entries whose distances are
    numbers: it keeps what it started with when no entry is further, and
    otherwise returns the first of the entries that no entry exceeds. *)
Lemma find_max_numeric items max_dist max_key qm :
  Forall numeric items →
  num_value max_dist = Some qm →
  (find_max items max_dist max_key = Returned (max_dist, max_key) ∧
   Forall (λ item, (dist_of item.2 <= qm)%Q) items) ∨
  (∃ key stats before after,
     items = before ++ (key, stats) :: after ∧
     find_max items max_dist max_key = Returned (dist stats, Some key) ∧
     (qm < dist_of stats)%Q ∧
     Forall (λ item, (dist_of item.2 < dist_of stats)%Q) before ∧
     Forall (λ item, (dist_of item.2 <= dist_of stats)%Q) after).
Proof.
  intros Hnum. revert max_dist max_key qm.
  induction Hnum as [|[key stats] items [q Hq] Hnum IH];
    intros max_dist max_key qm Hm.
  { left. by split. }
  cbn [find_max]. cbn in Hq.
  rewrite (py_gt_val_numeric _ _ q qm Hq Hm).
  cbn [mbind outcome_mbind outcome_bind].
  assert (Hdist : dist_of stats = q) by (unfold dist_of; by rewrite Hq).
  destruct (py_gt q qm) eqn:Hgt.
  - apply py_gt_true in Hgt. right.
    destruct (IH (dist stats) (Some key) q Hq)
      as [[Hfind Hall]
         |(key' & stats' & before & after & -> & Hfind & Hlt & Hbefore & Hafter)].
    + exists key, stats, [], items. split; [done|]. split; [done|].
      rewrite Hdist. by repeat split.
    + exists key', stats', ((key, stats) :: before), after.
      split; [done|]. split; [done|]. split; [lra|]. split; [|done].
      constructor; [|done]. cbn. by rewrite Hdist.
  - apply py_gt_false in Hgt.
    destruct (IH max_dist max_key qm Hm)
      as [[Hfind Hall]
         |(key' & stats' & before & after & -> & Hfind & Hlt & Hbefore & Hafter)].
    + left. split; [done|]. constructor; [|done]. cbn. by rewrite Hdist.
    + right. exists key', stats', ((key, stats) :: before), after.
      split; [done|]. split; [done|]. split; [done|]. split; [|done].
      constructor; [|done]. cbn. rewrite Hdist. lra.
Qed.

(** *** Dictionaries in insertion order *)

Lemma list_find_key {A} (d : list (string * A)) k v :
  NoDup d.*1 → (k, v) ∈ d →
  ∃ i, list_find (λ item, item.1 = k) d = Some (i, (k, v)).
Proof.
  induction d as [|[k1 v1] d IH]; intros Hnd Hin.
  - by apply elem_of_nil in Hin.
  - cbn in Hnd. apply NoDup_cons in Hnd as [Hfresh Hnd]. cbn.
    apply elem_of_cons in Hin as [[= <- <-]|Hin].
    + exists 0%nat. by rewrite decide_True.
    + rewrite decide_False.
      * destruct (IH Hnd Hin) as [i ->]. by exists (S i).
      * cbn. intros ->. apply Hfresh. apply list_elem_of_fmap.
        by exists (k, v).
Qed.

Lemma dict_getitem_present {A} (d : list (string * A)) k v :
  NoDup d.*1 → (k, v) ∈ d → dict_getitem d (Some k) = Returned v.
Proof.
  intros Hnd Hin. unfold dict_getitem.
  by destruct (list_find_key d k v Hnd Hin) as [i ->].
Qed.

Lemma dict_delitem_present {A} (d : list (string * A)) k v :
  NoDup d.*1 → (k, v) ∈ d →
  dict_delitem d (Some k) = Returned (filter (λ item, item.1 ≠ k) d).
Proof.
  intros Hnd Hin. unfold dict_delitem.
  by destruct (list_find_key d k v Hnd Hin) as [i ->].
Qed.

Lemma delete_key_absent {A} (d : list (string * A)) k :
  k ∉ d.*1 → filter (λ item, item.1 ≠ k) d = d.
Proof.
  induction d as [|[k1 v1] d IH]; intros Hk; [done|].
  cbn in Hk. apply not_elem_of_cons in Hk as [Hne Hk].
  rewrite filter_cons_True by (cbn; congruence). by rewrite IH.
Qed.

Lemma delete_key_permutation {A} (d : list (string * A)) k v :
  NoDup d.*1 → (k, v) ∈ d →
  d ≡ₚ (k, v) :: filter (λ item, item.1 ≠ k) d.
Proof.
  induction d as [|[k1 v1] d IH]; intros Hnd Hin.
  - by apply elem_of_nil in Hin.
  - cbn in Hnd. apply NoDup_cons in Hnd as [Hfresh Hnd].
    apply elem_of_cons in Hin as [[= <- <-]|Hin].
    + rewrite filter_cons_False by (cbn; tauto).
      by rewrite delete_key_absent.
    + assert (Hne : k1 ≠ k).
      { intros ->. apply Hfresh. apply list_elem_of_fmap. by exists (k, v). }
      rewrite filter_cons_True by done.
      rewrite (IH Hnd Hin) at 1. apply Permutation_swap.
Qed.

Lemma delete_key_NoDup {A} (d : list (string * A)) k :
  NoDup d.*1 → NoDup (filter (λ item, item.1 ≠ k) d).*1.
Proof.
  induction d as [|[k1 v1] d IH]; intros Hnd; [done|].
  cbn in Hnd. apply NoDup_cons in Hnd as [Hfresh Hnd].
  destruct (decide (k1 ≠ k)) as [Hne|Heq].
  - rewrite filter_cons_True by done. cbn. apply NoDup_cons. split; [|auto].
    intros Hin. apply Hfresh. apply list_elem_of_fmap in Hin as (item & -> & Hin).
    apply list_elem_of_filter in Hin as [_ Hin].
    apply list_elem_of_fmap. by exists item.
  - rewrite filter_cons_False by done. auto.
Qed.

(** *** One turn of the loop *)

Lemma rank_step_picks data rows :
  NoDup data.*1 →
  Forall numeric data →
  Exists (λ item, (-1 < dist_of item.2)%Q) data →
  ∃ key stats before after,
    data = before ++ (key, stats) :: after ∧
    (-1 < dist_of stats)%Q ∧
    Forall (λ item, (dist_of item.2 < dist_of stats)%Q) before ∧
    Forall (λ item, (dist_of item.2 <= dist_of stats)%Q) after ∧
    rank_step float_str data rows =
      Returned (filter (λ item, item.1 ≠ key) data,
                rows ++ [make_row float_str (key, stats)]).
Proof.
  intros Hnd Hnum Hex.
  destruct (find_max_numeric data (VInt (-1)) None (-1) Hnum eq_refl)
    as [[_ Hall]
       |(key & stats & before & after & Hdata & Hfind & Hlt & Hbefore & Hafter)].
  { exfalso. apply Exists_exists in Hex as (item & Hin & Hitem).
    rewrite Forall_forall in Hall. specialize (Hall item Hin). cbn in Hall. lra. }
  exists key, stats, before, after. do 4 (split; [done|]).
  assert (Hin : (key, stats) ∈ data).
  { rewrite Hdata. apply elem_of_app. right. by left. }
  unfold rank_step. rewrite Hfind. cbn [mbind outcome_mbind outcome_bind].
  rewrite Forall_forall in Hnum. destruct (Hnum _ Hin) as [q Hq]. cbn in Hq.
  rewrite (py_gt_val_numeric (dist stats) (VInt 100000) q 100000 Hq eq_refl).
  cbn [mbind outcome_mbind outcome_bind].
  rewrite !(dict_getitem_present data key stats Hnd Hin).
  cbn [mbind outcome_mbind outcome_bind].
  rewrite (dict_delitem_present data key stats Hnd Hin).
  cbn [mbind outcome_mbind outcome_bind].
  unfold make_row, dist_of. cbn [fst snd]. by rewrite Hq.
Qed.

Lemma rank_step_stuck data rows :
  Forall numeric data →
  Forall (λ item, (dist_of item.2 <= -1)%Q) data →
  rank_step float_str data rows = Raised KeyError.
Proof.
  intros Hnum Hlow.
  destruct (find_max_numeric data (VInt (-1)) None (-1) Hnum eq_refl)
    as [[Hfind _]|(key & stats & before & after & Hdata & _ & Hlt & _)].
  - unfold rank_step. by rewrite Hfind.
  - exfalso. rewrite Forall_forall in Hlow.
    assert (Hin : (key, stats) ∈ data).
    { rewrite Hdata. apply elem_of_app. right. by left. }
    specialize (Hlow _ Hin). cbn in Hlow. lra.
Qed.

Lemma started_or_not (data : list (string * AthleteStats)) :
  Exists (λ item, (-1 < dist_of item.2)%Q) data ∨
  Forall (λ item, (dist_of item.2 <= -1)%Q) data.
Proof.
  induction data as [|item data [IH|IH]].
  - by right.
  - left. by right.
  - destruct (Qlt_le_dec (-1) (dist_of item.2)) as [Hlt|Hle].
    + left. by left.
    + right. by constructor.
Qed.

(** *** The whole loop *)

Lemma ranks_before_sublist data data' a b :
  data' `sublist_of` data → ranks_before data' a b → ranks_before data a b.
Proof.
  intros Hsub [Hlt|[Heq Hab]]; [by left|]. right. split; [done|]. by etrans.
Qed.

Lemma StronglySorted_weaken {A} (R R' : A → A → Prop) (l : list A) :
  (∀ a b, R a b → R' a b) → StronglySorted R l → StronglySorted R' l.
Proof.
  intros Himpl Hsorted. induction Hsorted as [|a l Hsorted IH Hall];
    constructor; [done|].
  eapply Forall_impl; [exact Hall|]. auto.
Qed.

(** The entry the loop picks is ranked before every other entry. *)
Lemma picked_ranks_first before after key stats x :
  Forall (λ item, (dist_of item.2 < dist_of stats)%Q) before →
  Forall (λ item, (dist_of item.2 <= dist_of stats)%Q) after →
  x ∈ before ++ (key, stats) :: after →
  x ≠ (key, stats) →
  ranks_before (before ++ (key, stats) :: after) (key, stats) x.
Proof.
  intros Hbefore Hafter Hin Hne.
  rewrite Forall_forall in Hbefore. rewrite Forall_forall in Hafter.
  apply elem_of_app in Hin as [Hin|Hin].
  { left. by apply Hbefore. }
  apply elem_of_cons in Hin as [->|Hin]; [done|].
  destruct (Qlt_le_dec (dist_of x.2) (dist_of stats)) as [Hlt|Hge];
    [by left|].
  right. split.
  - apply Qle_antisym; [by apply Hafter | done].
  - apply sublist_inserts_l. apply sublist_skip.
    apply singleton_sublist_l. exact Hin.
Qed.

Lemma rank_loop_sorts turns data rows :
  length data = turns →
  NoDup data.*1 →
  Forall numeric data →
  Forall (λ item, (-1 < dist_of item.2)%Q) data →
  ∃ order,
    order ≡ₚ data ∧
    StronglySorted (ranks_before data) order ∧
    rank_loop float_str turns data rows =
      Some (Returned (rows ++ (make_row float_str <$> order)), []).
Proof.
  revert data rows.
  induction turns as [|turns IH]; intros data rows Hlen Hnd Hnum Hpos.
  { apply nil_length_inv in Hlen. subst data. exists [].
    split; [done|]. split; [constructor|]. cbn. by rewrite app_nil_r. }
  destruct data as [|item data]; [done|].
  assert (Hex : Exists (λ item, (-1 < dist_of item.2)%Q) (item :: data))
    by (left; by apply Forall_cons in Hpos as [? _]).
  destruct (rank_step_picks (item :: data) rows Hnd Hnum Hex)
    as (key & stats & before & after & Hdata & _ & Hbefore & Hafter & Hstep).
  assert (Hin : (key, stats) ∈ item :: data).
  { rewrite Hdata. apply elem_of_app. right. by left. }
  pose proof (delete_key_permutation _ key stats Hnd Hin) as Hperm.
  pose proof (sublist_filter (λ item0 : string * AthleteStats, item0.1 ≠ key)
                (item :: data)) as Hsublist.
  set (data' := filter (λ item0, item0.1 ≠ key) (item :: data)) in *.
  assert (Hsub : ∀ x, x ∈ data' → x ∈ item :: data ∧ x ≠ (key, stats)).
  { intros x Hx. apply list_elem_of_filter in Hx as [Hne Hx].
    split; [done|]. by intros ->. }
  destruct (IH data' (rows ++ [make_row float_str (key, stats)]))
    as (order & Horder & Hsorted & Hloop).
  - apply Permutation_length in Hperm. cbn [length] in Hperm, Hlen. lia.
  - by apply delete_key_NoDup.
  - rewrite Forall_forall in Hnum |- *. intros x Hx. by apply Hnum, Hsub.
  - rewrite Forall_forall in Hpos |- *. intros x Hx. by apply Hpos, Hsub.
  - exists ((key, stats) :: order). split; [by rewrite Horder, Hperm|].
    split.
    + constructor.
      * eapply StronglySorted_weaken; [|exact Hsorted].
        intros a b. by apply ranks_before_sublist.
      * apply Forall_forall. intros x Hx. rewrite Horder in Hx.
        destruct (Hsub x Hx) as [Hxin Hxne].
        rewrite Hdata in Hxin |- *. by apply picked_ranks_first.
    + cbn [rank_loop]. rewrite Hstep, Hloop.
      by rewrite <- app_assoc.
Qed.

Lemma rank_loop_stops turns data rows :
  length data = turns →
  NoDup data.*1 →
  Forall numeric data →
  Exists (λ item, (dist_of item.2 <= -1)%Q) data →
  ∃ remaining,
    rank_loop float_str turns data rows = Some (Raised KeyError, remaining) ∧
    ∀ item, item ∈ remaining ↔ item ∈ data ∧ (dist_of item.2 <= -1)%Q.
Proof.
  revert data rows.
  induction turns as [|turns IH]; intros data rows Hlen Hnd Hnum Hlow.
  { apply nil_length_inv in Hlen. subst data. by apply Exists_nil in Hlow. }
  destruct data as [|item data]; [done|].
  destruct (started_or_not (item :: data)) as [Hex|Hall].
  - destruct (rank_step_picks (item :: data) rows Hnd Hnum Hex)
      as (key & stats & before & after & Hdata & Hpos & _ & _ & Hstep).
    assert (Hin : (key, stats) ∈ item :: data).
    { rewrite Hdata. apply elem_of_app. right. by left. }
    pose proof (delete_key_permutation _ key stats Hnd Hin) as Hperm.
    set (data' := filter (λ item0, item0.1 ≠ key) (item :: data)) in *.
    assert (Hmem : ∀ x, x ∈ data' ↔ x ∈ item :: data ∧ x ≠ (key, stats)).
    { intros x. split.
      - intros Hx. apply list_elem_of_filter in Hx as [Hne Hx].
        split; [done|]. by intros ->.
      - intros [Hx Hne]. rewrite Hperm in Hx.
        apply elem_of_cons in Hx as [->|Hx]; done. }
    destruct (IH data' (rows ++ [make_row float_str (key, stats)]))
      as (remaining & Hloop & Hrem).
    + apply Permutation_length in Hperm. cbn [length] in Hperm, Hlen. lia.
    + by apply delete_key_NoDup.
    + rewrite Forall_forall in Hnum |- *. intros x Hx. by apply Hnum, Hmem.
    + apply Exists_exists in Hlow as (x & Hx & Hxlow).
      apply Exists_exists. exists x. split; [|done].
      apply Hmem. split; [done|]. intros ->. cbn in Hxlow. lra.
    + exists remaining. split; [cbn [rank_loop]; by rewrite Hstep|].
      intros x. rewrite Hrem, Hmem. split; [tauto|].
      intros [Hx Hxlow]. split; [|done]. split; [done|].
      intros ->. cbn in Hxlow. lra.
  - exists (item :: data). split.
    + cbn [rank_loop]. by rewrite rank_step_stuck.
    + intros x. rewrite Forall_forall in Hall. split; [|tauto].
      intros Hx. split; [done|]. by apply Hall.
Qed.

(** X14: handed a non-empty dictionary with distinct names whose
    distances are numbers above -1, [display_text] puts on the label the
    text of the athletes ranked from the furthest to the nearest, athletes
    at the same distance in the order of the dictionary (each athlete
    once, a distance above 100000 shown as FIN), and leaves the dictionary
    of its caller empty. *)
Theorem display_text_ranks data :
  NoDup data.*1 →
  Forall (λ item, ∃ q, num_value (dist item.2) = Some q ∧ (-1 < q)%Q) data →
  data ≠ [] →
  ∃ order text,
    order ≡ₚ data ∧
    StronglySorted (ranks_before data) order ∧
    render_text float_str (make_row float_str <$> order) = Returned text ∧
    display_text float_str data = Some (Returned text, []).
Proof.
  intros Hnd Hdata Hne.
  assert (Hnum : Forall numeric data).
  { eapply Forall_impl; [exact Hdata|]. intros item (q & Hq & _). by exists q. }
  assert (Hpos : Forall (λ item, (-1 < dist_of item.2)%Q) data).
  { eapply Forall_impl; [exact Hdata|]. intros item (q & Hq & Hlt).
    unfold dist_of. by rewrite Hq. }
  destruct (rank_loop_sorts (length data) data [] eq_refl Hnd Hnum Hpos)
    as (order & Horder & Hsorted & Hloop).
  assert (Hrows : make_row float_str <$> order ≠ []).
  { intros Hnil. apply fmap_nil_inv in Hnil. subst order.
    apply Permutation_nil_l in Horder. by subst data. }
  assert (Htext : ∃ text,
            render_text float_str (make_row float_str <$> order)
              = Returned text).
  { unfold render_text.
    destruct (make_row float_str <$> order) as [|row rows]; [done|].
    cbn. eauto. }
  destruct Htext as [text Htext]. exists order, text.
  do 2 (split; [done|]). split; [done|].
  unfold display_text. rewrite Hloop. cbn [app]. by rewrite Htext.
Qed.

(** X15: handed a dictionary with distinct names whose distances are
    numbers, one of them -1 or less, [display_text] raises [KeyError]; by
    then it has deleted from the dictionary of its caller every athlete
    whose distance is above -1, and no other. *)
Theorem display_text_behind_start data :
  NoDup data.*1 →
  Forall numeric data →
  Exists (λ item, (dist_of item.2 <= -1)%Q) data →
  ∃ remaining,
    display_text float_str data = Some (Raised KeyError, remaining) ∧
    ∀ item, item ∈ remaining ↔ item ∈ data ∧ (dist_of item.2 <= -1)%Q.
Proof.
  intros Hnd Hnum Hlow.
  destruct (rank_loop_stops (length data) data [] eq_refl Hnd Hnum Hlow)
    as (remaining & Hloop & Hrem).
  exists remaining. split; [|done].
  unfold display_text. by rewrite Hloop.
Qed.

End StatsRanking.

(** ** Fetching the tiles *)

Section TileFetching.

Import TileFetch.

Context {Image Bytes : Type}.
Variable working_directory : string.
Variable image_open : Bytes → result Image.
Variable save_jpg : Image → Bytes.
Variable urlopen_read : string → result Bytes.
Variable math_pi : Q.
Variables math_radians math_tan math_cos math_ln : Q → Q.

Abbreviation cache_name := (cache_name working_directory).
Abbreviation get_img :=
  (get_img working_directory image_open save_jpg urlopen_read).
Abbreviation deg2num :=
  (deg2num math_pi math_radians math_tan math_cos math_ln).
Abbreviation get_all_images_in_bounds :=
  (get_all_images_in_bounds working_directory image_open save_jpg
     urlopen_read math_pi math_radians math_tan math_cos math_ln).

Implicit Types (files : gmap string Bytes) (tiles : gmap (Z * Z) Image).

Lemma elem_of_py_range start stop i :
  i ∈ py_range start stop ↔ start ≤ i < stop.
Proof.
  unfold py_range. rewrite list_elem_of_fmap. split.
  - intros (n & -> & Hn). apply elem_of_seq in Hn. lia.
  - intros Hi. exists (Z.to_nat (i - start)). split; [lia|].
    apply elem_of_seq. lia.
Qed.

Lemma string_app_inv_head (p s1 s2 : string) :
  (p ++ s1 = p ++ s2)%string → s1 = s2.
Proof.
  induction p as [|c p IH]; cbn; [done|]. intros [= H]. auto.
Qed.

Lemma os_path_join_inj a b1 b2 :
  os_path_join a b1 = os_path_join a b2 → b1 = b2.
Proof.
  unfold os_path_join. destruct a as [|c a]; [done|].
  destruct (ends_with_slash _); intros H.
  - by apply string_app_inv_head in H.
  - apply string_app_inv_head in H. by apply (string_app_inv_head "/") in H.
Qed.

Lemma cache_name_type_inj x y zoom t1 t2 :
  cache_name x y zoom t1 = cache_name x y zoom t2 → t1 = t2.
Proof.
  unfold TileFetch.cache_name. intros H. apply os_path_join_inj in H.
  repeat apply string_app_inv_head in H. exact H.
Qed.

Abbreviation cache_loop := (cache_loop working_directory image_open).

Lemma cache_loop_app endings1 endings2 files x y zoom img :
  cache_loop (endings1 ++ endings2) files x y zoom img =
    (img' ← cache_loop endings1 files x y zoom img;
     cache_loop endings2 files x y zoom img').
Proof.
  revert img. induction endings1 as [|f_type endings1 IH]; intros img; [done|].
  cbn [app TileFetch.cache_loop].
  destruct (files !! cache_name x y zoom f_type) as [other|]; [|apply IH].
  destruct (image_open other) as [opened|e]; [|done]. apply IH.
Qed.

Lemma cache_loop_absent endings files x y zoom img :
  (∀ f_type, f_type ∈ endings → files !! cache_name x y zoom f_type = None) →
  cache_loop endings files x y zoom img = Ok img.
Proof.
  induction endings as [|f_type endings IH]; intros Habsent; [done|].
  cbn [TileFetch.cache_loop]. rewrite Habsent by by left.
  apply IH. intros t Ht. apply Habsent. by right.
Qed.

Lemma cache_loop_opens endings files x y zoom img :
  (∀ f_type other,
     f_type ∈ endings →
     files !! cache_name x y zoom f_type = Some other →
     is_ok (image_open other) = true) →
  ∃ img', cache_loop endings files x y zoom img = Ok img'.
Proof.
  revert img. induction endings as [|f_type endings IH]; intros img Hopen;
    [by exists img|].
  assert (Hrest : ∀ t other, t ∈ endings →
            files !! cache_name x y zoom t = Some other →
            is_ok (image_open other) = true)
    by (intros t other Ht; apply Hopen; by right).
  cbn [TileFetch.cache_loop].
  destruct (files !! cache_name x y zoom f_type) as [other|] eqn:Hother;
    [|by apply IH].
  assert (Hok : is_ok (image_open other) = true)
    by (apply (Hopen f_type); [by left | done]).
  destruct (image_open other) as [opened|e]; [|done]. by apply IH.
Qed.

(** X16: a cached [.png] file of a tile wins over its cached [.jpg] and
    [.jpeg] files, and a cached [.jpeg] over a [.jpg]: when the files
    looked at before it can be opened, [get_img] answers with the last
    cache file in the order jpg, jpeg, png, without a download and without
    touching the files. *)
Theorem last_cached_type_wins x y zoom files content :
  (∀ f_type other,
     f_type ∈ ["jpg"; "jpeg"]%string →
     files !! cache_name x y zoom f_type = Some other →
     is_ok (image_open other) = true) →
  (files !! cache_name x y zoom "png" = Some content →
   get_img x y zoom files = (image_open content, files)) ∧
  (files !! cache_name x y zoom "png" = None →
   files !! cache_name x y zoom "jpeg" = Some content →
   get_img x y zoom files = (image_open content, files)).
Proof.
  intros Hopen. split.
  - intros Hpng. unfold TileFetch.get_img.
    change ["jpg"; "jpeg"; "png"]%string
      with (["jpg"%string; "jpeg"%string] ++ ["png"%string]).
    rewrite cache_loop_app.
    destruct (cache_loop_opens ["jpg"; "jpeg"]%string files x y zoom None Hopen)
      as [img' ->].
    cbn. rewrite Hpng. by destruct (image_open content).
  - intros Hpng Hjpeg. unfold TileFetch.get_img.
    change ["jpg"; "jpeg"; "png"]%string
      with (["jpg"%string] ++ ["jpeg"%string; "png"%string]).
    rewrite cache_loop_app.
    destruct (cache_loop_opens ["jpg"]%string files x y zoom None) as [img' ->].
    { intros t other Ht. apply Hopen. apply list_elem_of_singleton in Ht.
      subst t. by left. }
    cbn. rewrite Hjpeg, Hpng. by destruct (image_open content).
Qed.

(** X17: when a tile has no cache file and its download can be opened,
    [get_img] returns the downloaded image and writes it to the [.jpg]
    cache file of the tile, changing no other file; asked for the tile
    again, it reads that file back and leaves the files alone, whatever
    the network would answer. *)
Theorem downloaded_tile_is_cached x y zoom files content img :
  (∀ f_type, f_type ∈ ["jpg"; "jpeg"; "png"]%string →
             files !! cache_name x y zoom f_type = None) →
  urlopen_read (image_url x y zoom) = Ok content →
  image_open content = Ok img →
  get_img x y zoom files =
    (Ok img, <[cache_name x y zoom "jpg" := save_jpg img]> files) ∧
  ∀ other_network : string → result Bytes,
    TileFetch.get_img working_directory image_open save_jpg other_network
      x y zoom (<[cache_name x y zoom "jpg" := save_jpg img]> files) =
    (image_open (save_jpg img),
     <[cache_name x y zoom "jpg" := save_jpg img]> files).
Proof.
  intros Habsent Hnet Hopen. split.
  - unfold TileFetch.get_img. rewrite (cache_loop_absent _ _ _ _ _ _ Habsent).
    by rewrite Hnet, Hopen.
  - intros other_network. unfold TileFetch.get_img.
    cbn [TileFetch.cache_loop]. rewrite lookup_insert_eq.
    rewrite !lookup_insert_ne
      by (intros H; by apply cache_name_type_inj in H).
    rewrite !Habsent by (by repeat first [left | right]).
    by destruct (image_open (save_jpg img)).
Qed.

(** *** All the tiles of a track *)

Section Reachable.

(** Every download answers and every content can be opened. *)
Hypothesis network_answers : ∀ url, is_ok (urlopen_read url) = true.
Hypothesis contents_open : ∀ content, is_ok (image_open content) = true.

Lemma get_img_succeeds x y zoom files :
  ∃ img files', get_img x y zoom files = (Ok img, files') ∧ files ⊆ files'.
Proof.
  unfold TileFetch.get_img.
  destruct (cache_loop_opens ["jpg"; "jpeg"; "png"]%string files x y zoom None)
    as [[img|] Hloop]; [intros; apply contents_open| |].
  - rewrite Hloop. by exists img, files.
  - rewrite Hloop.
    pose proof (network_answers (image_url x y zoom)) as Hnet.
    destruct (urlopen_read (image_url x y zoom)) as [content|e]; [|done].
    pose proof (contents_open content) as Hopen.
    destruct (image_open content) as [img|e]; [|done].
    eexists _, _. split; [done|]. apply insert_subseteq.
    assert (Hcached : cache_loop ["jpg"]%string files x y zoom None
                      = Ok None).
    { change ["jpg"; "jpeg"; "png"]%string
        with (["jpg"%string] ++ ["jpeg"%string; "png"%string]) in Hloop.
      rewrite cache_loop_app in Hloop.
      destruct (cache_loop ["jpg"]%string files x y zoom None)
        as [[first|]|e] eqn:Hfirst; [|done|done].
      exfalso. cbn [mbind result_mbind result_bind] in Hloop.
      cbn [TileFetch.cache_loop] in Hloop.
      destruct (files !! cache_name x y zoom "jpeg") as [c1|].
      - destruct (image_open c1); [|done]. cbn in Hloop.
        destruct (files !! cache_name x y zoom "png") as [c2|]; [|done].
        by destruct (image_open c2).
      - destruct (files !! cache_name x y zoom "png") as [c2|]; [|done].
        by destruct (image_open c2). }
    cbn [TileFetch.cache_loop] in Hcached.
    destruct (files !! cache_name x y zoom "jpg") as [c|]; [|done].
    by destruct (image_open c).
Qed.

Lemma rows_loop_fills ys x tiles files :
  ∃ tiles' files',
    rows_loop working_directory image_open save_jpg urlopen_read
      ys x tiles files = (Ok tiles', files') ∧
    files ⊆ files' ∧
    ∀ key, is_Some (tiles' !! key) ↔
           is_Some (tiles !! key) ∨ (key.1 = x ∧ key.2 ∈ ys).
Proof.
  revert tiles files. induction ys as [|y ys IH]; intros tiles files.
  - exists tiles, files. split; [done|]. split; [done|].
    intros key. split; [by left|]. intros [?|[_ Hin]]; [done|].
    by apply elem_of_nil in Hin.
  - cbn [rows_loop].
    destruct (tiles !! (x, y)) as [old|] eqn:Hold.
    + destruct (IH tiles files) as (tiles' & files' & -> & Hsub & Hkeys).
      exists tiles', files'. split; [done|]. split; [done|].
      intros key. rewrite Hkeys, elem_of_cons. split; [tauto|].
      intros [?|[Hx [Hy|?]]]; [tauto| |tauto].
      left. destruct key as [kx ky]. cbn in Hx, Hy. subst. by exists old.
    + destruct (get_img_succeeds x y 17 files) as (img & files1 & -> & Hsub1).
      destruct (IH (<[(x, y) := img]> tiles) files1)
        as (tiles' & files' & -> & Hsub & Hkeys).
      exists tiles', files'. split; [done|]. split; [by etrans|].
      intros key. rewrite Hkeys, elem_of_cons.
      destruct (decide (key = (x, y))) as [->|Hne].
      * rewrite lookup_insert_eq. cbn. split; [|by left]. intros _.
        right. split; [done|]. by left.
      * rewrite lookup_insert_ne by done. split; [tauto|].
        intros [?|[Hx [Hy|?]]]; [tauto| |tauto].
        destruct key as [kx ky]. cbn in Hx, Hy. by subst.
Qed.

Lemma columns_loop_fills xs ys tiles files :
  ∃ tiles' files',
    columns_loop working_directory image_open save_jpg urlopen_read
      xs ys tiles files = (Ok tiles', files') ∧
    files ⊆ files' ∧
    ∀ key, is_Some (tiles' !! key) ↔
           is_Some (tiles !! key) ∨ (key.1 ∈ xs ∧ key.2 ∈ ys).
Proof.
  revert tiles files. induction xs as [|x xs IH]; intros tiles files.
  - exists tiles, files. split; [done|]. split; [done|].
    intros key. split; [by left|]. intros [?|[Hin _]]; [done|].
    by apply elem_of_nil in Hin.
  - cbn [columns_loop].
    destruct (rows_loop_fills ys x tiles files)
      as (tiles1 & files1 & -> & Hsub1 & Hkeys1).
    destruct (IH tiles1 files1) as (tiles' & files' & -> & Hsub & Hkeys).
    exists tiles', files'. split; [done|]. split; [by etrans|].
    intros key. rewrite Hkeys, Hkeys1, elem_of_cons. split; [|intros [?|[[->|?] ?]]]; tauto.
Qed.

(** X18: when the two corners of the bounds have tile numbers, every
    download answers and every content can be opened,
    [get_all_images_in_bounds] returns a tile for exactly the tile indexes
    from one column west of the bottom-left tile to the column of the
    top-right tile, and from one row north of the top-right tile to the
    row of the bottom-left tile; no cache file is lost on the way. *)
Theorem fetched_tiles_cover_bounds bounds0 bounds1 bounds2 bounds3 files
    bottom_left top_right :
  deg2num bounds3 bounds2 17 = Ok bottom_left →
  deg2num bounds1 bounds0 17 = Ok top_right →
  ∃ tiles files',
    get_all_images_in_bounds (bounds0, bounds1, bounds2, bounds3) files
      = (Ok tiles, files') ∧
    files ⊆ files' ∧
    ∀ x y, is_Some (tiles !! (x, y)) ↔
           bottom_left.1 - 1 ≤ x ≤ top_right.1 ∧
           top_right.2 - 1 ≤ y ≤ bottom_left.2.
Proof.
  intros Hbl Htr. unfold TileFetch.get_all_images_in_bounds.
  rewrite Hbl, Htr.
  destruct (columns_loop_fills
              (py_range (bottom_left.1 - 1) (top_right.1 + 1))
              (py_range (top_right.2 - 1) (bottom_left.2 + 1)) ∅ files)
    as (tiles & files' & -> & Hsub & Hkeys).
  exists tiles, files'. do 2 (split; [done|]).
  intros x y. rewrite Hkeys, lookup_empty, !elem_of_py_range. cbn.
  split.
  - intros [Hnone|?]; [by destruct Hnone | lia].
  - intros ?. right. lia.
Qed.

End Reachable.

End TileFetching.

(** ** The pace *)

Section Pace.

Import Sporting.

Variable float_str : Q → string.

Lemma py_int_of_integer (z : Z) : py_int (inject_Z z) = z.
Proof.
  unfold py_int. destruct (Qle_bool 0 (inject_Z z)).
  - apply Qfloor_Z.
  - apply Qceiling_Z.
Qed.


End Pace.

(** ** The athletes drawn over the tiles *)

Section AthleteOverlay.

Import GraphHandler Overlay.

Context {Image Bytes Colour : Type}.
Variable stale_remove : exn.
Abbreviation World := (Overlay.World Image Bytes Colour).
Abbreviation keeps := (@keeps_owned Image Bytes Colour _).
Abbreviation remove_point := (@Overlay.remove_point Image Bytes Colour stale_remove).
Abbreviation remove_drawn_track :=
  (@Overlay.remove_drawn_track Image Bytes Colour stale_remove).
Abbreviation remove_lines :=
  (@Overlay.remove_lines Image Bytes Colour stale_remove).
Abbreviation draw_point := (@Overlay.draw_point Image Bytes Colour stale_remove).
Abbreviation draw_track := (@Overlay.draw_track Image Bytes Colour stale_remove).
Abbreviation modify_athlete :=
  (@Overlay.modify_athlete Image Bytes Colour stale_remove).
Abbreviation remove_athlete :=
  (@Overlay.remove_athlete Image Bytes Colour stale_remove).

(** *** The artists on the axes *)

Lemma live_lt (w : World) h : is_Some (live w h) → (h < length (artists w))%nat.
Proof.
  unfold live. intros [a Ha]. apply lookup_lt_is_Some.
  destruct (artists w !! h); [by eexists|done].
Qed.

Lemma live_erased gone (arts : list (option (Artist Colour))) h :
  mjoin (erased gone arts !! h) =
    if decide (h ∈ gone) then None else mjoin (arts !! h).
Proof.
  unfold erased. revert arts. induction gone as [|g gone IH]; intros arts.
  { cbn. by rewrite decide_False by apply not_elem_of_nil. }
  cbn [foldl]. rewrite IH.
  destruct (decide (h ∈ gone)) as [Hin|Hout].
  { rewrite decide_True; [done|]. by right. }
  destruct (decide (h = g)) as [->|Hne].
  - rewrite decide_True by by left.
    destruct (decide (g < length arts)%nat).
    + by rewrite list_lookup_insert_eq.
    + rewrite list_insert_ge by lia. by rewrite lookup_ge_None_2 by lia.
  - rewrite decide_False.
    + by rewrite list_lookup_insert_ne.
    + intros Hin. apply elem_of_cons in Hin as [?|?]; done.
Qed.

Lemma length_erased gone (arts : list (option (Artist Colour))) :
  length (erased gone arts) = length arts.
Proof.
  unfold erased. revert arts. induction gone as [|g gone IH]; intros arts;
    [done|]. cbn [foldl]. by rewrite IH, length_insert.
Qed.

Lemma live_created (arts : list (option (Artist Colour))) new h :
  mjoin ((arts ++ (Some <$> new)) !! h) =
    if decide (h < length arts)%nat then mjoin (arts !! h)
    else new !! (h - length arts)%nat.
Proof.
  destruct (decide (h < length arts)%nat).
  - by rewrite lookup_app_l.
  - rewrite lookup_app_r by lia. rewrite list_lookup_fmap.
    by destruct (new !! (h - length arts)%nat).
Qed.

Lemma live_plotted (arts : list (option (Artist Colour))) a h :
  mjoin ((arts ++ [Some a]) !! h) =
    if decide (h < length arts)%nat then mjoin (arts !! h)
    else if decide (h = length arts) then Some a else None.
Proof.
  rewrite (live_created arts [a]).
  destruct (decide (h < length arts)%nat); [done|].
  destruct (decide (h = length arts)) as [->|Hne].
  - by rewrite Nat.sub_diag.
  - apply lookup_ge_None_2. cbn. lia.
Qed.

(** *** Ownership *)

Lemma owned_same (w w' : World) :
  heap w' = heap w → artists w' = artists w → owned w → owned w'.
Proof. unfold owned, live. by intros -> ->. Qed.

Lemma owned_erase (w : World) l d' gone :
  owned w →
  NoDup (handles d') →
  (∀ h, h ∈ handles d' → h ∈ handles (heap w l) ∧ h ∉ gone) →
  (∀ h, h ∈ gone → h ∈ handles (heap w l)) →
  owned (set_heap (set_artists w (erased gone (artists w)))
           (<[l := d']> (heap w))).
Proof.
  intros (Hnd & Hlive & Hapart) Hnd' Hkept Hgone.
  unfold owned, live. cbn [heap artists set_heap set_artists].
  split; [|split].
  - intros l'. destruct (decide (l = l')) as [<-|Hne].
    + by rewrite fn_lookup_insert.
    + by rewrite fn_lookup_insert_ne.
  - intros l' h. rewrite live_erased.
    destruct (decide (l = l')) as [<-|Hne].
    + rewrite fn_lookup_insert. intros Hh. destruct (Hkept h Hh) as [Hin Hout].
      rewrite decide_False by done. by apply (Hlive l).
    + rewrite fn_lookup_insert_ne by done. intros Hh.
      rewrite decide_False; [by apply (Hlive l')|].
      intros Hg. apply Hgone in Hg. by apply Hne, (Hapart l l' h).
  - intros l1 l2 h.
    destruct (decide (l = l1)) as [<-|Hne1], (decide (l = l2)) as [<-|Hne2];
      rewrite ?fn_lookup_insert, ?fn_lookup_insert_ne by done; try done.
    + intros Hh1 Hh2. apply Hkept in Hh1 as [Hh1 _]. by apply (Hapart _ _ h).
    + intros Hh1 Hh2. apply Hkept in Hh2 as [Hh2 _]. by apply (Hapart _ _ h).
    + apply Hapart.
Qed.

Lemma owned_create (w : World) l d' new :
  owned w →
  NoDup (handles d') →
  (∀ h, h ∈ handles d' →
        h ∈ handles (heap w l) ∨
        (length (artists w) ≤ h < length (artists w) + length new)%nat) →
  owned (set_heap (set_artists w (artists w ++ (Some <$> new)))
           (<[l := d']> (heap w))).
Proof.
  intros (Hnd & Hlive & Hapart) Hnd' Hkept.
  assert (Hold : ∀ l' h, h ∈ handles (heap w l') →
                         (h < length (artists w))%nat).
  { intros l' h Hh. by apply live_lt, (Hlive l'). }
  unfold owned, live. cbn [heap artists set_heap set_artists].
  split; [|split].
  - intros l'. destruct (decide (l = l')) as [<-|Hne].
    + by rewrite fn_lookup_insert.
    + by rewrite fn_lookup_insert_ne.
  - intros l' h. rewrite live_created.
    destruct (decide (l = l')) as [<-|Hne].
    + rewrite fn_lookup_insert. intros Hh. destruct (Hkept h Hh) as [Hin|Hnew].
      * rewrite decide_True by by apply (Hold l). by apply (Hlive l).
      * rewrite decide_False by lia. apply lookup_lt_is_Some. lia.
    + rewrite fn_lookup_insert_ne by done. intros Hh.
      rewrite decide_True by by apply (Hold l'). by apply (Hlive l').
  - intros l1 l2 h.
    destruct (decide (l = l1)) as [<-|Hne1], (decide (l = l2)) as [<-|Hne2];
      rewrite ?fn_lookup_insert, ?fn_lookup_insert_ne by done; try done.
    + intros Hh1 Hh2. apply Hkept in Hh1 as [Hh1|Hnew].
      * by apply (Hapart _ _ h).
      * apply Hold in Hh2. lia.
    + intros Hh1 Hh2. apply Hkept in Hh2 as [Hh2|Hnew].
      * by apply (Hapart _ _ h).
      * apply Hold in Hh1. lia.
    + apply Hapart.
Qed.

(** *** Removing what was drawn *)

Lemma set_artists_same (w : World) : set_artists w (artists w) = w.
Proof. by destruct w. Qed.

Lemma remove_lines_run lines (w : World) :
  NoDup lines →
  (∀ h, h ∈ lines → is_Some (live w h)) →
  remove_lines lines w =
    (Returned (), set_artists w (erased lines (artists w))).
Proof.
  revert w. induction lines as [|h lines IH]; intros w Hnd Hlive.
  { cbn. by rewrite set_artists_same. }
  pose proof (NoDup_cons_1_1 _ _ Hnd) as Hh.
  apply NoDup_cons_1_2 in Hnd.
  cbn [Overlay.remove_lines]. unfold mbind, M_mbind, M_bind, artist_remove.
  destruct (Hlive h) as [a Ha]; [by left|]. unfold live in Ha.
  destruct (artists w !! h) as [[a'|]|] eqn:E; try done.
  rewrite IH; [done|done|].
  intros h' Hh'. unfold live. cbn [artists set_artists].
  rewrite list_lookup_insert_ne by (by intros ->).
  apply Hlive. by right.
Qed.

Lemma owned_write (w : World) l d' :
  owned w →
  NoDup (handles d') →
  (∀ h, h ∈ handles d' → h ∈ handles (heap w l)) →
  owned (set_heap w (<[l := d']> (heap w))).
Proof.
  intros Hw Hnd Hkept.
  rewrite <- (set_artists_same w) at 1.
  apply (owned_erase w l d' []); try done.
  - intros h Hh. split; [by apply Hkept|apply not_elem_of_nil].
  - intros h Hh. by apply elem_of_nil in Hh.
Qed.

Lemma remove_point_run (w : World) key l :
  owned w →
  dict_getitem (athletes w) (Some key) = Returned l →
  remove_point key w =
    (Returned (),
     match key_draw_point (heap w l) with
     | Some (Some point) =>
         set_heap (set_artists w (erased [point] (artists w)))
           (<[l := set_key_draw_point (heap w l) None]> (heap w))
     | _ => w
     end).
Proof.
  intros (Hnd & Hlive & Hapart) Hkey.
  unfold Overlay.remove_point, mbind, M_mbind, M_bind, athlete_dict, read.
  rewrite Hkey.
  destruct (key_draw_point (heap w l)) as [[point|]|] eqn:Hpoint; try done.
  unfold artist_remove.
  destruct (Hlive l point) as [a Ha].
  { unfold handles, marker. rewrite Hpoint. apply elem_of_app. right. by left. }
  unfold live in Ha. by destruct (artists w !! point) as [[a'|]|].
Qed.

Lemma remove_drawn_track_run (w : World) key l :
  owned w →
  dict_getitem (athletes w) (Some key) = Returned l →
  remove_drawn_track key w =
    (Returned (),
     match key_draw_track (heap w l) with
     | Some (Some lines) =>
         set_heap (set_artists w (erased lines (artists w)))
           (<[l := set_key_draw_track (heap w l) None]> (heap w))
     | _ => w
     end).
Proof.
  intros (Hnd & Hlive & Hapart) Hkey.
  unfold Overlay.remove_drawn_track, mbind, M_mbind, M_bind, athlete_dict, read.
  rewrite Hkey.
  destruct (key_draw_track (heap w l)) as [[lines|]|] eqn:Hlines; try done.
  assert (Htrack : track_lines (heap w l) = lines)
    by (unfold track_lines; by rewrite Hlines).
  rewrite remove_lines_run; [done| |].
  - specialize (Hnd l). unfold handles in Hnd. rewrite Htrack in Hnd.
    by apply list.NoDup_app in Hnd as [? _].
  - intros h Hh. apply (Hlive l). unfold handles. rewrite Htrack.
    apply elem_of_app. by left.
Qed.

(** *** What keeps the artists owned *)

Lemma run_bind {A B} (m : M A) (f : A → M B) (w : World) :
  (m ≫= f) w =
    match m w with
    | (Returned a, w') => f a w'
    | (Raised e, w') => (Raised e, w')
    end.
Proof. done. Qed.

Lemma owned_bind {A B} (m : M A) (f : A → M B) (w : World) :
  owned (m w).2 → (∀ a, keeps (f a)) → owned ((m ≫= f) w).2.
Proof.
  intros Hm Hf. rewrite run_bind.
  destruct (m w) as [[a|e] w']; [|done]. by apply Hf.
Qed.

Lemma keeps_bind {A B} (m : M A) (f : A → M B) :
  keeps m → (∀ a, keeps (f a)) → keeps (m ≫= f).
Proof. intros Hm Hf w Hw. apply owned_bind; [by apply Hm|done]. Qed.

Lemma keeps_same {A} (m : M A) :
  (∀ w : World, heap (m w).2 = heap w ∧ artists (m w).2 = artists w) →
  keeps m.
Proof.
  intros Hm w Hw. destruct (Hm w) as [Hheap Harts].
  by apply (owned_same w).
Qed.

Lemma keeps_remove_point key : keeps (remove_point key).
Proof.
  intros w Hw.
  destruct (dict_getitem (athletes w) (Some key)) as [l|e] eqn:Hkey.
  - rewrite (remove_point_run w key l Hw Hkey). cbn [snd].
    destruct (key_draw_point (heap w l)) as [[point|]|] eqn:Hpoint; try done.
    apply owned_erase; [done| | |].
    + destruct Hw as (Hnd & _). specialize (Hnd l). unfold handles in *.
      unfold marker at 1. cbn. rewrite app_nil_r.
      by apply list.NoDup_app in Hnd as [? _].
    + destruct Hw as (Hnd & _). specialize (Hnd l). unfold handles in *.
      unfold marker at 1. cbn. rewrite app_nil_r.
      intros h Hh. split; [apply elem_of_app; by left|].
      apply list.NoDup_app in Hnd as (_ & Hsep & _). specialize (Hsep h Hh).
      unfold marker in Hsep. by rewrite Hpoint in Hsep.
    + intros h Hh. apply list_elem_of_singleton in Hh as ->.
      unfold handles, marker. rewrite Hpoint. apply elem_of_app. right.
      by left.
  - unfold Overlay.remove_point, mbind, M_mbind, M_bind, athlete_dict.
    by rewrite Hkey.
Qed.

Lemma keeps_remove_drawn_track key : keeps (remove_drawn_track key).
Proof.
  intros w Hw.
  destruct (dict_getitem (athletes w) (Some key)) as [l|e] eqn:Hkey.
  - rewrite (remove_drawn_track_run w key l Hw Hkey). cbn [snd].
    destruct (key_draw_track (heap w l)) as [[lines|]|] eqn:Hlines; try done.
    assert (Htrack : track_lines (heap w l) = lines)
      by (unfold track_lines; by rewrite Hlines).
    apply owned_erase; [done| | |].
    + destruct Hw as (Hnd & _). specialize (Hnd l). unfold handles in *.
      unfold track_lines at 1. cbn.
      by apply list.NoDup_app in Hnd as (_ & _ & ?).
    + destruct Hw as (Hnd & _). specialize (Hnd l). unfold handles in *.
      unfold track_lines at 1. cbn.
      intros h Hh. split; [apply elem_of_app; by right|].
      apply list.NoDup_app in Hnd as (_ & Hsep & _). intros Hin.
      rewrite Htrack in Hsep. by apply (Hsep h).
    + intros h Hh. unfold handles. rewrite Htrack. apply elem_of_app. by left.
  - unfold Overlay.remove_drawn_track, mbind, M_mbind, M_bind, athlete_dict.
    by rewrite Hkey.
Qed.

(** *** Drawing *)

(** Whether [degrees_to_graph] raises depends on the bounds of the map
    alone, not on the position. *)
Lemma degrees_to_graph_uniform (self : MapClass Image) p q e :
  degrees_to_graph self p = Raise e → degrees_to_graph self q = Raise e.
Proof.
  unfold degrees_to_graph.
  destruct (gpx_bounds_deg self); [|done].
  destruct (tile_bounds_deg self) as [[[[deg_n deg_e] deg_s] deg_w]|]; [|done].
  unfold py_truediv.
  destruct (Qeq_bool (deg_n - deg_s) 0); [done|].
  cbn [mbind result_mbind result_bind].
  destruct (plt_item (tile_bounds_plt self) 0) as [height|e0]; [|done].
  cbn [mbind result_mbind result_bind].
  destruct (Qeq_bool (deg_e - deg_w) 0); [done|].
  cbn [mbind result_mbind result_bind].
  by destruct (plt_item (tile_bounds_plt self) 1).
Qed.

Lemma degrees_to_graph_cases (self : MapClass Image) :
  (∀ p, degrees_to_graph self p = Ok (graph_point self p)) ∨
  (∃ e, ∀ p, degrees_to_graph self p = Raise e).
Proof.
  destruct (degrees_to_graph self (0, 0)%Q) as [xy|e] eqn:Horigin.
  - left. intros p. unfold graph_point.
    destruct (degrees_to_graph self p) as [xy'|e] eqn:Hp; [done|].
    by rewrite (degrees_to_graph_uniform self p (0, 0)%Q e Hp) in Horigin.
  - right. exists e. intros p. by apply (degrees_to_graph_uniform self (0, 0)%Q).
Qed.

Lemma degrees_to_graph_everywhere (self : MapClass Image) origin :
  is_ok (degrees_to_graph self origin) = true →
  ∀ p, is_ok (degrees_to_graph self p) = true.
Proof.
  intros Horigin p.
  destruct (degrees_to_graph self p) as [xy|e] eqn:Hp; [done|].
  by rewrite (degrees_to_graph_uniform self p origin e Hp) in Horigin.
Qed.

Lemma lines_loop_step point next points (color : Colour) line_data :
  lines_loop (Image := Image) (Bytes := Bytes) (point :: next :: points) color
    line_data =
  (single_line ← draw_line (position_degrees point) (position_degrees next)
                   color 2;
   lines_loop (next :: points) color (line_data ++ [single_line])).
Proof. done. Qed.

Lemma draw_line_run start end_ (color : Colour) width (w : World) :
  draw_line start end_ color width w =
    match degrees_to_graph (map_class w) start,
          degrees_to_graph (map_class w) end_ with
    | Ok start_graph_pos, Ok end_graph_pos =>
        (Returned (length (artists w)),
         set_artists w
           (artists w ++
            [Some (Line2D (start_graph_pos.1, end_graph_pos.1)
                          (start_graph_pos.2, end_graph_pos.2) color width)]))
    | Ok _, Raise e => (Raised (Builtin e), w)
    | Raise e, _ => (Raised (Builtin e), w)
    end.
Proof.
  unfold draw_line, mbind, M_mbind, M_bind, self_degrees_to_graph, plt_plot.
  destruct (degrees_to_graph (map_class w) start); [|done].
  by destruct (degrees_to_graph (map_class w) end_).
Qed.

Lemma lines_loop_drawn points color line_data (w : World) :
  (∀ p, degrees_to_graph (map_class w) p = Ok (graph_point (map_class w) p)) →
  lines_loop points color line_data w =
    (Returned (line_data ++
               seq (length (artists w))
                   (length (segments (map_class w) points color))),
     set_artists w
       (artists w ++ (Some <$> segments (map_class w) points color))).
Proof.
  intros Hok. revert line_data w Hok.
  induction points as [|point points IH]; intros line_data w Hok.
  { cbn. by rewrite !app_nil_r, set_artists_same. }
  destruct points as [|next points].
  { cbn. by rewrite !app_nil_r, set_artists_same. }
  rewrite lines_loop_step, run_bind, draw_line_run, !Hok.
  rewrite IH by (cbn; exact Hok).
  change (segments (map_class w) (point :: next :: points) color)
    with (let start := graph_point (map_class w) (position_degrees point) in
          let end_ := graph_point (map_class w) (position_degrees next) in
          Line2D (start.1, end_.1) (start.2, end_.2) color 2
          :: segments (map_class w) (next :: points) color).
  cbn [artists set_artists map_class length fmap list_fmap].
  cbn zeta.
  rewrite length_app. cbn [length].
  rewrite <- !app_assoc. cbn [app].
  replace (length (artists w) + 1)%nat with (S (length (artists w))) by lia.
  done.
Qed.

Lemma lines_loop_raises points color line_data (w : World) e :
  (∀ p, degrees_to_graph (map_class w) p = Raise e) →
  lines_loop points color line_data w =
    match points with
    | _ :: _ :: _ => (Raised (Builtin e), w)
    | _ => (Returned line_data, w)
    end.
Proof.
  intros Hraise. destruct points as [|point [|next points]]; try done.
  by rewrite lines_loop_step, run_bind, draw_line_run, !Hraise.
Qed.

(** *** The legend *)

Lemma patches_loop_run values all_patches (w : World) :
  patches_loop values all_patches w =
    match mapM (λ l, patch (heap w l)) values with
    | Some more => (Returned (all_patches ++ more), w)
    | None => (Raised KeyError, w)
    end.
Proof.
  revert all_patches. induction values as [|l values IH]; intros all_patches.
  { cbn. by rewrite app_nil_r. }
  cbn [patches_loop mapM].
  unfold mbind at 1 2 3, M_mbind, M_bind, read, item, patch.
  destruct (key_colour (heap w l)) as [colour|]; [|done].
  destruct (key_display_name (heap w l)) as [name|]; [|done].
  cbn. rewrite IH.
  destruct (mapM _ values) as [more|]; [|done].
  cbn. by rewrite <- app_assoc.
Qed.

Lemma draw_legend_run (w : World) :
  draw_legend w =
    match patches w with
    | Some all_patches => (Returned (), set_legend w all_patches)
    | None => (Raised KeyError, w)
    end.
Proof.
  unfold draw_legend, M_bind, patches. rewrite patches_loop_run.
  by destruct (mapM _ _).
Qed.

(** *** Every method keeps the artists owned *)

Lemma keeps_mret {A} (a : A) :
  keeps (mret a : @M Image Bytes Colour A).
Proof. by intros w Hw. Qed.

Lemma keeps_item {A} (field : option A) :
  keeps (item field : @M Image Bytes Colour A).
Proof. intros w Hw. by destruct field. Qed.

Lemma keeps_athlete_dict key :
  keeps (athlete_dict key).
Proof. by intros w Hw. Qed.

Lemma keeps_read l :
  keeps (read l).
Proof. by intros w Hw. Qed.

Lemma keeps_degrees_to_graph degrees :
  keeps (self_degrees_to_graph degrees).
Proof. by intros w Hw. Qed.

Lemma keeps_draw_legend :
  keeps draw_legend.
Proof.
  intros w Hw. rewrite draw_legend_run. by destruct (patches w).
Qed.

Lemma keeps_athletes_delitem key :
  keeps (athletes_delitem key).
Proof.
  intros w Hw. unfold athletes_delitem.
  by destruct (dict_delitem (athletes w) (Some key)).
Qed.

Lemma track_lines_live (w : World) l h :
  owned w → h ∈ track_lines (heap w l) → (h < length (artists w))%nat.
Proof.
  intros (_ & Hlive & _) Hh. apply live_lt, (Hlive l).
  apply elem_of_app. by left.
Qed.

Lemma marker_live (w : World) l h :
  owned w → h ∈ marker (heap w l) → (h < length (artists w))%nat.
Proof.
  intros (_ & Hlive & _) Hh. apply live_lt, (Hlive l).
  apply elem_of_app. by right.
Qed.

Lemma keeps_plot_marker (a : Artist Colour) l :
  keeps (point ← plt_plot a; d ← read l;
     write l (set_key_draw_point d (Some point))).
Proof.
  intros w Hw.
  change (owned
            (set_heap (set_artists w (artists w ++ (Some <$> [a])))
               (<[l := set_key_draw_point (heap w l)
                         (Some (length (artists w)))]> (heap w)))).
  pose proof Hw as (Hnd & _).
  apply owned_create; [done| |].
  - unfold handles, marker, track_lines. cbn.
    specialize (Hnd l). apply list.NoDup_app in Hnd as (Hlines & _ & _).
    apply list.NoDup_app. split; [done|]. split; [|apply NoDup_singleton].
    intros h Hh ->%list_elem_of_singleton.
    apply (track_lines_live w l) in Hh; [lia|done].
  - unfold handles at 1, track_lines at 1, marker at 1. cbn.
    intros h [Hh| ->%list_elem_of_singleton]%elem_of_app.
    + left. apply elem_of_app. by left.
    + right. lia.
Qed.

Lemma keeps_lines_loop points (color : Colour) l :
  keeps (line_data ← lines_loop points color []; d ← read l;
     write l (set_key_draw_track d (Some line_data))).
Proof.
  intros w Hw. rewrite run_bind. pose proof Hw as (Hnd & _).
  destruct (degrees_to_graph_cases (map_class w)) as [Hok|[e Hraise]].
  - rewrite lines_loop_drawn by done. cbn [app].
    change (owned
              (set_heap
                 (set_artists w
                    (artists w ++
                     (Some <$> segments (map_class w) points color)))
                 (<[l := set_key_draw_track (heap w l)
                           (Some (seq (length (artists w))
                                    (length (segments (map_class w) points
                                               color))))]> (heap w)))).
    apply owned_create; [done| |].
    + unfold handles, marker, track_lines. cbn.
      specialize (Hnd l). apply list.NoDup_app in Hnd as (_ & _ & Hmarker).
      apply list.NoDup_app. split; [apply NoDup_seq|]. split; [|done].
      intros h Hh%elem_of_seq Hm.
      apply (marker_live w l) in Hm; [lia|done].
    + unfold handles at 1, track_lines at 1, marker at 1. cbn.
      intros h [Hh%elem_of_seq|Hh]%elem_of_app.
      * right. lia.
      * left. apply elem_of_app. by right.
  - rewrite (lines_loop_raises _ _ _ _ e) by done.
    destruct points as [|point [|next points]]; try done.
    + apply owned_write; [done| |].
      * specialize (Hnd l). by apply list.NoDup_app in Hnd as (_ & _ & ?).
      * intros h Hh. apply elem_of_app. by right.
    + apply owned_write; [done| |].
      * specialize (Hnd l). by apply list.NoDup_app in Hnd as (_ & _ & ?).
      * intros h Hh. apply elem_of_app. by right.
Qed.

Lemma keeps_draw_track key color : keeps (draw_track key color).
Proof.
  unfold Overlay.draw_track.
  apply keeps_bind; [apply keeps_athlete_dict|intros l].
  apply keeps_bind; [apply keeps_read|intros d].
  apply keeps_bind.
  { destruct (key_draw_track d) as [[lines|]|];
      [apply keeps_remove_drawn_track|apply keeps_mret..]. }
  intros _.
  apply keeps_bind; [apply keeps_read|intros d'].
  apply keeps_bind; [apply keeps_item|intros track].
  apply keeps_lines_loop.
Qed.

Lemma keeps_draw_point key pos color size :
  keeps (draw_point key pos color size).
Proof.
  unfold Overlay.draw_point.
  apply keeps_bind; [apply keeps_athlete_dict|intros l].
  apply keeps_bind; [apply keeps_read|intros d].
  apply keeps_bind.
  { destruct (key_draw_point d) as [[point|]|];
      [apply keeps_remove_point|apply keeps_mret..]. }
  intros _.
  apply keeps_bind; [apply keeps_degrees_to_graph|intros graph_pos].
  apply keeps_plot_marker.
Qed.

Lemma keeps_modify_athlete key new_value :
  keeps (modify_athlete key new_value).
Proof.
  unfold Overlay.modify_athlete.
  apply keeps_bind; [apply keeps_read|intros new].
  apply keeps_bind; [apply keeps_item|intros colour].
  apply keeps_bind; [apply keeps_athlete_dict|intros l].
  intros w Hw. rewrite run_bind. cbn [read].
  apply owned_bind; [apply owned_write; [done|apply Hw|done]|intros _].
  apply keeps_bind; [apply keeps_read|intros new'].
  apply keeps_bind; [apply keeps_item|intros name].
  apply keeps_bind; [apply keeps_athlete_dict|intros l'].
  clear w Hw. intros w Hw. rewrite run_bind. cbn [read].
  apply owned_bind; [apply owned_write; [done|apply Hw|done]|intros _].
  apply keeps_bind; [apply keeps_read|intros new''].
  apply keeps_bind; [apply keeps_item|intros colour'].
  apply keeps_bind; [apply keeps_draw_track|intros _].
  apply keeps_draw_legend.
Qed.

Lemma keeps_remove_athlete key : keeps (remove_athlete key).
Proof.
  unfold Overlay.remove_athlete.
  apply keeps_bind; [apply keeps_athlete_dict|intros l].
  apply keeps_bind; [apply keeps_read|intros d].
  apply keeps_bind.
  { destruct (key_draw_point d); [apply keeps_remove_point|apply keeps_mret]. }
  intros _.
  apply keeps_bind; [apply keeps_read|intros d'].
  apply keeps_bind.
  { destruct (key_draw_track d');
      [apply keeps_remove_drawn_track|apply keeps_mret]. }
  intros _.
  apply keeps_bind; [apply keeps_athletes_delitem|intros _].
  apply keeps_draw_legend.
Qed.

(** *** What the methods do *)

Lemma dict_getitem_absent {A} (d : list (string * A)) key :
  key ∉ d.*1 → dict_getitem d (Some key) = Raised KeyError.
Proof.
  intros Hkey. unfold dict_getitem.
  destruct (list_find _ d) as [[i item]|] eqn:Hfind; [|done].
  apply list_find_Some in Hfind as (Hi & Hitem & _).
  exfalso. apply Hkey. apply list_elem_of_fmap. exists item.
  split; [done|]. by apply list_elem_of_lookup_2 in Hi.
Qed.

Lemma live_eq (w w' : World) h :
  artists w' = artists w → live w' h = live w h.
Proof. unfold live. by intros ->. Qed.

Lemma map_class_after_removal (w : World) l (d : Athlete Colour) gone :
  map_class
    (set_heap (set_artists w (erased gone (artists w))) (<[l := d]> (heap w)))
  = map_class w.
Proof. done. Qed.

Lemma draw_point_run (w : World) key pos color size l :
  owned w →
  dict_getitem (athletes w) (Some key) = Returned l →
  draw_point key pos color size w =
    let w1 :=
      match key_draw_point (heap w l) with
      | Some (Some point) =>
          set_heap (set_artists w (erased [point] (artists w)))
            (<[l := set_key_draw_point (heap w l) None]> (heap w))
      | _ => w
      end in
    match degrees_to_graph (map_class w) pos with
    | Ok graph_pos =>
        (Returned (),
         set_heap
           (set_artists w1
              (artists w1 ++
               [Some (Marker graph_pos.1 graph_pos.2 size color)]))
           (<[l := set_key_draw_point (heap w1 l)
                     (Some (length (artists w1)))]> (heap w1)))
    | Raise e => (Raised (Builtin e), w1)
    end.
Proof.
  intros Hw Hkey.
  unfold Overlay.draw_point.
  rewrite run_bind. unfold athlete_dict at 1. rewrite Hkey.
  rewrite run_bind. cbn [read]. rewrite run_bind.
  destruct (key_draw_point (heap w l)) as [[point|]|] eqn:Hpoint.
  - rewrite (remove_point_run w key l Hw Hkey), Hpoint.
    rewrite run_bind. unfold self_degrees_to_graph.
    rewrite map_class_after_removal.
    by destruct (degrees_to_graph (map_class w) pos).
  - cbn [mret M_mret M_ret]. rewrite run_bind. unfold self_degrees_to_graph.
    by destruct (degrees_to_graph (map_class w) pos).
  - cbn [mret M_mret M_ret]. rewrite run_bind. unfold self_degrees_to_graph.
    by destruct (degrees_to_graph (map_class w) pos).
Qed.

(** X20: while every artist held by a dict is on the axes and held once,
    [draw_point] for a registered athlete takes the old marker of the
    athlete off the axes, touches no other artist then on the axes, no
    other dict and not the lines of the track.  When [degrees_to_graph]
    gives the plot point it returns, and the one artist it created is the
    marker of the athlete, at that point, in the colour and size asked
    for; when [degrees_to_graph] raises, it raises the same exception with
    the old marker already gone, and the athlete is left without a
    marker. *)
Theorem draw_point_moves_marker (w : World) key pos color size l :
  owned w →
  dict_getitem (athletes w) (Some key) = Returned l →
  let out := (draw_point key pos color size w).1 in
  let w' := (draw_point key pos color size w).2 in
  (∀ h, h ∈ marker (heap w l) → live w' h = None) ∧
  (∀ h, h ∉ marker (heap w l) → (h < length (artists w))%nat →
        live w' h = live w h) ∧
  (∀ l', l' ≠ l → heap w' l' = heap w l') ∧
  track_lines (heap w' l) = track_lines (heap w l) ∧
  match degrees_to_graph (map_class w) pos with
  | Ok graph_pos =>
      out = Returned () ∧
      marker (heap w' l) = [length (artists w)] ∧
      live w' (length (artists w)) =
        Some (Marker graph_pos.1 graph_pos.2 size color) ∧
      length (artists w') = S (length (artists w))
  | Raise e =>
      out = Raised (Builtin e) ∧
      marker (heap w' l) = [] ∧
      length (artists w') = length (artists w)
  end.
Proof.
  intros Hw Hkey out w'. subst out w'.
  rewrite (draw_point_run w key pos color size l Hw Hkey).
  assert (Hmarker : ∀ h, h ∈ marker (heap w l) →
                         (h < length (artists w))%nat)
    by (intros h; by apply marker_live).
  unfold marker in *. unfold live.
  destruct (key_draw_point (heap w l)) as [[point|]|] eqn:Hpoint;
    destruct (degrees_to_graph (map_class w) pos) as [graph_pos|e];
    cbn [fst snd heap artists set_heap set_artists];
    rewrite ?fn_lookup_insert; cbn [key_draw_point key_draw_track
      set_key_draw_point track_lines];
    rewrite ?length_app, ?length_erased; cbn [length];
    (split; [|split; [|split; [|split]]]);
    try done.
  all: intros;
    rewrite ?live_plotted, ?length_erased, ?live_erased, ?Hpoint,
      ?fn_lookup_insert_ne by done;
    repeat case_decide; repeat split; try done; try lia.
  all: exfalso;
    match goal with
    | H : _ ∈ [] |- _ => by apply elem_of_nil in H
    | H : _ ∈ [_] |- _ => apply Hmarker in H; lia
    end.
Qed.

Lemma draw_track_run (w : World) key color l track :
  owned w →
  dict_getitem (athletes w) (Some key) = Returned l →
  key_track (heap w l) = Some track →
  draw_track key color w =
    let w1 :=
      match key_draw_track (heap w l) with
      | Some (Some lines) =>
          set_heap (set_artists w (erased lines (artists w)))
            (<[l := set_key_draw_track (heap w l) None]> (heap w))
      | _ => w
      end in
    match lines_loop (track_points track) color [] w1 with
    | (Returned line_data, w2) =>
        (Returned (),
         set_heap w2
           (<[l := set_key_draw_track (heap w2 l) (Some line_data)]>
              (heap w2)))
    | (Raised e, w2) => (Raised e, w2)
    end.
Proof.
  intros Hw Hkey Htrack.
  unfold Overlay.draw_track.
  rewrite run_bind. unfold athlete_dict at 1. rewrite Hkey.
  rewrite run_bind. cbn [read]. rewrite run_bind.
  destruct (key_draw_track (heap w l)) as [[lines|]|] eqn:Hlines.
  - rewrite (remove_drawn_track_run w key l Hw Hkey), Hlines.
    rewrite run_bind. cbn [read heap set_heap]. rewrite fn_lookup_insert.
    cbn [key_track set_key_draw_track]. rewrite Htrack.
    rewrite run_bind. cbn [item mret M_mret M_ret]. rewrite run_bind.
    unfold get_track_points.
    by destruct (lines_loop _ _ _ _) as [[line_data|e] w2].
  - cbn [mret M_mret M_ret]. rewrite run_bind. cbn [read]. rewrite Htrack.
    rewrite run_bind. cbn [item mret M_mret M_ret]. rewrite run_bind.
    unfold get_track_points.
    by destruct (lines_loop _ _ _ _) as [[line_data|e] w2].
  - cbn [mret M_mret M_ret]. rewrite run_bind. cbn [read]. rewrite Htrack.
    rewrite run_bind. cbn [item mret M_mret M_ret]. rewrite run_bind.
    unfold get_track_points.
    by destruct (lines_loop _ _ _ _) as [[line_data|e] w2].
Qed.

Lemma segments_short (self : MapClass Image) points (color : Colour) :
  (length points < 2)%nat → segments self points color = [].
Proof. destruct points as [|point [|next points]]; cbn; [done|done|lia]. Qed.

(** X21: while every artist held by a dict is on the axes and held once,
    [draw_track] for a registered athlete with a track takes the old
    lines of the athlete off the axes, touches no other artist then on
    the axes, no other dict and not the marker.  When the track has fewer
    than two points or [degrees_to_graph] does not raise, it returns, and
    the artists it created are the lines of the athlete: one from each
    point to the next, in their order, in the colour asked for.  When the
    track has two points or more and [degrees_to_graph] raises, it raises
    the same exception, no artist was created and the athlete is left
    without lines. *)
Theorem draw_track_redraws (w : World) key color l track :
  owned w →
  dict_getitem (athletes w) (Some key) = Returned l →
  key_track (heap w l) = Some track →
  let out := (draw_track key color w).1 in
  let w' := (draw_track key color w).2 in
  let lines := segments (map_class w) (track_points track) color in
  (∀ h, h ∈ track_lines (heap w l) → live w' h = None) ∧
  (∀ h, h ∉ track_lines (heap w l) → (h < length (artists w))%nat →
        live w' h = live w h) ∧
  (∀ l', l' ≠ l → heap w' l' = heap w l') ∧
  marker (heap w' l) = marker (heap w l) ∧
  ((length (track_points track) < 2)%nat ∨
   (∀ p, is_ok (degrees_to_graph (map_class w) p) = true) →
   out = Returned () ∧
   key_draw_track (heap w' l) =
     Some (Some (seq (length (artists w)) (length lines))) ∧
   (∀ i line, lines !! i = Some line →
              live w' (length (artists w) + i) = Some line) ∧
   length (artists w') = (length (artists w) + length lines)%nat) ∧
  ((2 ≤ length (track_points track))%nat →
   ∀ p e, degrees_to_graph (map_class w) p = Raise e →
          out = Raised (Builtin e) ∧
          track_lines (heap w' l) = [] ∧
          length (artists w') = length (artists w)).
Proof.
  intros Hw Hkey Htrack out w' lines. subst out w' lines.
  rewrite (draw_track_run w key color l track Hw Hkey Htrack).
  assert (Hlines : ∀ h, h ∈ track_lines (heap w l) →
                        (h < length (artists w))%nat)
    by (intros h; by apply track_lines_live).
  set (w1 := match key_draw_track (heap w l) with
             | Some (Some lines) =>
                 set_heap (set_artists w (erased lines (artists w)))
                   (<[l := set_key_draw_track (heap w l) None]> (heap w))
             | _ => w
             end).
  assert (Hmap : map_class w1 = map_class w)
    by (subst w1; by destruct (key_draw_track (heap w l)) as [[?|]|]).
  assert (Hlen : length (artists w1) = length (artists w)).
  { subst w1. destruct (key_draw_track (heap w l)) as [[?|]|]; try done.
    cbn. apply length_erased. }
  cbn zeta.
  destruct (degrees_to_graph_cases (map_class w1)) as [Hok|[e Hraise]].
  - rewrite (lines_loop_drawn _ _ _ w1 Hok). rewrite Hmap in Hok |- *.
    rewrite Hlen. clear Hmap Hlen. cbn [app].
    subst w1. unfold track_lines, marker in *. unfold live.
    destruct (key_draw_track (heap w l)) as [[old|]|] eqn:Hold;
      cbn [fst snd heap artists set_heap set_artists];
      rewrite ?fn_lookup_insert; cbn [key_draw_point key_draw_track
        set_key_draw_track];
      rewrite ?length_app, ?length_fmap, ?length_erased;
      (split; [|split; [|split; [|split; [|split]]]]); try done.
    all: do 2 (intros;
      rewrite ?live_created, ?length_erased, ?live_erased,
        ?fn_lookup_insert_ne by done;
      repeat case_decide; repeat split; try done; try lia).
    all: try match goal with
      | H : degrees_to_graph _ ?p = Raise _ |- _ =>
          by rewrite Hok in H
      | H : _ ∈ [] |- _ => by apply elem_of_nil in H
      | H : _ ∈ _ |- _ => apply Hlines in H; lia
      | |- _ !! (?n + ?i - ?n)%nat = _ =>
          by replace (n + i - n)%nat with i by lia
      end.
  - rewrite (lines_loop_raises _ _ _ w1 e Hraise). rewrite Hmap in Hraise.
    clear Hmap.
    assert (Hshort : (length (track_points track) < 2)%nat →
                     segments (map_class w) (track_points track) color = [])
      by apply segments_short.
    destruct (track_points track) as [|point [|next points]];
      cbn [length] in *; rewrite ?Hshort by lia; clear Hshort.
    all: clear Hlen; subst w1; unfold track_lines, marker in *; unfold live;
      destruct (key_draw_track (heap w l)) as [[old|]|] eqn:Hold;
      cbn [fst snd heap artists set_heap set_artists];
      rewrite ?fn_lookup_insert; cbn [key_draw_point key_draw_track
        set_key_draw_track];
      rewrite ?length_app, ?length_fmap, ?length_erased; cbn [length];
      (split; [|split; [|split; [|split; [|split]]]]); try done.
    all: do 2 (intros;
      rewrite ?live_created, ?length_erased, ?live_erased, ?Hold,
        ?fn_lookup_insert_ne by done;
      repeat case_decide; repeat split; try done; try lia).
    all: try match goal with
      | H : degrees_to_graph _ ?p = Raise _ |- _ =>
          rewrite Hraise in H; by injection H as ->
      | H : _ ∈ [] |- _ => by apply elem_of_nil in H
      | H : _ ∈ _ |- _ => apply Hlines in H; lia
      | H : _ ∨ _ |- _ =>
          destruct H as [H|H]; [lia|];
          specialize (H (0, 0)%Q); by rewrite Hraise in H
      end.
Qed.

Lemma dict_delitem_known {A} (d : list (string * A)) key v :
  dict_getitem d (Some key) = Returned v →
  dict_delitem d (Some key) = Returned (filter (λ item, item.1 ≠ key) d).
Proof.
  unfold dict_getitem, dict_delitem.
  by destruct (list_find _ d) as [[i item]|].
Qed.

Lemma remove_athlete_run (w : World) key l :
  owned w →
  dict_getitem (athletes w) (Some key) = Returned l →
  remove_athlete key w =
    let w1 :=
      match key_draw_point (heap w l) with
      | Some (Some point) =>
          set_heap (set_artists w (erased [point] (artists w)))
            (<[l := set_key_draw_point (heap w l) None]> (heap w))
      | _ => w
      end in
    let w2 :=
      match key_draw_track (heap w1 l) with
      | Some (Some lines) =>
          set_heap (set_artists w1 (erased lines (artists w1)))
            (<[l := set_key_draw_track (heap w1 l) None]> (heap w1))
      | _ => w1
      end in
    draw_legend
      (set_athletes w2 (filter (λ item, item.1 ≠ key) (athletes w))).
Proof.
  intros Hw Hkey.
  pose proof (keeps_remove_point key w Hw) as Hw1.
  rewrite (remove_point_run w key l Hw Hkey) in Hw1. cbn [snd] in Hw1.
  unfold Overlay.remove_athlete.
  rewrite run_bind. unfold athlete_dict at 1. rewrite Hkey.
  rewrite run_bind. cbn [read]. rewrite run_bind.
  set (w1 := match key_draw_point (heap w l) with
             | Some (Some point) =>
                 set_heap (set_artists w (erased [point] (artists w)))
                   (<[l := set_key_draw_point (heap w l) None]> (heap w))
             | _ => w
             end) in *.
  assert (Hstep1 :
    (match key_draw_point (heap w l) with
     | Some _ => remove_point key
     | None => mret ()
     end) w = (Returned (), w1)).
  { subst w1. destruct (key_draw_point (heap w l)) as [[point|]|] eqn:Hpoint;
      try done.
    - by rewrite (remove_point_run w key l Hw Hkey), Hpoint.
    - by rewrite (remove_point_run w key l Hw Hkey), Hpoint. }
  rewrite Hstep1. clear Hstep1.
  assert (Hkey1 : dict_getitem (athletes w1) (Some key) = Returned l).
  { subst w1. by destruct (key_draw_point (heap w l)) as [[point|]|]. }
  rewrite run_bind. cbn [read]. rewrite run_bind.
  set (w2 := match key_draw_track (heap w1 l) with
             | Some (Some lines) =>
                 set_heap (set_artists w1 (erased lines (artists w1)))
                   (<[l := set_key_draw_track (heap w1 l) None]> (heap w1))
             | _ => w1
             end).
  assert (Hstep2 :
    (match key_draw_track (heap w1 l) with
     | Some _ => remove_drawn_track key
     | None => mret ()
     end) w1 = (Returned (), w2)).
  { subst w2. destruct (key_draw_track (heap w1 l)) as [[lines|]|] eqn:Hlines;
      try done.
    - by rewrite (remove_drawn_track_run w1 key l Hw1 Hkey1), Hlines.
    - by rewrite (remove_drawn_track_run w1 key l Hw1 Hkey1), Hlines. }
  rewrite Hstep2. clear Hstep2.
  assert (Hathletes : athletes w2 = athletes w).
  { subst w2 w1. destruct (key_draw_point (heap w l)) as [[point|]|];
      by destruct (key_draw_track _) as [[lines|]|]. }
  rewrite run_bind. unfold athletes_delitem.
  rewrite Hathletes,
    (dict_delitem_known (athletes w) key l) by done.
  done.
Qed.

(** X22: while every artist held by a dict is on the axes and held once,
    [remove_athlete] of a registered athlete takes its key out of the
    dictionary, takes the lines and the marker of its dict off the axes
    and no other artist, leaves its dict without artists and the other
    dicts as they were.  It returns with the legend of the athletes that
    remain, in their order; when one of them lacks a colour or a display
    name it raises [KeyError] instead, the athlete removed all the same
    and the old legend left in place. *)
Theorem remove_athlete_erases (w : World) key l :
  owned w →
  dict_getitem (athletes w) (Some key) = Returned l →
  let out := (remove_athlete key w).1 in
  let w' := (remove_athlete key w).2 in
  athletes w' = filter (λ item, item.1 ≠ key) (athletes w) ∧
  (∀ h, h ∈ handles (heap w l) → live w' h = None) ∧
  (∀ h, h ∉ handles (heap w l) → live w' h = live w h) ∧
  handles (heap w' l) = [] ∧
  (∀ l', l' ≠ l → heap w' l' = heap w l') ∧
  match patches w' with
  | Some all_patches => out = Returned () ∧ legend w' = Some all_patches
  | None => out = Raised KeyError ∧ legend w' = legend w
  end.
Proof.
  intros Hw Hkey out w'. subst out w'.
  rewrite (remove_athlete_run w key l Hw Hkey). cbn zeta.
  rewrite draw_legend_run.
  set (w3 := set_athletes _ _).
  assert (Hpatches : ∀ ps, patches (set_legend w3 ps) = patches w3) by done.
  destruct (patches w3) as [ps|] eqn:Hps; cbn [fst snd];
    rewrite ?Hpatches, ?Hps; subst w3; clear Hpatches Hps.
  all: unfold handles, track_lines, marker, live;
    destruct (key_draw_point (heap w l)) as [[point|]|] eqn:Hpoint;
    cbn [heap artists athletes legend set_heap set_artists set_athletes
         set_legend];
    rewrite ?fn_lookup_insert;
    cbn [key_draw_point key_draw_track set_key_draw_point];
    destruct (key_draw_track (heap w l)) as [[lines|]|] eqn:Hlines;
    cbn [heap artists athletes legend set_heap set_artists set_athletes
         set_legend];
    rewrite ?fn_lookup_insert;
    cbn [key_draw_point key_draw_track set_key_draw_point
         set_key_draw_track];
    rewrite ?Hpoint, ?Hlines;
    (split; [|split; [|split; [|split; [|split]]]]); try done.
  all: intros;
    rewrite ?live_erased, ?fn_lookup_insert_ne by done;
    repeat case_decide; try done.
  all: exfalso;
    repeat match goal with
    | H : context [_ ∈ _ ++ _] |- _ => rewrite elem_of_app in H
    | H : context [_ ∈ []] |- _ => rewrite elem_of_nil in H
    end; tauto.
Qed.

(** X23: for a key that is not registered, [draw_track], [draw_point],
    [remove_point], [modify_athlete] and [remove_athlete] raise
    [KeyError] and change nothing. *)
Theorem unknown_athlete_raises (w : World) key new_value pos color size :
  key ∉ (athletes w).*1 →
  draw_track key color w = (Raised KeyError, w) ∧
  draw_point key pos color size w = (Raised KeyError, w) ∧
  remove_point key w = (Raised KeyError, w) ∧
  modify_athlete key new_value w = (Raised KeyError, w) ∧
  remove_athlete key w = (Raised KeyError, w).
Proof.
  intros Hkey%dict_getitem_absent.
  assert (Hdict : athlete_dict key w = (Raised KeyError, w))
    by (unfold athlete_dict; by rewrite Hkey).
  unfold Overlay.draw_track, Overlay.draw_point, Overlay.remove_point,
    Overlay.modify_athlete, Overlay.remove_athlete.
  rewrite !(run_bind (athlete_dict key)), !Hdict.
  repeat split; try done.
  rewrite run_bind. cbn [read]. rewrite run_bind.
  destruct (key_colour (heap w new_value)) as [colour|]; [|done].
  cbn [item mret M_mret M_ret]. by rewrite run_bind, Hdict.
Qed.

Lemma draw_track_drawn (w : World) key color l track :
  owned w →
  dict_getitem (athletes w) (Some key) = Returned l →
  key_track (heap w l) = Some track →
  (length (track_points track) < 2)%nat ∨
  (∀ p, is_ok (degrees_to_graph (map_class w) p) = true) →
  let lines := segments (map_class w) (track_points track) color in
  ∃ w',
    draw_track key color w = (Returned (), w') ∧
    heap w' l =
      set_key_draw_track (heap w l)
        (Some (seq (length (artists w)) (length lines))) ∧
    (∀ l', l' ≠ l → heap w' l' = heap w l') ∧
    artists w' =
      erased (track_lines (heap w l)) (artists w) ++ (Some <$> lines) ∧
    athletes w' = athletes w ∧
    map_class w' = map_class w ∧
    legend w' = legend w.
Proof.
  intros Hw Hkey Htrack Hdrawable lines. subst lines.
  rewrite (draw_track_run w key color l track Hw Hkey Htrack).
  set (w1 := match key_draw_track (heap w l) with
             | Some (Some lines) =>
                 set_heap (set_artists w (erased lines (artists w)))
                   (<[l := set_key_draw_track (heap w l) None]> (heap w))
             | _ => w
             end).
  assert (Hmap : map_class w1 = map_class w)
    by (subst w1; by destruct (key_draw_track (heap w l)) as [[?|]|]).
  assert (Hlen : length (artists w1) = length (artists w)).
  { subst w1. destruct (key_draw_track (heap w l)) as [[?|]|]; try done.
    cbn. apply length_erased. }
  cbn zeta.
  destruct (degrees_to_graph_cases (map_class w1)) as [Hok|[e Hraise]].
  - rewrite (lines_loop_drawn _ _ _ w1 Hok). rewrite Hmap, Hlen.
    clear Hmap Hlen Hok. cbn [app]. eexists. split; [done|].
    subst w1. unfold track_lines.
    destruct (key_draw_track (heap w l)) as [[old|]|] eqn:Hold;
      cbn [heap artists athletes map_class legend set_heap set_artists];
      rewrite ?fn_lookup_insert;
      repeat split; try done;
      intros; by rewrite ?fn_lookup_insert_ne by done.
  - rewrite Hmap in Hraise.
    destruct Hdrawable as [Hshort|Hok];
      [|specialize (Hok (0, 0)%Q); by rewrite Hraise in Hok].
    rewrite <- Hmap in Hraise.
    rewrite (lines_loop_raises _ _ _ w1 e Hraise).
    rewrite (segments_short _ _ _ Hshort).
    destruct (track_points track) as [|point [|next points]];
      [| |cbn in Hshort; lia].
    all: eexists; (split; [done|]); clear Hmap Hlen Hraise;
      subst w1; unfold track_lines;
      destruct (key_draw_track (heap w l)) as [[old|]|] eqn:Hold;
      cbn [heap artists athletes map_class legend set_heap set_artists];
      rewrite ?fn_lookup_insert, ?app_nil_r;
      repeat split; try done;
      intros; by rewrite ?fn_lookup_insert_ne by done.
Qed.

Lemma modify_athlete_run (w : World) key new_value l colour name :
  dict_getitem (athletes w) (Some key) = Returned l →
  key_colour (heap w new_value) = Some colour →
  key_display_name (heap w new_value) = Some name →
  modify_athlete key new_value w =
    let wa := set_heap w (<[l := set_key_colour (heap w l) colour]> (heap w)) in
    let wb :=
      set_heap wa (<[l := set_key_display_name (heap wa l) name]> (heap wa)) in
    (draw_track key colour ≫= λ _, draw_legend) wb.
Proof.
  intros Hkey Hcolour Hname. unfold Overlay.modify_athlete.
  rewrite run_bind. cbn [read]. rewrite Hcolour.
  rewrite run_bind. cbn [item mret M_mret M_ret].
  rewrite run_bind. unfold athlete_dict at 1. rewrite Hkey.
  rewrite run_bind. cbn [read]. rewrite run_bind. cbn [write].
  rewrite run_bind. cbn [read heap set_heap].
  assert (Hname' :
    key_display_name
      ((<[l := set_key_colour (heap w l) colour]> (heap w)) new_value)
    = Some name).
  { destruct (decide (l = new_value)) as [->|Hne].
    - by rewrite fn_lookup_insert.
    - by rewrite fn_lookup_insert_ne. }
  rewrite Hname'. clear Hname'.
  rewrite run_bind. cbn [item mret M_mret M_ret].
  rewrite run_bind. unfold athlete_dict at 1. cbn [athletes set_heap].
  rewrite Hkey.
  rewrite run_bind. cbn [read]. rewrite run_bind. cbn [write].
  rewrite run_bind. cbn [read heap set_heap].
  assert (Hcolour' :
    key_colour
      ((<[l := set_key_display_name
                 ((<[l := set_key_colour (heap w l) colour]> (heap w)) l)
                 name]>
          (<[l := set_key_colour (heap w l) colour]> (heap w))) new_value)
    = Some colour).
  { destruct (decide (l = new_value)) as [->|Hne].
    - by rewrite !fn_lookup_insert.
    - by rewrite !fn_lookup_insert_ne. }
  rewrite Hcolour'. clear Hcolour'.
  rewrite run_bind. cbn [item mret M_mret M_ret].
  done.
Qed.

(** X24: while every artist held by a dict is on the axes and held once,
    [modify_athlete] with a new value that has a colour and a display
    name, for a registered athlete whose track can be drawn, writes the
    colour and the name into the dict of the athlete, takes its old lines
    off the axes and draws the track again in the new colour; the marker
    stays on the axes as it was drawn, the track, the order of the
    athletes and the other dicts are left alone.  It returns with the
    legend of all athletes, or raises [KeyError] with the old legend in
    place when one of them lacks a colour or a display name. *)
Theorem modify_athlete_recolours (w : World) key new_value l colour name
    track :
  owned w →
  dict_getitem (athletes w) (Some key) = Returned l →
  key_colour (heap w new_value) = Some colour →
  key_display_name (heap w new_value) = Some name →
  key_track (heap w l) = Some track →
  (length (track_points track) < 2)%nat ∨
  (∀ p, is_ok (degrees_to_graph (map_class w) p) = true) →
  let out := (modify_athlete key new_value w).1 in
  let w' := (modify_athlete key new_value w).2 in
  let lines := segments (map_class w) (track_points track) colour in
  key_colour (heap w' l) = Some colour ∧
  key_display_name (heap w' l) = Some name ∧
  key_track (heap w' l) = Some track ∧
  key_draw_track (heap w' l) =
    Some (Some (seq (length (artists w)) (length lines))) ∧
  (∀ i line, lines !! i = Some line →
             live w' (length (artists w) + i) = Some line) ∧
  (∀ h, h ∈ track_lines (heap w l) → live w' h = None) ∧
  key_draw_point (heap w' l) = key_draw_point (heap w l) ∧
  (∀ h, h ∈ marker (heap w l) → live w' h = live w h) ∧
  athletes w' = athletes w ∧
  (∀ l', l' ≠ l → heap w' l' = heap w l') ∧
  match patches w' with
  | Some all_patches => out = Returned () ∧ legend w' = Some all_patches
  | None => out = Raised KeyError ∧ legend w' = legend w
  end.
Proof.
  intros Hw Hkey Hcolour Hname Htrack Hdrawable out w' lines.
  subst out w' lines.
  rewrite (modify_athlete_run w key new_value l colour name Hkey Hcolour Hname).
  cbn zeta.
  set (wa := set_heap w (<[l := set_key_colour (heap w l) colour]> (heap w))).
  set (wb := set_heap wa
               (<[l := set_key_display_name (heap wa l) name]> (heap wa))).
  assert (Hwa : owned wa) by (apply owned_write; [done|apply Hw|done]).
  assert (Hwb : owned wb) by (apply owned_write; [done|apply Hwa|done]).
  assert (Hheap_b : heap wb l =
            set_key_display_name (set_key_colour (heap w l) colour) name).
  { subst wb wa. cbn [heap set_heap]. by rewrite !fn_lookup_insert. }
  assert (Hother_b : ∀ l', l' ≠ l → heap wb l' = heap w l').
  { intros l' Hne. subst wb wa. cbn [heap set_heap].
    by rewrite !fn_lookup_insert_ne. }
  destruct (draw_track_drawn wb key colour l track Hwb Hkey)
    as (w2 & Hrun & Hheap & Hother & Harts & Hathletes & Hmap & Hlegend).
  { by rewrite Hheap_b. }
  { exact Hdrawable. }
  rewrite run_bind, Hrun, draw_legend_run.
  assert (Hpatches : ∀ ps, patches (set_legend w2 ps) = patches w2) by done.
  assert (Hlines : ∀ h, h ∈ track_lines (heap w l) →
                        (h < length (artists w))%nat)
    by (intros h; by apply track_lines_live).
  assert (Hmarker : ∀ h, h ∈ marker (heap w l) →
                         (h < length (artists w))%nat)
    by (intros h; by apply marker_live).
  assert (Hapart : ∀ h, h ∈ marker (heap w l) →
                        h ∉ track_lines (heap w l)).
  { intros h Hm Ht. destruct Hw as (Hnd & _). specialize (Hnd l).
    apply list.NoDup_app in Hnd as (_ & Hsep & _). by apply (Hsep h). }
  rewrite Hheap_b in Hheap, Harts.
  change (artists wb) with (artists w) in *.
  change (map_class wb) with (map_class w) in *.
  change (athletes wb) with (athletes w) in *.
  change (legend wb) with (legend w) in *.
  change (track_lines (set_key_display_name
                         (set_key_colour (heap w l) colour) name))
    with (track_lines (heap w l)) in *.
  destruct (patches w2) as [ps|] eqn:Hps; cbn [fst snd];
    rewrite ?Hpatches, ?Hps; unfold live;
    cbn [heap artists athletes legend set_legend];
    rewrite Hheap, Harts;
    cbn [key_colour key_display_name key_track key_draw_track key_draw_point
         set_key_draw_track set_key_display_name set_key_colour];
    repeat split; try done.
  all: intros;
    rewrite ?live_created, ?length_erased, ?live_erased, ?Hother, ?Hother_b
      by done;
    repeat case_decide; try done; try lia.
  all: try match goal with
    | |- _ !! (?n + ?i - ?n)%nat = _ =>
        by replace (n + i - n)%nat with i by lia
    | H : _ ∈ track_lines _ |- _ => apply Hlines in H; lia
    | H : _ ∈ marker _ |- _ =>
        first [by apply Hapart in H | apply Hmarker in H; lia]
    end.
Qed.

Lemma dict_getitem_setitem {A} (d : list (string * A)) key v :
  dict_getitem (dict_setitem d key v) (Some key) = Returned v.
Proof.
  unfold dict_getitem. induction d as [|item d IH]; cbn.
  { by rewrite decide_True. }
  destruct (decide (item.1 = key)) as [Heq|Hne]; cbn.
  - by rewrite decide_True.
  - rewrite decide_False by done.
    by destruct (list_find _ (dict_setitem d key v)) as [[i found]|].
Qed.

Lemma draw_track_failed (w : World) key color l track e :
  owned w →
  dict_getitem (athletes w) (Some key) = Returned l →
  key_track (heap w l) = Some track →
  (2 ≤ length (track_points track))%nat →
  (∀ p, degrees_to_graph (map_class w) p = Raise e) →
  ∃ w',
    draw_track key color w = (Raised (Builtin e), w') ∧
    athletes w' = athletes w ∧
    legend w' = legend w ∧
    artists w' = erased (track_lines (heap w l)) (artists w).
Proof.
  intros Hw Hkey Htrack Hlong Hraise.
  rewrite (draw_track_run w key color l track Hw Hkey Htrack). cbn zeta.
  set (w1 := match key_draw_track (heap w l) with
             | Some (Some lines) =>
                 set_heap (set_artists w (erased lines (artists w)))
                   (<[l := set_key_draw_track (heap w l) None]> (heap w))
             | _ => w
             end).
  assert (Hmap : map_class w1 = map_class w)
    by (subst w1; by destruct (key_draw_track (heap w l)) as [[?|]|]).
  rewrite (lines_loop_raises _ _ _ w1 e) by (by rewrite Hmap).
  destruct (track_points track) as [|point [|next points]];
    [cbn in Hlong; lia..|].
  exists w1. split; [done|]. subst w1. unfold track_lines.
  by destruct (key_draw_track (heap w l)) as [[?|]|].
Qed.

(** *** Adding an athlete *)

Section Adding.

Variable get_track_bounds : Track → result (Q * Q * Q * Q).
Variable union_bounds : Q * Q * Q * Q → Q * Q * Q * Q → Q * Q * Q * Q.
Variable working_directory : string.
Variable image_open : Bytes → result Image.
Variable save_jpg : Image → Bytes.
Variable urlopen_read : string → result Bytes.
Variable math_pi : Q.
Variables math_radians math_tan math_cos math_ln : Q → Q.
Variables math_atan math_sinh math_degrees : Q → Q.

Abbreviation add_athlete :=
  (@Overlay.add_athlete Image Bytes Colour stale_remove get_track_bounds
     union_bounds working_directory image_open save_jpg urlopen_read math_pi
     math_radians math_tan math_cos math_ln math_atan math_sinh math_degrees).

Lemma keeps_add_athlete key athlete_value :
  keeps (add_athlete key athlete_value).
Proof.
  unfold Overlay.add_athlete.
  apply keeps_bind; [by intros w Hw|intros _].
  apply keeps_bind; [apply keeps_read|intros value].
  apply keeps_bind; [apply keeps_item|intros track].
  apply keeps_bind; [by intros w Hw|intros bounds].
  apply keeps_bind; [by intros w Hw|intros _].
  apply keeps_bind.
  { intros w Hw. unfold self_get_all_images.
    by destruct (gpx_bounds_deg (map_class w)). }
  intros tiles.
  apply keeps_bind; [by intros w Hw|intros _].
  apply keeps_bind; [by intros w Hw|intros _].
  apply keeps_bind; [apply keeps_read|intros value'].
  apply keeps_bind; [apply keeps_item|intros colour].
  apply keeps_bind; [apply keeps_draw_track|intros _].
  apply keeps_draw_legend.
Qed.

(** X25: each public method that draws or removes keeps the artists
    owned, whether it returns or raises: after it every artist a dict
    holds under ['draw_track'] or ['draw_point'] is on the axes, and no
    artist is held twice, in one dict or in two. *)
Theorem overlay_keeps_ownership (w : World) key athlete_value pos color size :
  owned w →
  owned (add_athlete key athlete_value w).2 ∧
  owned (modify_athlete key athlete_value w).2 ∧
  owned (remove_athlete key w).2 ∧
  owned (draw_track key color w).2 ∧
  owned (draw_point key pos color size w).2 ∧
  owned (remove_point key w).2.
Proof.
  intros Hw.
  split; [by apply keeps_add_athlete|].
  split; [by apply keeps_modify_athlete|].
  split; [by apply keeps_remove_athlete|].
  split; [by apply keeps_draw_track|].
  split; [by apply keeps_draw_point|by apply keeps_remove_point].
Qed.

Lemma add_athlete_prefix (w : World) key athlete_value :
  (∃ e w0,
     add_athlete key athlete_value w = (Raised e, w0) ∧
     heap w0 = heap w ∧ artists w0 = artists w ∧ legend w0 = legend w ∧
     athletes w0 = dict_setitem (athletes w) key athlete_value) ∨
  (∃ track colour w0,
     key_track (heap w athlete_value) = Some track ∧
     key_colour (heap w athlete_value) = Some colour ∧
     add_athlete key athlete_value w =
       (draw_track key colour ≫= λ _, draw_legend) w0 ∧
     heap w0 = heap w ∧ artists w0 = artists w ∧ legend w0 = legend w ∧
     athletes w0 = dict_setitem (athletes w) key athlete_value).
Proof.
  unfold Overlay.add_athlete.
  rewrite run_bind. cbn [athletes_setitem].
  rewrite run_bind. cbn [read heap set_athletes].
  destruct (key_track (heap w athlete_value)) as [track|];
    [|left; by eexists _, _].
  rewrite run_bind. cbn [item mret M_mret M_ret].
  rewrite run_bind.
  destruct (get_track_bounds track) as [bounds|e];
    [|left; by eexists _, _].
  cbn [of_result]. rewrite run_bind. cbn [self_set_gpx_bounds].
  rewrite run_bind. unfold self_get_all_images.
  cbn [map_class set_map_class set_athletes gpx_bounds_deg set_gpx_bounds
       files].
  match goal with
  | |- context [TileFetch.get_all_images_in_bounds ?a ?b ?c ?d ?e ?f ?g ?h ?i
                  ?j ?k] =>
      destruct (TileFetch.get_all_images_in_bounds a b c d e f g h i j k)
        as [[tiles|e'] files']
  end; cbn [fst snd of_result]; [|left; by eexists _, _].
  rewrite run_bind. unfold self_add_images.
  match goal with
  | |- context [add_images ?a ?b ?c ?d ?m ?t] =>
      destruct (add_images a b c d m t) as [[[]|e'] self']
  end; cbn [fst snd of_result]; [|left; by eexists _, _].
  rewrite run_bind. cbn [self_plot_images].
  rewrite run_bind. cbn [read heap set_images set_map_class set_files
    set_athletes].
  destruct (key_colour (heap w athlete_value)) as [colour|];
    [|left; by eexists _, _].
  rewrite run_bind. cbn [item mret M_mret M_ret].
  right. by eexists _, _, _.
Qed.

(** X26: while every artist held by a dict is on the axes and held once,
    [add_athlete] registers the dict under the key whatever happens next
    (a key already there keeps its place), and touches no artist then on
    the axes but the lines of that dict.  When it returns, the dict has a
    track and a colour, the artists created are the lines of the track on
    the map as it is now, in that colour, and the legend lists the
    athletes; when it raises, the legend is the old one. *)
Theorem add_athlete_draws (w : World) key athlete_value :
  owned w →
  let out := (add_athlete key athlete_value w).1 in
  let w' := (add_athlete key athlete_value w).2 in
  athletes w' = dict_setitem (athletes w) key athlete_value ∧
  (∀ h, h ∉ track_lines (heap w athlete_value) →
        (h < length (artists w))%nat → live w' h = live w h) ∧
  (out ≠ Returned () → legend w' = legend w) ∧
  (out = Returned () →
   ∃ track colour,
     key_track (heap w athlete_value) = Some track ∧
     key_colour (heap w athlete_value) = Some colour ∧
     let lines := segments (map_class w') (track_points track) colour in
     key_draw_track (heap w' athlete_value) =
       Some (Some (seq (length (artists w)) (length lines))) ∧
     (∀ i line, lines !! i = Some line →
                live w' (length (artists w) + i) = Some line) ∧
     legend w' = patches w').
Proof.
  intros Hw out w'. subst out w'.
  destruct (add_athlete_prefix w key athlete_value)
    as [(e & w0 & -> & Hheap & Harts & Hlegend & Hathletes)
       |(track & colour & w0 & Htrack & Hcolour & -> & Hheap & Harts
         & Hlegend & Hathletes)].
  { cbn [fst snd]. split; [done|]. split; [|split; [done|done]].
    intros h _ _. by apply live_eq. }
  assert (Hw0 : owned w0) by by apply (owned_same w).
  assert (Hkey : dict_getitem (athletes w0) (Some key) = Returned athlete_value)
    by (rewrite Hathletes; apply dict_getitem_setitem).
  assert (Htrack0 : key_track (heap w0 athlete_value) = Some track)
    by by rewrite Hheap.
  assert (Hdrawable :
    ((length (track_points track) < 2)%nat ∨
     (∀ p, is_ok (degrees_to_graph (map_class w0) p) = true)) ∨
    ((2 ≤ length (track_points track))%nat ∧
     ∃ e, ∀ p, degrees_to_graph (map_class w0) p = Raise e)).
  { destruct (degrees_to_graph_cases (map_class w0)) as [Hok|Hraise].
    - left. right. intros p. by rewrite Hok.
    - destruct (decide (length (track_points track) < 2)%nat);
        [by left; left|right]. split; [lia|done]. }
  rewrite run_bind.
  destruct Hdrawable as [Hdrawable|(Hlong & e & Hraise)].
  - destruct (draw_track_drawn w0 key colour athlete_value track Hw0 Hkey
                Htrack0 Hdrawable)
      as (w1 & -> & Hheap1 & Hother1 & Harts1 & Hathletes1 & Hmap1 & Hlegend1).
    rewrite draw_legend_run.
    assert (Hpatches : ∀ ps, patches (set_legend w1 ps) = patches w1) by done.
    assert (Hlines : ∀ h, h ∈ track_lines (heap w athlete_value) →
                          (h < length (artists w))%nat)
      by (intros h; by apply track_lines_live).
    rewrite Hheap, Harts in Harts1. rewrite Hheap, Harts in Hheap1.
    destruct (patches w1) as [ps|] eqn:Hps; cbn [fst snd];
      rewrite ?Hpatches, ?Hps; unfold live;
      cbn [heap artists athletes legend map_class set_legend];
      rewrite ?Hheap1, ?Harts1, ?Hmap1;
      cbn [key_draw_track set_key_draw_track];
      (split; [congruence|]); (split; [|split]); try done.
    + intros h Hh Hlt.
      rewrite live_created, length_erased, live_erased.
      by rewrite decide_True, decide_False by done.
    + intros _. exists track, colour. do 3 (split; [done|]).
      split; [|done]. intros i line Hline.
      rewrite live_created, length_erased.
      rewrite decide_False by lia.
      by replace (length (artists w) + i - length (artists w))%nat with i
        by lia.
    + intros h Hh Hlt.
      rewrite live_created, length_erased, live_erased.
      by rewrite decide_True, decide_False by done.
    + intros _. congruence.
  - destruct (draw_track_failed w0 key colour athlete_value track e Hw0 Hkey
                Htrack0 Hlong Hraise)
      as (w1 & -> & Hathletes1 & Hlegend1 & Harts1).
    cbn [fst snd]. split; [congruence|]. split; [|split; [congruence|done]].
    intros h Hh Hlt. unfold live. rewrite Harts1, Hheap, Harts, live_erased.
    by rewrite decide_False.
Qed.

End Adding.

End AthleteOverlay.

(** ** The units of the stats menu *)

Section UnitsMenu.

Import Sporting.

Variable float_str : Q → string.

(** X27: of the four unit names the stats menu offers,
    [convert_speed_units] knows three: for every float speed it raises
    [ValueError] for ['kmh'], which is not the ['km/h'] it knows, and
    returns a text for ['m/s'] and ['mph']; for ['s/500m'] it returns
    exactly when the pace [500 / speed] is a finite float. *)
Theorem menu_units_accepted speed x unit :
  unit ∈ StatsMenu.speed_options →
  float_value speed = Some x →
  (unit = "kmh"%string →
   convert_speed_units float_str speed (VStr unit) = Raise ValueError) ∧
  (unit = "s/500m"%string →
   is_ok (convert_speed_units float_str speed (VStr unit)) = true ↔
   pace_defined x) ∧
  (unit ≠ "kmh"%string → unit ≠ "s/500m"%string →
   is_ok (convert_speed_units float_str speed (VStr unit)) = true).
Proof.
  intros Hunit Hspeed. unfold StatsMenu.speed_options in Hunit.
  destruct (convert_plain_units float_str speed x Hspeed)
    as (Hms & _ & Hmph).
  repeat (apply elem_of_cons in Hunit as [->|Hunit]);
    [| | | |by apply elem_of_nil in Hunit];
    (split; [|split]); try done.
  - intros _. by apply convert_pace_defined.
  - intros _ _. by rewrite Hms.
  - intros _. by rewrite (convert_unknown_unit float_str speed "kmh"), Hspeed.
  - intros _ _. by rewrite Hmph.
Qed.

End UnitsMenu.

(** ** More instances on sample data *)

Section MoreOnSamples.

Import Sporting GraphHandler TileFetch StatsMenu Samples.

Lemma three_points_increasing : strictly_increasing (track_points three_points).
Proof. cbn. repeat split; reflexivity. Defined.


Lemma cumulative_distance_monotone_at_samples_witness :
  ∃ d1 d2,
    get_cumulative_dist_at_time axis_distance three_points 10 = Ok (VFloat d1) ∧
    get_cumulative_dist_at_time axis_distance three_points 20 = Ok (VFloat d2) ∧
    (d1 <= d2)%Q.
Proof.
  apply (cumulative_distance_monotone_at_samples axis_distance three_points
           (point 0 0 0 30) [point 0 0.001 10 40; point 0 0.003 20 36]
           1%nat 2%nat (point 0 0.001 10 40) (point 0 0.003 20 36)).
  - reflexivity.
  - discriminate.
  - exact three_points_increasing.
  - reflexivity.
  - reflexivity.
  - lia.
Defined.


Lemma cumulative_distance_sign_witness :
  ∃ d,
    get_cumulative_dist_at_time axis_distance three_points 12 = Ok (VFloat d) ∧
    ((0 <= 12)%Q → (0 <= d)%Q) ∧
    ((12 <= 0)%Q → (d <= 0)%Q).
Proof.
  apply (cumulative_distance_sign axis_distance three_points
           (point 0 0 0 30) [point 0 0.001 10 40; point 0 0.003 20 36] 12).
  - reflexivity.
  - discriminate.
  - exact three_points_increasing.
Defined.

Lemma distance_of_short_track_witness :
  (∀ t, get_cumulative_dist_at_time axis_distance
          (mkTrack [point 0 0 0 30]) t = Ok (VInt 0)) ∧
  get_total_distance axis_distance (mkTrack [point 0 0 0 30]) = Ok (VInt 0).
Proof.
  apply (distance_of_short_track axis_distance (mkTrack [point 0 0 0 30])).
  cbn. lia.
Defined.

Lemma map_ranges_ends_witness :
  ∃ low high,
    map_ranges 0 0 10 30 40 = Ok low ∧ (low == 30)%Q ∧
    map_ranges 10 0 10 30 40 = Ok high ∧ (high == 40)%Q.
Proof.
  apply (map_ranges_ends 0 10 30 40). discriminate.
Defined.

Lemma queries_pass_through_samples_witness :
  (∃ lat lon,
     get_position_at_time three_points 10 = Ok (lat, lon) ∧
     (lat == 0)%Q ∧ (lon == 0.001)%Q) ∧
  get_cadence_at_time three_points 10 = Ok (VFloat (py_round 40 1)).
Proof.
  apply (queries_pass_through_samples three_points 1
           (point 0 0.001 10 40) (point 0 0.003 20 36)).
  - exact three_points_increasing.
  - reflexivity.
  - reflexivity.
Defined.

Lemma position_between_samples_witness :
  ∃ i below above lat lon,
    track_points three_points !! i = Some below ∧
    track_points three_points !! S i = Some above ∧
    get_position_at_time three_points 12 = Ok (lat, lon) ∧
    (((position_degrees below).1 <= lat)%Q ∧ (lat <= (position_degrees above).1)%Q ∨
     ((position_degrees above).1 <= lat)%Q ∧ (lat <= (position_degrees below).1)%Q) ∧
    (((position_degrees below).2 <= lon)%Q ∧ (lon <= (position_degrees above).2)%Q ∨
     ((position_degrees above).2 <= lon)%Q ∧ (lon <= (position_degrees below).2)%Q).
Proof.
  apply (position_between_samples three_points (point 0 0 0 30)
           (point 0 0.003 20 36) 12).
  - exact three_points_increasing.
  - reflexivity.
  - reflexivity.
  - discriminate.
  - reflexivity.
Defined.

Lemma plotted_tiles_inside_bounds_witness :
  ∃ height width west south,
    tile_bounds_plt
      (reindex_tiles approx_pi approx_atan approx_sinh approx_degrees
         two_tile_map).2 = Some (height, width, 0, 0) ∧
    is_west (raw_image_dict two_tile_map) west ∧
    is_south (raw_image_dict two_tile_map) south ∧
    (∀ x y image,
       raw_image_dict two_tile_map !! (x, y) = Some image →
       (image,
        ((x - west) * tile_size two_tile_map,
         (x - west + 1) * tile_size two_tile_map,
         (south - y) * tile_size two_tile_map,
         (south - y + 1) * tile_size two_tile_map))
       ∈ plot_images
           (reindex_tiles approx_pi approx_atan approx_sinh approx_degrees
              two_tile_map).2) ∧
    (∀ image left right bottom top,
       (image, (left, right, bottom, top))
       ∈ plot_images
           (reindex_tiles approx_pi approx_atan approx_sinh approx_degrees
              two_tile_map).2 →
       0 ≤ left ∧ right = left + tile_size two_tile_map ∧ right ≤ width ∧
       0 ≤ bottom ∧ top = bottom + tile_size two_tile_map ∧ top ≤ height).
Proof.
  apply (plotted_tiles_inside_bounds approx_pi approx_atan approx_sinh
           approx_degrees two_tile_map).
  - exact two_tile_map_nonempty.
  - by vm_compute.
Defined.

Lemma two_tile_map_with_track_bounds :
  ∃ north east south west,
    tile_bounds_deg two_tile_map_with_track = Some (north, east, south, west) ∧
    ¬ (north == south)%Q ∧ ¬ (east == west)%Q.
Proof.
  do 4 eexists. split; [vm_compute; reflexivity|].
  split; intros H; vm_compute in H; discriminate H.
Defined.

Lemma degrees_to_graph_corners_witness :
  ∃ north east south west x0 y0 x1 y1,
    tile_bounds_deg two_tile_map_with_track = Some (north, east, south, west) ∧
    degrees_to_graph two_tile_map_with_track (south, west) = Ok (x0, y0) ∧
    (x0 == 0)%Q ∧ (y0 == 0)%Q ∧
    degrees_to_graph two_tile_map_with_track (north, east) = Ok (x1, y1) ∧
    (x1 == 150)%Q ∧ (y1 == 150)%Q.
Proof.
  destruct two_tile_map_with_track_bounds
    as (north & east & south & west & Hdeg & Hns & Hew).
  destruct (degrees_to_graph_corners two_tile_map_with_track
              (51.5, -0.1, 51.4, -0.2)%Q north east south west 150 150 0 0)
    as (x0 & y0 & x1 & y1 & H);
    [vm_compute; reflexivity | exact Hdeg | vm_compute; reflexivity
    | exact Hns | exact Hew |].
  exists north, east, south, west, x0, y0, x1, y1. split; [done|]. exact H.
Defined.

Lemma tile_columns_meet_their_longitudes_witness :
  ∃ west_tile tile_lat lon x y,
    is_west (raw_image_dict two_tile_map_with_track) west_tile ∧
    num2deg approx_pi approx_atan approx_sinh approx_degrees 3 4 17
      = Ok (tile_lat, lon) ∧
    degrees_to_graph
      (reindex_tiles approx_pi approx_atan approx_sinh approx_degrees
         two_tile_map_with_track).2 (51.1403, lon)%Q = Ok (x, y) ∧
    (x == inject_Z ((3 - west_tile) * tile_size two_tile_map_with_track))%Q.
Proof.
  eapply (tile_columns_meet_their_longitudes approx_pi approx_atan approx_sinh
            approx_degrees two_tile_map_with_track (51.5, -0.1, 51.4, -0.2)%Q).
  - exact two_tile_map_nonempty.
  - reflexivity.
  - vm_compute. reflexivity.
  - intros H. vm_compute in H. discriminate H.
Defined.

Lemma viewport_holds_every_position_witness :
  ∃ left right down above,
    center_viewpoint approx_pow two_tile_map_with_track
      [(51.1403, -179.99)%Q] 0.1 = Ok (left, right, down, above) ∧
    (0 <= left)%Q ∧ (right <= 150)%Q ∧ (0 <= down)%Q ∧ (above <= 150)%Q.
Proof.
  edestruct (viewport_holds_every_position approx_pow two_tile_map_with_track
               [(51.1403, -179.99)%Q] 0.1)
    as (left & right & down & above & Hview & Hl & Hr & Hd & Ha & _).
  - vm_compute. reflexivity.
  - vm_compute. discriminate.
  - vm_compute. reflexivity.
  - discriminate.
  - vm_compute. reflexivity.
  - intros x y Hin. apply list_elem_of_singleton in Hin.
    injection Hin as -> ->. repeat split; vm_compute; discriminate.
  - exists left, right, down, above. repeat split; assumption.
Defined.

Lemma display_text_ranks_witness :
  ∃ order text,
    order ≡ₚ test_data ∧
    StronglySorted (ranks_before test_data) order ∧
    render_text fraction_str (make_row fraction_str <$> order) = Returned text ∧
    display_text fraction_str test_data = Some (Returned text, []).
Proof.
  apply (display_text_ranks fraction_str test_data).
  - apply (bool_decide_unpack _). vm_compute. exact I.
  - repeat (apply Forall_cons; split;
            [eexists; split; [reflexivity | reflexivity]|]).
    apply Forall_nil_2.
  - discriminate.
Defined.

Lemma display_text_behind_start_witness :
  ∃ remaining,
    display_text fraction_str early_data = Some (Raised KeyError, remaining) ∧
    ∀ item, item ∈ remaining ↔ item ∈ early_data ∧ (dist_of item.2 <= -1)%Q.
Proof.
  apply (display_text_behind_start fraction_str early_data).
  - apply (bool_decide_unpack _). vm_compute. exact I.
  - repeat (apply Forall_cons; split; [by eexists|]). apply Forall_nil_2.
  - right. left. discriminate.
Defined.

Lemma last_cached_type_wins_witness :
  get_img "/app" plain_open plain_save echo_network 2 3 17 twice_cached =
    (Ok "new png"%string, twice_cached).
Proof.
  destruct (last_cached_type_wins "/app" plain_open plain_save echo_network
              2 3 17 twice_cached "new png"%string) as [Hpng _].
  - intros f_type other _ _. reflexivity.
  - apply Hpng. vm_compute. reflexivity.
Defined.

Lemma downloaded_tile_is_cached_witness :
  get_img "/app" plain_open plain_save echo_network 2 3 17 ∅ =
    (Ok (image_url 2 3 17),
     <[cache_name "/app" 2 3 17 "jpg" := image_url 2 3 17]> ∅) ∧
  ∀ other_network : string → result string,
    get_img "/app" plain_open plain_save other_network 2 3 17
      (<[cache_name "/app" 2 3 17 "jpg" := image_url 2 3 17]> ∅) =
    (Ok (image_url 2 3 17),
     <[cache_name "/app" 2 3 17 "jpg" := image_url 2 3 17]> ∅).
Proof.
  apply (downloaded_tile_is_cached "/app" plain_open plain_save echo_network
           2 3 17 ∅ (image_url 2 3 17) (image_url 2 3 17)).
  - intros f_type _. apply lookup_empty.
  - reflexivity.
  - reflexivity.
Defined.

Lemma fetched_tiles_cover_bounds_witness :
  ∃ (tiles : gmap (Z * Z) string) (files' : gmap string string),
    get_all_images_in_bounds "/app" plain_open plain_save echo_network
      approx_pi approx_radians approx_tan approx_cos approx_ln
      (-0.1, 51.5, -0.2, 51.4)%Q ∅ = (Ok tiles, files') ∧
    ∅ ⊆ files' ∧
    ∀ x y, is_Some (tiles !! (x, y)) ↔
           65463 - 1 ≤ x ≤ 65499 ∧ 32647 - 1 ≤ y ≤ 32775.
Proof.
  apply (fetched_tiles_cover_bounds "/app" plain_open plain_save echo_network
           approx_pi approx_radians approx_tan approx_cos approx_ln
           (λ url, eq_refl) (λ content, eq_refl)
           (-0.1)%Q 51.5%Q (-0.2)%Q 51.4%Q ∅ (65463, 32775) (65499, 32647)).
  - vm_compute. reflexivity.
  - vm_compute. reflexivity.
Defined.


End MoreOnSamples.

(** ** Instances on the sample regatta *)

Section OverlayOnSamples.

Import GraphHandler Overlay Samples.

Abbreviation sample_add_athlete :=
  (add_athlete ValueError narrow_bounds wider_bounds "/app" plain_open
     plain_save echo_network approx_pi approx_radians approx_tan approx_cos
     approx_ln approx_atan approx_sinh approx_degrees).

Lemma regatta_owned : owned regatta.
Proof.
  split; [|split].
  - intros [|[|[|l]]]; cbn; try apply NoDup_nil_2.
    apply (bool_decide_unpack _). vm_compute. exact I.
  - intros [|[|[|l]]] h Hh; cbn in Hh; try (by apply elem_of_nil in Hh).
    apply elem_of_cons in Hh as [->|Hh]; [by eexists|].
    apply elem_of_cons in Hh as [->|Hh]; [by eexists|].
    apply list_elem_of_singleton in Hh as ->. by eexists.
  - intros [|[|[|l1]]] [|[|[|l2]]] h Hh1 Hh2; try done;
      cbn in Hh1, Hh2;
      first [by apply elem_of_nil in Hh1 | by apply elem_of_nil in Hh2].
Defined.

Lemma before_regatta_owned : owned before_regatta.
Proof.
  split; [|split].
  - intros l. apply NoDup_nil_2.
  - intros l h Hh. by apply elem_of_nil in Hh.
  - intros l1 l2 h Hh. by apply elem_of_nil in Hh.
Defined.

Lemma regatta_drawable :
  ∀ p, is_ok (degrees_to_graph (map_class regatta) p) = true.
Proof.
  apply (degrees_to_graph_everywhere _ (0, 0)%Q). vm_compute. reflexivity.
Defined.

Lemma unknown_athlete_raises_witness :
  draw_track ValueError "eton.gpx" "pink"%string regatta = (Raised KeyError, regatta) ∧
  draw_point ValueError "eton.gpx" (51.45, -0.15)%Q "pink"%string 1 regatta
    = (Raised KeyError, regatta) ∧
  remove_point ValueError "eton.gpx" regatta = (Raised KeyError, regatta) ∧
  modify_athlete ValueError "eton.gpx" 2%nat regatta
    = (Raised KeyError, regatta) ∧
  remove_athlete ValueError "eton.gpx" regatta = (Raised KeyError, regatta).
Proof.
  apply (unknown_athlete_raises ValueError regatta "eton.gpx" 2%nat
           (51.45, -0.15)%Q "pink"%string 1).
  apply (bool_decide_unpack _). vm_compute. exact I.
Defined.

Lemma overlay_keeps_ownership_witness :
  owned (sample_add_athlete "kew.gpx" 1%nat regatta).2 ∧
  owned (modify_athlete ValueError "kew.gpx" 1%nat regatta).2 ∧
  owned (remove_athlete ValueError "kew.gpx" regatta).2 ∧
  owned (draw_track ValueError "kew.gpx" "blue"%string regatta).2 ∧
  owned (draw_point ValueError "kew.gpx" (0, 0.001)%Q "blue"%string 1 regatta).2 ∧
  owned (remove_point ValueError "kew.gpx" regatta).2.
Proof.
  apply (overlay_keeps_ownership ValueError narrow_bounds wider_bounds "/app"
           plain_open plain_save echo_network approx_pi approx_radians
           approx_tan approx_cos approx_ln approx_atan approx_sinh
           approx_degrees regatta "kew.gpx" 1%nat (0, 0.001)%Q "blue"%string 1).
  exact regatta_owned.
Defined.

Lemma draw_point_moves_marker_witness :
  (draw_point ValueError "canford.gpx" (51.45, -0.15)%Q "red"%string 1
     regatta).1 = Returned () ∧
  live (draw_point ValueError "canford.gpx" (51.45, -0.15)%Q "red"%string 1
          regatta).2 2%nat = None ∧
  marker (heap (draw_point ValueError "canford.gpx" (51.45, -0.15)%Q
                  "red"%string 1 regatta).2 0%nat) = [4%nat].
Proof.
  pose proof (draw_point_moves_marker ValueError regatta "canford.gpx"
                (51.45, -0.15)%Q "red"%string 1 0%nat regatta_owned eq_refl)
    as H.
  cbv zeta in H. destruct H as (Hold & _ & _ & _ & Hnew).
  destruct (degrees_to_graph (map_class regatta) (51.45, -0.15)%Q)
    as [graph_pos|e] eqn:Hpos; [|vm_compute in Hpos; discriminate Hpos].
  destruct Hnew as (Hout & Hmarker & _).
  split; [exact Hout|]. split; [|exact Hmarker].
  apply Hold. by left.
Defined.

Lemma draw_track_redraws_witness :
  (draw_track ValueError "canford.gpx" "green"%string regatta).1
    = Returned () ∧
  live (draw_track ValueError "canford.gpx" "green"%string regatta).2 0%nat
    = None ∧
  key_draw_track
    (heap (draw_track ValueError "canford.gpx" "green"%string regatta).2 0%nat)
    = Some (Some [4; 5]%nat).
Proof.
  pose proof (draw_track_redraws ValueError regatta "canford.gpx"
                "green"%string 0%nat three_points regatta_owned eq_refl
                eq_refl) as H.
  cbv zeta in H. destruct H as (Hold & _ & _ & _ & Hdrawn & _).
  destruct (Hdrawn (or_intror regatta_drawable)) as (Hout & Hlines & _).
  split; [exact Hout|]. split; [|exact Hlines].
  apply Hold. by left.
Defined.

Lemma remove_athlete_erases_witness :
  (remove_athlete ValueError "canford.gpx" regatta).1 = Returned () ∧
  athletes (remove_athlete ValueError "canford.gpx" regatta).2
    = [("kew.gpx"%string, 1%nat)] ∧
  live (remove_athlete ValueError "canford.gpx" regatta).2 2%nat = None ∧
  legend (remove_athlete ValueError "canford.gpx" regatta).2
    = Some [("blue"%string, "Kew House"%string)].
Proof.
  pose proof (remove_athlete_erases ValueError regatta "canford.gpx" 0%nat
                regatta_owned eq_refl) as H.
  cbv zeta in H. destruct H as (Hathletes & Hgone & _ & _ & _ & Hlegend).
  destruct (patches (remove_athlete ValueError "canford.gpx" regatta).2)
    as [all_patches|] eqn:Hpatches;
    [|vm_compute in Hpatches; discriminate Hpatches].
  destruct Hlegend as (Hout & Hlegend).
  split; [exact Hout|]. split; [exact Hathletes|].
  split; [apply Hgone; by do 2 right; left|].
  rewrite Hlegend, <- Hpatches. vm_compute. reflexivity.
Defined.

Lemma modify_athlete_recolours_witness :
  (modify_athlete ValueError "canford.gpx" 2%nat regatta).1 = Returned () ∧
  key_colour (heap (modify_athlete ValueError "canford.gpx" 2%nat regatta).2
                0%nat) = Some "green"%string ∧
  live (modify_athlete ValueError "canford.gpx" 2%nat regatta).2 2%nat
    = Some (Marker 1 1 1 "red"%string) ∧
  legend (modify_athlete ValueError "canford.gpx" 2%nat regatta).2
    = Some [("green"%string, "Canford 1st VIII"%string);
            ("blue"%string, "Kew House"%string)].
Proof.
  pose proof (modify_athlete_recolours ValueError regatta "canford.gpx" 2%nat
                0%nat "green"%string "Canford 1st VIII"%string three_points
                regatta_owned eq_refl eq_refl eq_refl eq_refl
                (or_intror regatta_drawable)) as H.
  cbv zeta in H.
  destruct H as (Hcolour & _ & _ & _ & _ & _ & _ & Hmarker & _ & _ & Hlegend).
  destruct (patches (modify_athlete ValueError "canford.gpx" 2%nat regatta).2)
    as [all_patches|] eqn:Hpatches;
    [|vm_compute in Hpatches; discriminate Hpatches].
  destruct Hlegend as (Hout & Hlegend).
  split; [exact Hout|]. split; [exact Hcolour|].
  split; [apply Hmarker; by left|].
  rewrite Hlegend, <- Hpatches. vm_compute. reflexivity.
Defined.

Lemma add_athlete_draws_witness :
  (sample_add_athlete "kew.gpx" 1%nat before_regatta).1 = Returned () ∧
  athletes (sample_add_athlete "kew.gpx" 1%nat before_regatta).2
    = [("kew.gpx"%string, 1%nat)] ∧
  key_draw_track
    (heap (sample_add_athlete "kew.gpx" 1%nat before_regatta).2 1%nat)
    = Some (Some [0%nat]) ∧
  legend (sample_add_athlete "kew.gpx" 1%nat before_regatta).2
    = Some [("blue"%string, "Kew House"%string)].
Proof.
  pose proof (add_athlete_draws ValueError narrow_bounds wider_bounds "/app"
                plain_open plain_save echo_network approx_pi approx_radians
                approx_tan approx_cos approx_ln approx_atan approx_sinh
                approx_degrees before_regatta "kew.gpx" 1%nat
                before_regatta_owned) as H.
  cbv zeta in H. destruct H as (Hathletes & _ & _ & Hdrawn).
  assert (Hout : (sample_add_athlete "kew.gpx" 1%nat before_regatta).1
                 = Returned ()) by (vm_compute; reflexivity).
  destruct (Hdrawn Hout)
    as (track & colour & Htrack & Hcolour & Hlines & _ & Hlegend).
  injection Htrack as <-. injection Hcolour as <-.
  split; [exact Hout|]. split; [exact Hathletes|]. split; [exact Hlines|].
  rewrite Hlegend. vm_compute. reflexivity.
Defined.

Lemma menu_units_accepted_witness :
  Sporting.convert_speed_units Samples.fraction_str (Plain (VFloat 4))
    (VStr "kmh") = Raise ValueError.
Proof.
  apply (menu_units_accepted Samples.fraction_str (Plain (VFloat 4))
           (Finite 4) "kmh"%string).
  - by do 2 right; left.
  - reflexivity.
  - reflexivity.
Defined.

End OverlayOnSamples.
